(** * Weather ingestion pipeline: decoder, quality scorer, fact store,
      file sweep and aggregation

    A shallow embedding of the Python sources

      - [src/ingest.py]      (parse_weather_line, the quality block of
                              ingest_weather_data, upsert_weather_fact,
                              create_stations_from_files,
                              get_ingestion_summary),
      - [src/models.py]      (the CHECK constraints of WeatherFact,
                              validate_station_data,
                              calculate_data_quality_score),
      - [src/analyze.py]     (the annual, monthly and quarterly
                              aggregations),
      - [src/app.py]         (get_paginated_response),
      - [answers/ingest_weather.py], [answers/etl_runner.py],
        [answers/aggregate_stats.py]

    Python [float] is IEEE 754 binary64 and is modelled by Rocq's primitive
    floats, so that every score is the very double the interpreter computes.
    Python [str] is modelled by [string], a character being a code point
    below U+0100: among these the decimal digits are 0 to 9 and the white
    space is HT LF VT FF CR, FS GS RS US, SP, NEL (U+0085) and NBSP
    (U+00A0). Text with a character from U+0100 on has no counterpart
    here. *)

From Stdlib Require Import ZArith Lia Bool Ascii String.
From Stdlib Require Import Floats.
From Stdlib Require Uint63.
From stdpp Require Import gmap strings list pretty.

Set Warnings "-inexact-float".
Set Default Proof Using "Type".
Local Open Scope Z_scope.

(* ===================================================================== *)
(** ** The Python built-ins the program calls *)
(* ===================================================================== *)

Module Py.

(** Exceptions the modelled code can meet. *)
Inductive exn : Type :=
| ValueError
| OverflowError
| IntegrityError
| DataError
| OSError.

(** A computation that returns or raises. *)
Inductive result (A : Type) : Type :=
| Return (a : A)
| Raise (e : exn).
Arguments Return {A} a.
Arguments Raise {A} e.

#[global] Instance result_ret : MRet result := fun _ a => Return a.
#[global] Instance result_bind : MBind result := fun _ _ f m =>
  match m with
  | Return a => f a
  | Raise e => Raise e
  end.
#[global] Instance result_fmap : FMap result := fun _ _ f m =>
  match m with
  | Return a => Return (f a)
  | Raise e => Raise e
  end.

Definition returns {A} (m : result A) : bool :=
  match m with Return _ => true | Raise _ => false end.

(** [try: ... except Exception: return d] *)
Definition try_except {A} (m : result A) (handler : exn -> result A) : result A :=
  match m with Return a => Return a | Raise e => handler e end.

(** *** Characters *)

Definition TAB : ascii := ascii_of_nat 9.
Definition LF : ascii := ascii_of_nat 10.

(** [str.isspace]: HT LF VT FF CR, FS GS RS US, SP, NEL and NBSP. *)
Definition isspace (c : ascii) : bool :=
  let n := N_of_ascii c in
  ((9 <=? n) && (n <=? 13) || (28 <=? n) && (n <=? 32)
   || (n =? 133) || (n =? 160))%N.

(** The white space [int] passes over at the two ends of a literal: the
    six characters of C's isspace (HT LF VT FF CR SP) and, from U+007F on,
    the white space of [str.isspace], which [int] reads as a blank. FS GS
    RS US are not passed over. *)
Definition int_space (c : ascii) : bool :=
  let n := N_of_ascii c in
  ((9 <=? n) && (n <=? 13) || (n =? 32) || (n =? 133) || (n =? 160))%N.

(** A decimal digit, to [int] as to the [\d] of [strptime]: below U+0100
    these are 0 to 9. *)
Definition isdigit (c : ascii) : bool :=
  let n := N_of_ascii c in ((48 <=? n) && (n <=? 57))%N.

Definition digit_value (c : ascii) : Z := Z.of_N (N_of_ascii c) - 48.

Definition in_range (lo hi c : ascii) : bool :=
  ((N_of_ascii lo <=? N_of_ascii c) && (N_of_ascii c <=? N_of_ascii hi))%N.

(** *** [str.strip], [str.split], [str.endswith], [str.replace] *)

Fixpoint lstrip (s : string) : string :=
  match s with
  | EmptyString => EmptyString
  | String c r => if isspace c then lstrip r else s
  end.

Fixpoint rstrip (s : string) : string :=
  match s with
  | EmptyString => EmptyString
  | String c r =>
      match rstrip r with
      | EmptyString => if isspace c then EmptyString else String c EmptyString
      | r' => String c r'
      end
  end.

Definition strip (s : string) : string := rstrip (lstrip s).

(** [s.split(sep)] for a one-character separator: never an empty list. *)
Fixpoint split (sep : ascii) (s : string) : list string :=
  match s with
  | EmptyString => [EmptyString]
  | String c r =>
      if Ascii.eqb c sep then EmptyString :: split sep r
      else match split sep r with
           | f :: fs => String c f :: fs
           | [] => [String c EmptyString]
           end
  end.

Definition endswith (s suffix : string) : bool :=
  let n := String.length s in
  let k := String.length suffix in
  (k <=? n)%nat && String.eqb (substring (n - k) k s) suffix.

(** [s.replace(old, '')]: the occurrences of [old], left to right and
    without overlap, are dropped. [skip] counts the characters of a match
    still to be dropped. *)
Fixpoint remove_all_from (old : string) (skip : nat) (s : string) : string :=
  match s with
  | EmptyString => EmptyString
  | String c r =>
      match skip with
      | S k => remove_all_from old k r
      | O =>
          if (0 <? String.length old)%nat && String.prefix old s
          then remove_all_from old (String.length old - 1) r
          else String c (remove_all_from old 0 r)
      end
  end.
Definition remove_all (old s : string) : string := remove_all_from old 0 s.

(** [os.path.splitext(name)[0]] for a name without a directory part: the
    name up to its last dot, unless only dots stand before that dot. *)
Fixpoint last_dot (s : string) : option nat :=
  match s with
  | EmptyString => None
  | String c r =>
      match last_dot r with
      | Some k => Some (S k)
      | None => if Ascii.eqb c "." then Some O else None
      end
  end.

Fixpoint all_dots (s : string) : bool :=
  match s with
  | EmptyString => true
  | String c r => Ascii.eqb c "." && all_dots r
  end.

Definition splitext_root (name : string) : string :=
  match last_dot name with
  | Some k => if all_dots (substring 0 k name) then name else substring 0 k name
  | None => name
  end.

(** *** [int(str)] in base 10

    White space around the literal is passed over, then an optional sign,
    then digits, with single underscores allowed between digits. More
    than [max_str_digits] digits are refused. *)

Definition max_str_digits : Z := 4300.

Fixpoint int_lstrip (s : string) : string :=
  match s with
  | EmptyString => EmptyString
  | String c r => if int_space c then int_lstrip r else s
  end.

Fixpoint int_rstrip (s : string) : string :=
  match s with
  | EmptyString => EmptyString
  | String c r =>
      match int_rstrip r with
      | EmptyString => if int_space c then EmptyString else String c EmptyString
      | r' => String c r'
      end
  end.

Fixpoint int_digits (s : string) (acc : Z) (ndigits : Z) (after_digit : bool)
  : option (Z * Z) :=
  match s with
  | EmptyString => if after_digit then Some (acc, ndigits) else None
  | String c r =>
      if isdigit c then int_digits r (10 * acc + digit_value c) (ndigits + 1) true
      else if Ascii.eqb c "_" then
             (if after_digit then int_digits r acc ndigits false else None)
      else None
  end.

Definition int (s : string) : result Z :=
  let body := int_rstrip (int_lstrip s) in
  let '(negative, digits) :=
    match body with
    | String "-" r => (true, r)
    | String "+" r => (false, r)
    | _ => (false, body)
    end in
  match int_digits digits 0 0 false with
  | Some (n, k) =>
      if max_str_digits <? k then Raise ValueError
      else Return (if negative then - n else n)
  | None => Raise ValueError
  end.

(** *** [int] to [float], and [int / float]

    The conversion rounds to the nearest double, ties to even, and
    raises OverflowError where the rounded value is not finite. *)

Definition round_int (z : Z) : float :=
  SF2Prim (binary_normalize prec emax z 0 false).

Definition float_of_int (z : Z) : result float :=
  let x := round_int z in
  if PrimFloat.is_infinity x then Raise OverflowError else Return x.

(** [z / d] for an [int] z and a non-zero [float] d. *)
Definition int_truediv (z : Z) (d : float) : result float :=
  x ← float_of_int z; mret (x / d)%float.

(** [max(0.0, x)]: the second argument wins only when it is greater. *)
Definition max0 (x : float) : float := if (0 <? x)%float then x else 0%float.

(** *** [datetime.date] and [datetime.strptime(s, '%Y%m%d').date()] *)

Record date : Type := mkdate { year : Z; month : Z; day : Z }.

Definition is_leap (y : Z) : bool :=
  (y mod 4 =? 0) && (negb (y mod 100 =? 0) || (y mod 400 =? 0)).

Definition days_in_month (y m : Z) : Z :=
  if m =? 2 then (if is_leap y then 29 else 28)
  else if (m =? 4) || (m =? 6) || (m =? 9) || (m =? 11) then 30
  else 31.

(** The constructor [date(y, m, d)] checks its arguments. *)
Definition make_date (y m d : Z) : result date :=
  if (1 <=? y) && (y <=? 9999) && (1 <=? m) && (m <=? 12)
     && (1 <=? d) && (d <=? days_in_month y m)
  then Return (mkdate y m d) else Raise ValueError.

(** [%Y] is the regular expression [\d\d\d\d]. *)
Definition match_Y (s : string) : option (Z * string) :=
  match s with
  | String a (String b (String c (String d r))) =>
      if isdigit a && isdigit b && isdigit c && isdigit d
      then Some (1000 * digit_value a + 100 * digit_value b
                 + 10 * digit_value c + digit_value d, r)
      else None
  | _ => None
  end.

(** [%m] is [1[0-2]|0[1-9]|[1-9]]: every way the group can match, in the
    order the matcher tries them. *)
Definition match_m (s : string) : list (Z * string) :=
  match s with
  | String a r =>
      (match r with
       | String b r' =>
           (if Ascii.eqb a "1" && in_range "0" "2" b
            then [(10 + digit_value b, r')] else [])
           ++ (if Ascii.eqb a "0" && in_range "1" "9" b
               then [(digit_value b, r')] else [])
       | EmptyString => []
       end)
      ++ (if in_range "1" "9" a then [(digit_value a, r)] else [])
  | EmptyString => []
  end.

(** [%d] is [3[0-1]|[1-2]\d|0[1-9]|[1-9]| [1-9]]; it ends the pattern, so
    the first alternative that matches is the one taken. *)
Definition match_d (s : string) : option (Z * string) :=
  match s with
  | String a r =>
      let two :=
        match r with
        | String b r' =>
            if Ascii.eqb a "3" && in_range "0" "1" b then Some (30 + digit_value b, r')
            else if in_range "1" "2" a && isdigit b
                 then Some (10 * digit_value a + digit_value b, r')
            else if Ascii.eqb a "0" && in_range "1" "9" b then Some (digit_value b, r')
            else None
        | EmptyString => None
        end in
      match two with
      | Some v => Some v
      | None =>
          if in_range "1" "9" a then Some (digit_value a, r)
          else match r with
               | String b r' =>
                   if Ascii.eqb a " " && in_range "1" "9" b
                   then Some (digit_value b, r') else None
               | EmptyString => None
               end
      end
  | EmptyString => None
  end.

(** The first month alternative after which a day matches. *)
Fixpoint first_md (ms : list (Z * string)) : option (Z * Z * string) :=
  match ms with
  | [] => None
  | (m, r) :: ms' =>
      match match_d r with
      | Some (d, r') => Some (m, d, r')
      | None => first_md ms'
      end
  end.

Definition strptime_Ymd (s : string) : result date :=
  match match_Y s with
  | None => Raise ValueError
  | Some (y, r) =>
      match first_md (match_m r) with
      | None => Raise ValueError
      | Some (m, d, EmptyString) => make_date y m d
      | Some (_, _, String _ _) => Raise ValueError
      end
  end.

End Py.

Import Py.

(* ===================================================================== *)
(** ** src/models.py: the tables *)
(* ===================================================================== *)

Module Models.

#[global] Instance date_eq_dec : EqDecision date.
Proof. solve_decision. Defined.

Definition date_fields (d : date) : Z * Z * Z := (year d, month d, day d).
Definition date_of_fields (t : Z * Z * Z) : date := mkdate t.1.1 t.1.2 t.2.

#[global] Program Instance date_countable : Countable date :=
  inj_countable' date_fields date_of_fields _.
Next Obligation. by intros []. Qed.

(** [Enum('excellent', 'good', 'fair', 'poor')] *)
Inductive quality : Type := excellent | good | fair | poor.

(** A row of [stations], with the columns the ingestion sets. *)
Record Station : Type := mkstation {
  name : string;
  latitude : float;
  longitude : float;
  state : string;
  active : bool
}.

(** A row of [weather_facts]; [ingested_at] is a point on the UTC time line. *)
Record WeatherFact : Type := mkfact {
  station_id : string;
  observation_date : date;
  source : string;
  raw_max_temp : option Z;
  raw_min_temp : option Z;
  raw_precip : option Z;
  max_temp_c : option float;
  min_temp_c : option float;
  precip_mm : option float;
  precip_cm : option float;
  data_quality : quality;
  quality_score : float;
  missing_values : Z;
  outlier_count : Z;
  quality_notes : string;
  ingested_at : Z;
  ingest_run_id : string
}.

(** The composite primary key. *)
Definition primary_key (f : WeatherFact) : string * date * string :=
  (station_id f, observation_date f, source f).

(** [(col BETWEEN lo AND hi OR col IS NULL)] *)
Definition between_or_null (lo hi : Z) (v : option Z) : bool :=
  match v with
  | Some x => (lo <=? x) && (x <=? hi)
  | None => true
  end.

(** ck_raw_max_temp, ck_raw_min_temp and ck_raw_precip together. *)
Definition check_constraints (f : WeatherFact) : bool :=
  between_or_null (-9999) 6000 (raw_max_temp f)
  && between_or_null (-9999) 6000 (raw_min_temp f)
  && between_or_null 0 10000 (raw_precip f).

(** The dialects [upsert_weather_fact] tells apart. *)
Inductive dialect : Type := sqlite | postgresql | other_dialect.

(** The three raw readings lie between [lo] and [hi], or are null. *)
Definition raw_within (lo hi : Z) (f : WeatherFact) : bool :=
  between_or_null lo hi (raw_max_temp f)
  && between_or_null lo hi (raw_min_temp f)
  && between_or_null lo hi (raw_precip f).

(** What stops a row before any constraint is looked at. The raw columns
    are [SmallInteger]: PostgreSQL holds -32768 .. 32767 in them and
    refuses any other integer with DataError. SQLite holds every integer
    sqlite3 binds, which is one of 64 bits; the binding of a larger one
    raises OverflowError. A dialect of the fallback branch is taken to be
    served as SQLite is. *)
Definition storage_error (d : dialect) (f : WeatherFact) : option exn :=
  match d with
  | postgresql =>
      if raw_within (-32768) 32767 f then None else Some DataError
  | sqlite | other_dialect =>
      if raw_within (- 2 ^ 63) (2 ^ 63 - 1) f then None else Some OverflowError
  end.

End Models.

(* ===================================================================== *)
(** ** src/ingest.py: the record decoder *)
(* ===================================================================== *)

Module Ingest.

(** The dictionary [parse_weather_line] returns. *)
Record observation : Type := mkobs {
  observation_date : date;
  raw_max_temp : option Z;
  raw_min_temp : option Z;
  raw_precip : option Z;
  max_temp_c : option float;
  min_temp_c : option float;
  precip_mm : option float;
  precip_cm : option float
}.

(** [int(s) if s != '-9999' else None] *)
Definition raw_value (s : string) : result (option Z) :=
  if String.eqb s "-9999" then mret None else Some <$> Py.int s.

(** [raw / 10.0 if raw is not None else None] *)
Definition clean_value (raw : option Z) : result (option float) :=
  match raw with
  | Some r => Some <$> int_truediv r 10
  | None => mret None
  end.

(** The body of the [try] block. *)
Definition parse_weather_line_body (line : string) : result (option observation) :=
  match split TAB (strip line) with
  | [date_str; max_temp_str; min_temp_str; precip_str] =>
      observation_date ← strptime_Ymd date_str;
      raw_max_temp ← raw_value max_temp_str;
      raw_min_temp ← raw_value min_temp_str;
      raw_precip ← raw_value precip_str;
      max_temp_c ← clean_value raw_max_temp;
      min_temp_c ← clean_value raw_min_temp;
      precip_mm ← clean_value raw_precip;
      let precip_cm := (fun p => p / 10)%float <$> precip_mm in
      mret (Some (mkobs observation_date raw_max_temp raw_min_temp raw_precip
                        max_temp_c min_temp_c precip_mm precip_cm))
  | _ => mret None
  end.

(** [except Exception as e: ...; return None] *)
Definition parse_weather_line (line : string) : result (option observation) :=
  try_except (parse_weather_line_body line) (fun _ => Return None).

(** *** The quality block of [ingest_weather_data] *)

(** [sum(1 for value in values if value is None)] *)
Definition count_none (values : list (option float)) : Z :=
  foldr (fun value n => match value with None => 1 + n | Some _ => n end) 0 values.

(** [v is not None and (v > 50 or v < -50)] *)
Definition max_temp_outlier (v : option float) : bool :=
  match v with
  | Some x => (50 <? x)%float || (x <? -50)%float
  | None => false
  end.

(** [v is not None and (v > 40 or v < -60)] *)
Definition min_temp_outlier (v : option float) : bool :=
  match v with
  | Some x => (40 <? x)%float || (x <? -60)%float
  | None => false
  end.

(** [v is not None and v > 1000] *)
Definition precip_outlier (v : option float) : bool :=
  match v with
  | Some x => (1000 <? x)%float
  | None => false
  end.

Definition count_outliers (max_c min_c precip : option float) : Z :=
  (if max_temp_outlier max_c then 1 else 0)
  + (if min_temp_outlier min_c then 1 else 0)
  + (if precip_outlier precip then 1 else 0).

(** [max_c is not None and min_c is not None and max_c < min_c] *)
Definition inconsistent (max_c min_c : option float) : bool :=
  match max_c, min_c with
  | Some a, Some b => (a <? b)%float
  | _, _ => false
  end.

(** [1.0 - (missing_values * 0.2) - (outlier_count * 0.1)], before any clamp. *)
Definition raw_score (missing outliers : Z) : float :=
  (1 - round_int missing * 0.2 - round_int outliers * 0.1)%float.

(** The score from the two counts and the consistency flag:
    [max(0.0, ...)], then [-= 0.3] and [max(0.0, ...)] again when flagged. *)
Definition score_of (missing outliers : Z) (flagged : bool) : float :=
  let quality_score := max0 (raw_score missing outliers) in
  if flagged then max0 (quality_score - 0.3)%float else quality_score.

(** The [if]/[elif] ladder over the final score. *)
Definition quality_of_score (quality_score : float) : Models.quality :=
  if (0.9 <=? quality_score)%float then Models.excellent
  else if (0.7 <=? quality_score)%float then Models.good
  else if (0.5 <=? quality_score)%float then Models.fair
  else Models.poor.

Definition missing_of (p : observation) : Z :=
  count_none [max_temp_c p; min_temp_c p; precip_mm p].

Definition outliers_of (p : observation) : Z :=
  count_outliers (max_temp_c p) (min_temp_c p) (precip_mm p).

Definition quality_score_of (p : observation) : float :=
  score_of (missing_of p) (outliers_of p) (inconsistent (max_temp_c p) (min_temp_c p)).

(** [f"Missing: {missing_values}, Outliers: {outlier_count}"] *)
Definition notes_of (missing outliers : Z) : string :=
  "Missing: " +:+ pretty missing +:+ ", Outliers: " +:+ pretty outliers.

(** The dictionary [fact_data]. *)
Definition fact_data (station source run_id : string) (now : Z) (p : observation)
  : Models.WeatherFact :=
  {| Models.station_id := station;
     Models.observation_date := observation_date p;
     Models.source := source;
     Models.raw_max_temp := raw_max_temp p;
     Models.raw_min_temp := raw_min_temp p;
     Models.raw_precip := raw_precip p;
     Models.max_temp_c := max_temp_c p;
     Models.min_temp_c := min_temp_c p;
     Models.precip_mm := precip_mm p;
     Models.precip_cm := precip_cm p;
     Models.data_quality := quality_of_score (quality_score_of p);
     Models.quality_score := quality_score_of p;
     Models.missing_values := missing_of p;
     Models.outlier_count := outliers_of p;
     Models.quality_notes := notes_of (missing_of p) (outliers_of p);
     Models.ingested_at := now;
     Models.ingest_run_id := run_id |}.

(** *** The fact store

    The committed content of the two tables, and the number of times the
    clock has been read. [upsert_weather_fact] commits after every row, so
    the store below is what a reader of the database sees. *)

Abbreviation fact_key := (string * date * string)%type.

Record store : Type := mkstore {
  stations : gmap string Models.Station;
  weather_facts : gmap fact_key Models.WeatherFact;
  clock_reads : nat
}.

Definition with_facts (facts : gmap fact_key Models.WeatherFact) (db : store) : store :=
  mkstore (stations db) facts (clock_reads db).

(** The store after one more call of [datetime.utcnow()]. *)
Definition read_clock (db : store) : store :=
  mkstore (stations db) (weather_facts db) (S (clock_reads db)).

(** [INSERT ... ON CONFLICT (station_id, observation_date, source) DO UPDATE
    SET <every column of fact_data>]: a row the driver cannot bind or the
    columns cannot hold is refused with the error of [storage_error], a
    row that breaks a CHECK constraint with IntegrityError; otherwise the
    row at the key is the new one. *)
Definition on_conflict_do_update (d : Models.dialect) (fact : Models.WeatherFact)
    (facts : gmap fact_key Models.WeatherFact)
  : gmap fact_key Models.WeatherFact * result unit :=
  match Models.storage_error d fact with
  | Some e => (facts, Raise e)
  | None =>
      if Models.check_constraints fact
      then (<[Models.primary_key fact := fact]> facts, Return tt)
      else (facts, Raise IntegrityError)
  end.

(** The fallback branch: [session.add] and [commit]; on IntegrityError,
    [rollback] and an UPDATE of the rows with the key, which raises again
    when the new values break a CHECK constraint and changes nothing when
    no row has the key. The error of a row that cannot be bound is no
    IntegrityError: it leaves the [try] statement. *)
Definition add_or_update (fact : Models.WeatherFact)
    (facts : gmap fact_key Models.WeatherFact)
  : gmap fact_key Models.WeatherFact * result unit :=
  match Models.storage_error Models.other_dialect fact with
  | Some e => (facts, Raise e)
  | None =>
      match facts !! Models.primary_key fact with
      | None =>
          if Models.check_constraints fact
          then (<[Models.primary_key fact := fact]> facts, Return tt)
          else (facts, Return tt)
      | Some _ =>
          if Models.check_constraints fact
          then (<[Models.primary_key fact := fact]> facts, Return tt)
          else (facts, Raise IntegrityError)
      end
  end.

Definition upsert_weather_fact (d : Models.dialect) (fact : Models.WeatherFact)
    (facts : gmap fact_key Models.WeatherFact)
  : gmap fact_key Models.WeatherFact * result unit :=
  match d with
  | Models.sqlite => on_conflict_do_update Models.sqlite fact facts
  | Models.postgresql => on_conflict_do_update Models.postgresql fact facts
  | Models.other_dialect => add_or_update fact facts
  end.

(** *** [ingest_weather_data] *)

Section Ingestion.

(** The time [datetime.utcnow()] gives at its n-th call. *)
Variable utcnow : nat -> Z.
Variable d : Models.dialect.
Variables source ingest_run_id : string.

(** The [for line in file] loop of one station; [total_records] is threaded
    through. An exception leaves the loop with the store as committed. *)
Fixpoint ingest_lines (station : string) (lines : list string)
    (db : store) (total_records : Z) : store * result Z :=
  match lines with
  | [] => (db, Return total_records)
  | line :: rest =>
      match strip line with
      | EmptyString => ingest_lines station rest db total_records
      | String _ _ =>
          match parse_weather_line line with
          | Raise e => (db, Raise e)
          | Return None => ingest_lines station rest db total_records
          | Return (Some parsed) =>
              let fact := fact_data station source ingest_run_id
                                    (utcnow (clock_reads db)) parsed in
              let db := read_clock db in
              match upsert_weather_fact d fact (weather_facts db) with
              | (facts, Raise e) => (with_facts facts db, Raise e)
              | (facts, Return _) =>
                  ingest_lines station rest (with_facts facts db) (total_records + 1)
              end
          end
      end
  end.

(** The placeholder row added for a station that is not in the table yet. *)
Definition placeholder (station : string) : Models.Station :=
  Models.mkstation ("Station " +:+ station) 0 0 "XX" true.

Definition ensure_station (station : string) (db : store) : store :=
  match stations db !! station with
  | Some _ => db
  | None => mkstore (<[station := placeholder station]> (stations db))
                    (weather_facts db) (clock_reads db)
  end.

(** The [for filename in weather_files] loop; a file is its name and its
    lines, in the order [os.listdir] gives them. *)
Fixpoint ingest_files (files : list (string * list string))
    (db : store) (total_records : Z) : store * result Z :=
  match files with
  | [] => (db, Return total_records)
  | (filename, lines) :: rest =>
      if endswith filename ".txt" then
        let station := remove_all ".txt" filename in
        match ingest_lines station lines (ensure_station station db) total_records with
        | (db, Raise e) => (db, Raise e)
        | (db, Return total_records) => ingest_files rest db total_records
        end
      else ingest_files rest db total_records
  end.

(** [except Exception: session.rollback(); raise] re-raises what escaped
    the loops; nothing uncommitted is left to roll back. *)
Definition ingest_weather_data (wx_data_dir : list (string * list string))
    (db : store) : store * result Z :=
  ingest_files wx_data_dir db 0.

End Ingestion.

End Ingest.

(* ===================================================================== *)
(** ** answers/: the two stand-alone decoders *)
(* ===================================================================== *)

(** The dictionary both [parse_line] functions return. *)
Record raw_record : Type := mkraw {
  rec_date : date;
  rec_max_temp : option Z;
  rec_min_temp : option Z;
  rec_precip : option Z
}.

(** [None if s == "-9999" else int(s)] *)
Definition raw_field (s : string) : result (option Z) :=
  if String.eqb s "-9999" then mret None else Some <$> Py.int s.

(** The dictionary display, evaluated left to right. *)
Definition raw_record_of (date_str max_temp min_temp precip : string)
  : result (option raw_record) :=
  d ← strptime_Ymd date_str;
  a ← raw_field max_temp;
  b ← raw_field min_temp;
  c ← raw_field precip;
  mret (Some (mkraw d a b c)).

(** *** The [weather] table of the answers/ scripts *)

Abbreviation weather_key := (string * date)%type.

Record weather_row : Type := mkrow {
  w_max_temp_c : option Z;
  w_min_temp_c : option Z;
  w_precipitation_mm : option Z
}.

(** A Python [int] is bound to an SQLite INTEGER only when it fits 64 bits;
    the binding raises OverflowError otherwise. *)
Definition binds_integer (v : option Z) : bool :=
  match v with
  | Some z => (- 2 ^ 63 <=? z) && (z <? 2 ^ 63)
  | None => true
  end.

(** [conn.execute(INSERT_SQL, (station_id, date, max_temp, min_temp, precip))]
    with [INSERT OR IGNORE]: a row whose key is taken is dropped. *)
Definition INSERT_SQL (station_id : string) (data : raw_record)
    (weather : gmap weather_key weather_row)
  : gmap weather_key weather_row * result unit :=
  if binds_integer (rec_max_temp data) && binds_integer (rec_min_temp data)
     && binds_integer (rec_precip data)
  then
    match weather !! (station_id, rec_date data) with
    | Some _ => (weather, Return tt)
    | None =>
        (<[(station_id, rec_date data) :=
             mkrow (rec_max_temp data) (rec_min_temp data) (rec_precip data)]> weather,
         Return tt)
    end
  else (weather, Raise OverflowError).

(** The [for line in file] loop both scripts share, over the decoder of the
    script. [fault] is the number of lines the file system delivers before
    a read fails with OSError, if it fails on this pass. *)
Fixpoint insert_lines (parse_line : string -> result (option raw_record))
    (station_id : string) (lines : list string) (fault : option nat)
    (weather : gmap weather_key weather_row) (count : Z)
  : gmap weather_key weather_row * result Z :=
  match fault with
  | Some O => (weather, Raise OSError)
  | _ =>
      match lines with
      | [] => (weather, Return count)
      | line :: rest =>
          match parse_line line with
          | Raise e => (weather, Raise e)
          | Return None =>
              insert_lines parse_line station_id rest (Nat.pred <$> fault) weather count
          | Return (Some data) =>
              match INSERT_SQL station_id data weather with
              | (weather, Raise e) => (weather, Raise e)
              | (weather, Return _) =>
                  insert_lines parse_line station_id rest (Nat.pred <$> fault)
                               weather (count + 1)
              end
          end
      end
  end.

Module IngestWeather.

(** answers/ingest_weather.py: no handler around the conversions. *)
Definition parse_line (line : string) : result (option raw_record) :=
  match split TAB (strip line) with
  | [date_str; max_temp; min_temp; precip] =>
      raw_record_of date_str max_temp min_temp precip
  | _ => mret None
  end.

(** [ingest_file]; [fault] is the number of lines the file delivers before
    a read fails, if one fails on this pass. *)
Definition ingest_file (lines : list string) (fault : option nat) (station_id : string)
    (weather : gmap weather_key weather_row)
  : gmap weather_key weather_row * result Z :=
  insert_lines parse_line station_id lines fault weather 0.

(** The loop of [main] over [os.listdir(DATA_DIR)]; [faults] gives the
    read fault of each file on this run. *)
Fixpoint ingest_dir (faults : string -> option nat) (files : list (string * list string))
    (weather : gmap weather_key weather_row) (total_records : Z)
  : gmap weather_key weather_row * result Z :=
  match files with
  | [] => (weather, Return total_records)
  | (filename, lines) :: rest =>
      if endswith filename ".txt" then
        match ingest_file lines (faults filename) (splitext_root filename) weather with
        | (weather, Raise e) => (weather, Raise e)
        | (weather, Return count) =>
            ingest_dir faults rest weather (total_records + count)
        end
      else ingest_dir faults rest weather total_records
  end.

(** [main]: the only [conn.commit()] follows the loop, so an exception that
    ends the run leaves the table as it was. *)
Definition main (faults : string -> option nat) (files : list (string * list string))
    (weather : gmap weather_key weather_row)
  : gmap weather_key weather_row * result Z :=
  match ingest_dir faults files weather 0 with
  | (_, Raise e) => (weather, Raise e)
  | (weather', Return total_records) => (weather', Return total_records)
  end.

End IngestWeather.

Module EtlRunner.

(** answers/etl_runner.py: the conversions sit in [try: ... except: return None]. *)
Definition parse_line (line : string) : result (option raw_record) :=
  match split TAB (strip line) with
  | [date_str; max_temp; min_temp; precip] =>
      try_except (raw_record_of date_str max_temp min_temp precip)
                 (fun _ => Return None)
  | _ => mret None
  end.

(** The watch and archive directories (file name to lines) and the table. *)
Record state : Type := mkstate {
  weather : gmap weather_key weather_row;
  watch_dir : gmap string (list string);
  archive_dir : gmap string (list string)
}.

Definition process_file (filename : string) (lines : list string) (fault : option nat)
    (weather : gmap weather_key weather_row)
  : gmap weather_key weather_row * result (string * Z) :=
  let station_id := splitext_root filename in
  match insert_lines parse_line station_id lines fault weather 0 with
  | (weather, Raise e) => (weather, Raise e)
  | (weather, Return count) => (weather, Return (station_id, count))
  end.

(** [shutil.move(filepath, os.path.join(ARCHIVE_DIR, filename))] *)
Definition archive_file (filename : string) (lines : list string) (st : state) : state :=
  mkstate (weather st) (delete filename (watch_dir st))
          (<[filename := lines]> (archive_dir st)).

(** One turn of the loop of [main], for a name [os.listdir] gave. *)
Definition sweep_file (faults : string -> option nat) (file : string)
    (st : state) (totals : Z * Z) : state * (Z * Z) :=
  if endswith file ".txt" then
    match watch_dir st !! file with
    | None => (st, totals)
    | Some lines =>
        match process_file file lines (faults file) (weather st) with
        | (weather', Raise _) =>
            (mkstate weather' (watch_dir st) (archive_dir st), totals)
        | (weather', Return (_, count)) =>
            (archive_file file lines (mkstate weather' (watch_dir st) (archive_dir st)),
             (totals.1 + 1, totals.2 + count))
        end
    end
  else (st, totals).

Fixpoint sweep (faults : string -> option nat) (files : list string)
    (st : state) (totals : Z * Z) : state * (Z * Z) :=
  match files with
  | [] => (st, totals)
  | file :: rest =>
      let '(st, totals) := sweep_file faults file st totals in
      sweep faults rest st totals
  end.

(** [os.listdir(WATCH_DIR)]: the names, in some order, each once. *)
Definition listdir (dir : gmap string (list string)) : list string :=
  (map_to_list dir).*1.

(** [main]; the pair counts the files archived and the records ingested. *)
Definition main (faults : string -> option nat) (st : state) : state * (Z * Z) :=
  sweep faults (listdir (watch_dir st)) st (0, 0).

End EtlRunner.

(* ===================================================================== *)
(** ** SQL aggregates, src/analyze.py and answers/aggregate_stats.py *)
(* ===================================================================== *)

Module Sql.

(** The running state of AVG and SUM over a column of doubles: the sum of
    the values seen that are not NULL, and how many there were. *)
Record accumulator : Type := mkacc { acc_sum : float; acc_cnt : Z }.

Definition acc_init : accumulator := mkacc 0 0.

(** NULL is skipped by the step of every aggregate but COUNT of all rows. *)
Definition acc_step (a : accumulator) (v : option float) : accumulator :=
  match v with
  | Some x => mkacc (acc_sum a + x)%float (acc_cnt a + 1)
  | None => a
  end.

(** AVG: NULL when no value was seen. *)
Definition avg_final (a : accumulator) : option float :=
  if acc_cnt a =? 0 then None else Some (acc_sum a / round_int (acc_cnt a))%float.

(** SUM: NULL when no value was seen. *)
Definition sum_final (a : accumulator) : option float :=
  if acc_cnt a =? 0 then None else Some (acc_sum a).

End Sql.

Module Analyze.

(** A row of the result: the aggregates the three queries select. *)
Record aggregate_row : Type := mkagg {
  avg_max_temp_c : option float;
  avg_min_temp_c : option float;
  total_precip_mm : option float;
  record_count : Z;
  avg_quality_score : option float
}.

(** The aggregate states of one group. *)
Record group_state : Type := mkgroup {
  g_max : Sql.accumulator;
  g_min : Sql.accumulator;
  g_precip : Sql.accumulator;
  g_count : Z;
  g_quality : Sql.accumulator
}.

Definition group_init : group_state :=
  mkgroup Sql.acc_init Sql.acc_init Sql.acc_init 0 Sql.acc_init.

Definition group_step (g : group_state) (f : Models.WeatherFact) : group_state :=
  mkgroup (Sql.acc_step (g_max g) (Models.max_temp_c f))
          (Sql.acc_step (g_min g) (Models.min_temp_c f))
          (Sql.acc_step (g_precip g) (Models.precip_mm f))
          (g_count g + 1)
          (Sql.acc_step (g_quality g) (Some (Models.quality_score f))).

Definition group_final (g : group_state) : aggregate_row :=
  mkagg (Sql.avg_final (g_max g)) (Sql.avg_final (g_min g))
        (Sql.sum_final (g_precip g)) (g_count g) (Sql.avg_final (g_quality g)).

Section GroupBy.

Context {K : Type} `{Countable K}.
Variable group_key : Models.WeatherFact -> K.

(** One scanned row updates the state of its group. *)
Definition scan_row (groups : gmap K group_state) (f : Models.WeatherFact)
  : gmap K group_state :=
  <[group_key f := group_step (default group_init (groups !! group_key f)) f]> groups.

(** [SELECT ..., AVG(..), AVG(..), SUM(..), COUNT( * ), AVG(..) GROUP BY key]
    over the rows in scan order. *)
Definition group_by (rows : list Models.WeatherFact) : gmap K aggregate_row :=
  group_final <$> foldl scan_row ∅ rows.

End GroupBy.

(** The rows of the table in the order of one scan. The order a database
    takes is its own; a sum of doubles can depend on it in its last bits,
    a count and the rows of a group do not. *)
Definition table_scan (facts : gmap (string * date * string) Models.WeatherFact)
  : list Models.WeatherFact :=
  (map_to_list facts).*2.

Definition annual_key (f : Models.WeatherFact) : string * Z :=
  (Models.station_id f, year (Models.observation_date f)).

Definition monthly_key (f : Models.WeatherFact) : string * Z * Z :=
  (Models.station_id f, year (Models.observation_date f),
   month (Models.observation_date f)).

(** [floor((month - 1) / 3 + 1)] *)
Definition quarter (d : date) : Z := (month d - 1) / 3 + 1.

Definition quarterly_key (f : Models.WeatherFact) : string * Z * Z :=
  (Models.station_id f, year (Models.observation_date f),
   quarter (Models.observation_date f)).

Definition annual_weather_aggregation
    (facts : gmap (string * date * string) Models.WeatherFact) :=
  group_by annual_key (table_scan facts).

Definition monthly_weather_aggregation
    (facts : gmap (string * date * string) Models.WeatherFact) :=
  group_by monthly_key (table_scan facts).

Definition quarterly_weather_aggregation
    (facts : gmap (string * date * string) Models.WeatherFact) :=
  group_by quarterly_key (table_scan facts).

End Analyze.

Module AggregateStats.

Record summary_row : Type := mksummary {
  avg_max_temp_c : option float;
  avg_min_temp_c : option float;
  total_precip_cm : option float
}.

(** [WHERE max_temp_c IS NOT NULL AND min_temp_c IS NOT NULL
    AND precipitation_mm IS NOT NULL] *)
Definition selected (r : weather_row) : bool :=
  match w_max_temp_c r, w_min_temp_c r, w_precipitation_mm r with
  | Some _, Some _, Some _ => true
  | _, _, _ => false
  end.

(** SUM and AVG over an INTEGER column, as the exact integer sum of the
    values that are not NULL and their number. SQLite gives the aggregates
    of this sum as long as the running sums are exact in a double and in
    64 bits; beyond 64 bits SUM ends the statement with "integer
    overflow". *)
Record int_accumulator : Type := mkiacc { iacc_sum : Z; iacc_cnt : Z }.

Definition iacc_step (a : int_accumulator) (v : option Z) : int_accumulator :=
  match v with
  | Some x => mkiacc (iacc_sum a + x) (iacc_cnt a + 1)
  | None => a
  end.

(** AVG is a double: the sum over the count. *)
Definition iavg_final (a : int_accumulator) : option float :=
  if iacc_cnt a =? 0 then None
  else Some (round_int (iacc_sum a) / round_int (iacc_cnt a))%float.

Definition isum_final (a : int_accumulator) : option Z :=
  if iacc_cnt a =? 0 then None else Some (iacc_sum a).

(** The three aggregates of one group. *)
Record group_state : Type := mkgroup {
  g_max : int_accumulator;
  g_min : int_accumulator;
  g_precip : int_accumulator
}.

Definition group_init : group_state :=
  mkgroup (mkiacc 0 0) (mkiacc 0 0) (mkiacc 0 0).

Definition group_step (g : group_state) (r : weather_row) : group_state :=
  mkgroup (iacc_step (g_max g) (w_max_temp_c r))
          (iacc_step (g_min g) (w_min_temp_c r))
          (iacc_step (g_precip g) (w_precipitation_mm r)).

(** [AVG(max_temp_c) / 10.0], [AVG(min_temp_c) / 10.0],
    [SUM(precipitation_mm) / 100.0] *)
Definition group_final (g : group_state) : summary_row :=
  mksummary ((fun x => x / 10)%float <$> iavg_final (g_max g))
            ((fun x => x / 10)%float <$> iavg_final (g_min g))
            ((fun s => round_int s / 100)%float <$> isum_final (g_precip g)).

(** [GROUP BY station_id, year] with [year = strftime('%Y', date)]. *)
Definition scan_row (groups : gmap (string * Z) group_state)
    (kr : weather_key * weather_row) : gmap (string * Z) group_state :=
  let k := (kr.1.1, year kr.1.2) in
  if selected kr.2
  then <[k := group_step (default group_init (groups !! k)) kr.2]> groups
  else groups.

Definition select_summary (weather : gmap weather_key weather_row)
  : gmap (string * Z) summary_row :=
  group_final <$> foldl scan_row ∅ (map_to_list weather).

(** [INSERT OR REPLACE INTO weather_summary SELECT ...]: a selected row
    replaces the row with its key; the other rows of the table stay. *)
Definition main (weather : gmap weather_key weather_row)
    (weather_summary : gmap (string * Z) summary_row)
  : gmap (string * Z) summary_row :=
  select_summary weather ∪ weather_summary.

End AggregateStats.

(* ===================================================================== *)
(** ** src/models.py: the validation helpers *)
(* ===================================================================== *)

Module ModelsHelpers.

(** [not s]: the string is empty. *)
Definition empty (s : string) : bool := (String.length s =? 0)%nat.

(** [validate_station_data]; [float(x)] of a double is the double. *)
Definition validate_station_data (station_id : string) (latitude longitude : float)
    (state : string) : result bool :=
  if empty station_id || (20 <? String.length station_id)%nat then Raise ValueError
  else if negb ((-90 <=? latitude)%float && (latitude <=? 90)%float) then Raise ValueError
  else if negb ((-180 <=? longitude)%float && (longitude <=? 180)%float)
       then Raise ValueError
  else if empty state || negb (String.length state =? 2)%nat then Raise ValueError
  else Return true.

(** The attributes [calculate_data_quality_score] reads of its record. *)
Record weather_record : Type := mkrecord {
  max_temp : option float;
  min_temp : option float;
  precipitation : option float
}.

Definition calculate_data_quality_score (record : weather_record) : float :=
  let score := 1%float in
  let missing_count := 0 in
  let missing_count :=
    if max_temp record is None then missing_count + 1 else missing_count in
  let missing_count :=
    if min_temp record is None then missing_count + 1 else missing_count in
  let missing_count :=
    if precipitation record is None then missing_count + 1 else missing_count in
  let score :=
    if 0 <? missing_count then (score - round_int missing_count * 0.2)%float
    else score in
  let score :=
    match max_temp record, min_temp record with
    | Some a, Some b => if (a <? b)%float then (score - 0.3)%float else score
    | _, _ => score
    end in
  let score :=
    match max_temp record with
    | Some a => if (60 <? a)%float || (a <? -60)%float then (score - 0.1)%float else score
    | None => score
    end in
  let score :=
    match min_temp record with
    | Some b => if (50 <? b)%float || (b <? -70)%float then (score - 0.1)%float else score
    | None => score
    end in
  let score :=
    match precipitation record with
    | Some p => if (p <? 0)%float then (score - 0.2)%float else score
    | None => score
    end in
  max0 score.

End ModelsHelpers.

(* ===================================================================== *)
(** ** src/ingest.py: the station records and the summary *)
(* ===================================================================== *)

Module Stations.

(** An entry of [STATION_METADATA]. *)
Record metadata : Type := mkmeta {
  md_name : string;
  md_latitude : float;
  md_longitude : float;
  md_state : string;
  md_elevation : float
}.

Definition STATION_METADATA : gmap string metadata :=
  list_to_map
    [ ("USC00110072"%string, mkmeta "Lincoln Municipal Airport" 40.85 (-96.75) "NE" 362);
      ("USC00110187"%string, mkmeta "Omaha Eppley Airfield" 41.3 (-95.9) "NE" 299);
      ("USC00110338"%string,
       mkmeta "Des Moines International Airport" 41.5333 (-93.65) "IA" 294);
      ("USC00111280"%string,
       mkmeta "Cedar Rapids Municipal Airport" 41.8833 (-91.7167) "IA" 265);
      ("USC00111436"%string,
       mkmeta "Chicago O'Hare International Airport" 41.9786 (-87.9048) "IL" 672);
      ("USC00112140"%string, mkmeta "Springfield Capital Airport" 39.85 (-89.65) "IL" 188);
      ("USC00112193"%string,
       mkmeta "Indianapolis International Airport" 39.7167 (-86.2833) "IN" 243);
      ("USC00112348"%string,
       mkmeta "Fort Wayne International Airport" 40.9833 (-85.2) "IN" 247);
      ("USC00112483"%string,
       mkmeta "Cleveland Hopkins International Airport" 41.4117 (-81.8497) "OH" 791);
      ("USC00113335"%string,
       mkmeta "Cincinnati Northern Kentucky International Airport" 39.05 (-84.6667)
              "OH" 273) ].

(** [STATION_METADATA.get(station_id, {...})] *)
Definition get_metadata (station_id : string) : metadata :=
  default (mkmeta ("Weather Station " +:+ station_id) 0 0 "XX" 0)
          (STATION_METADATA !! station_id).

(** The four checks of the [try] block. *)
Definition simple_validation (station_id : string) (md : metadata) : result unit :=
  if ModelsHelpers.empty station_id || (20 <? String.length station_id)%nat
  then Raise ValueError
  else if negb ((-90 <=? md_latitude md)%float && (md_latitude md <=? 90)%float)
       then Raise ValueError
  else if negb ((-180 <=? md_longitude md)%float && (md_longitude md <=? 180)%float)
       then Raise ValueError
  else if ModelsHelpers.empty (md_state md) || negb (String.length (md_state md) =? 2)%nat
       then Raise ValueError
  else Return tt.

(** A row of [stations], with the columns [create_stations_from_files] sets. *)
Record station_row : Type := mkstation {
  name : string;
  latitude : float;
  longitude : float;
  elevation : float;
  state : string;
  country : string;
  timezone : string;
  active : bool
}.

Definition new_station (md : metadata) : station_row :=
  mkstation (md_name md) (md_latitude md) (md_longitude md) (md_elevation md)
            (md_state md) "USA" "UTC" true.

Section Session.

(** Whether the session flushes what it holds before a query; the sessions
    [create_engine_and_session] makes do not. *)
Variable autoflush : bool.

(** [session.query(Station).filter_by(station_id=station_id).first()]: the
    rows of the table, and the stations added in this session when the
    query flushes them first. *)
Definition existing_station (station_id : string) (table : gmap string station_row)
    (pending : list (string * station_row)) : bool :=
  bool_decide (is_Some (table !! station_id))
  || autoflush && bool_decide (station_id ∈ pending.*1).

(** The [for filename in weather_files] loop; [pending] holds the stations
    added to the session, in order. *)
Fixpoint add_stations (weather_files : list string) (table : gmap string station_row)
    (pending : list (string * station_row)) (stations_created : Z)
  : list (string * station_row) * Z :=
  match weather_files with
  | [] => (pending, stations_created)
  | filename :: rest =>
      let station_id := remove_all ".txt" filename in
      if existing_station station_id table pending
      then add_stations rest table pending stations_created
      else
        let md := get_metadata station_id in
        match simple_validation station_id md with
        | Raise _ => add_stations rest table pending stations_created
        | Return _ =>
            add_stations rest table (pending ++ [(station_id, new_station md)])
                         (stations_created + 1)
        end
  end.

(** The INSERTs of the stations of the session: a station id that is in
    the table breaks the primary key. *)
Fixpoint insert_stations (pending : list (string * station_row))
    (table : gmap string station_row) : result (gmap string station_row) :=
  match pending with
  | [] => Return table
  | (station_id, row) :: rest =>
      match table !! station_id with
      | Some _ => Raise IntegrityError
      | None => insert_stations rest (<[station_id := row]> table)
      end
  end.

(** [create_stations_from_files]: [wx_data_dir] is what [os.listdir] gives;
    the transaction of a commit that raises is rolled back. *)
Definition create_stations_from_files (wx_data_dir : list string)
    (table : gmap string station_row) : gmap string station_row * result Z :=
  let weather_files := filter (fun f => endswith f ".txt" = true) wx_data_dir in
  let '(pending, stations_created) := add_stations weather_files table [] 0 in
  match insert_stations pending table with
  | Return table' => (table', Return stations_created)
  | Raise e => (table, Raise e)
  end.

End Session.

(** *** [get_ingestion_summary] *)

#[global] Instance quality_eq_dec : EqDecision Models.quality.
Proof. solve_decision. Defined.

Definition quality_index (q : Models.quality) : nat :=
  match q with
  | Models.excellent => 0
  | Models.good => 1
  | Models.fair => 2
  | Models.poor => 3
  end.

Definition quality_at (n : nat) : Models.quality :=
  match n with
  | 0%nat => Models.excellent
  | 1%nat => Models.good
  | 2%nat => Models.fair
  | _ => Models.poor
  end.

#[global] Program Instance quality_countable : Countable Models.quality :=
  inj_countable' quality_index quality_at _.
Next Obligation. by intros []. Qed.

(** The dictionary [get_ingestion_summary] returns. *)
Record ingestion_summary : Type := mksummary {
  stations : Z;
  weather_facts : Z;
  quality_distribution : gmap Models.quality Z
}.

(** [func.count(WeatherFact.station_id)] per [data_quality]: one more for
    the group of the row; [station_id] is never null. *)
Definition count_row (groups : gmap Models.quality Z) (f : Models.WeatherFact)
  : gmap Models.quality Z :=
  <[Models.data_quality f := default 0 (groups !! Models.data_quality f) + 1]> groups.

(** The [try] block, over a database that answers its queries. *)
Definition get_ingestion_summary (db : Ingest.store) : ingestion_summary :=
  {| stations := Z.of_nat (size (Ingest.stations db));
     weather_facts := Z.of_nat (size (Ingest.weather_facts db));
     quality_distribution :=
       foldl count_row ∅ (Analyze.table_scan (Ingest.weather_facts db)) |}.

(** The count of a tier in the distribution, 0 for a tier it does not list. *)
Definition tier_count (s : ingestion_summary) (q : Models.quality) : Z :=
  default 0 (quality_distribution s !! q).

End Stations.

(* ===================================================================== *)
(** ** src/app.py: pages of a query *)
(* ===================================================================== *)

Module App.

(** The [pagination] dictionary. *)
Record pagination : Type := mkpagination {
  page : Z;
  per_page : Z;
  total : Z;
  pages : Z;
  has_next : bool;
  has_prev : bool
}.

(** What a call gives: the dictionary, or the exception of [// 0]. *)
Inductive outcome (T : Type) : Type :=
| Response (r : T)
| ZeroDivisionError.
Arguments Response {T} r.
Arguments ZeroDivisionError {T}.

Section Query.

Context {A : Type}.

(** A query: the rows it selects, in its order, and what
    [query.offset(o).limit(l).all()] gives. *)
Variable rows : list A.
Variable fetch : Z -> Z -> list A.

(** [get_paginated_response]; [//] is the floor division. *)
Definition get_paginated_response (page per_page : Z) : outcome (list A * pagination) :=
  let total := Z.of_nat (length rows) in
  if per_page =? 0 then ZeroDivisionError
  else
    let pages := (total + per_page - 1) / per_page in
    let records := fetch ((page - 1) * per_page) per_page in
    Response (records,
              mkpagination page per_page total pages (page <? pages) (1 <? page)).

End Query.

(** [if page < 1: page = 1] and [min(per_page, 1000)] of the two handlers. *)
Definition page_of (page : Z) : Z := if page <? 1 then 1 else page.
Definition per_page_of (per_page : Z) : Z := Z.min per_page 1000.

End App.

(* ===================================================================== *)
(** ** The specification's vocabulary *)
(* ===================================================================== *)

Module Spec.

(** A line from its fields: joined by tabs, ended by a line feed. *)
Definition line_of (fields : list string) : string :=
  String.concat (String TAB EmptyString) fields +:+ String LF EmptyString.

(** The decimal literal of [10 ^ n]. *)
Definition one_and_zeros (n : nat) : string :=
  String "1" (string_of_list_ascii (replicate n "0"%char)).

(** What a numeric field denotes: the sentinel literal is "missing", any
    other text that [int] reads is that integer. *)
Inductive field_value : string -> option Z -> Prop :=
| field_missing : field_value "-9999" None
| field_integer s r : s <> "-9999"%string -> Py.int s = Return r -> field_value s (Some r).

(** A well-formed line: four fields, a calendar date, three numeric fields. *)
Definition well_formed (line : string) (d : date) (r1 r2 r3 : option Z) : Prop :=
  exists ds s1 s2 s3,
    split TAB (strip line) = [ds; s1; s2; s3]
    /\ strptime_Ymd ds = Return d
    /\ field_value s1 r1 /\ field_value s2 r2 /\ field_value s3 r3.

(** [r / 10.0] *)
Definition tenth (r : Z) : float := (round_int r / 10)%float.

(** The raw integer has a double: its magnitude rounds below 2 ^ 1024. *)
Definition has_double (r : option Z) : bool :=
  match r with
  | Some z => negb (PrimFloat.is_infinity (round_int z))
  | None => true
  end.

(** The line of the specification's example, a line whose first reading
    is 10 ^ 309 tenths, and a line with a field that is no number. *)
Definition example_line : string := line_of ["20200101"; "-9999"; "10"; "5"].
Definition huge_line : string := line_of ["20200101"; one_and_zeros 309; "10"; "5"].
Definition text_line : string := line_of ["20200101"; "abc"; "10"; "5"].
Definition dashed_date_line : string := line_of ["2020-01-01"; "10"; "5"; "0"].
Definition short_line : string := line_of ["20200101"; "10"; "5"].

(** The observation the specification describes for the decoded fields. *)
Definition decoded (d : date) (r1 r2 r3 : option Z) : Ingest.observation :=
  Ingest.mkobs d r1 r2 r3 (tenth <$> r1) (tenth <$> r2) (tenth <$> r3)
               ((fun r => tenth r / 10)%float <$> r3).

(** *** The quality scorer *)

(** Order on doubles, as propositions. *)
Definition fle (x y : float) : Prop := (x <=? y)%float = true.
Definition flt (x y : float) : Prop := (x <? y)%float = true.

(** Step 1 of the scorer: the number of the three clean fields that are
    null. *)
Definition missing_count (max_c min_c precip : option float) : Z :=
  Z.of_nat (length (filter (fun v : option float => v = None) [max_c; min_c; precip])).

(** A value that is present and above [hi] or below [lo]. *)
Definition outside (lo hi : float) (v : option float) : bool :=
  match v with
  | Some x => (hi <? x)%float || (x <? lo)%float
  | None => false
  end.

(** A value that is present and above [hi]. *)
Definition above (hi : float) (v : option float) : bool :=
  match v with
  | Some x => (hi <? x)%float
  | None => false
  end.

(** Step 3: max > 50 or < -50, min > 40 or < -60, precip > 1000; each
    check that holds adds one. *)
Definition outlier_count (max_c min_c precip : option float) : Z :=
  Z.b2z (outside (-50) 50 max_c) + Z.b2z (outside (-60) 40 min_c)
  + Z.b2z (above 1000 precip).

(** Step 4: both max and min are present and max < min. *)
Definition max_below_min (max_c min_c : option float) : bool :=
  match max_c, min_c with
  | Some a, Some b => (a <? b)%float
  | _, _ => false
  end.

(** Clamp to [0, 1]. *)
Definition clamp01 (x : float) : float :=
  if (x <? 0)%float then 0%float else if (1 <? x)%float then 1%float else x.

(** The score as the specification writes it, in one expression. *)
Definition score_formula (missing outliers : Z) (flagged : bool) : float :=
  clamp01 (1 - 0.2 * round_int missing - 0.1 * round_int outliers
           - (if flagged then 0.3 else 0))%float.

(** The same score in exact arithmetic, counted in tenths: 10 - 2 m - o,
    less 3 when flagged, clamped to 0 .. 10. *)
Definition score_tenths (missing outliers : Z) (flagged : bool) : Z :=
  0 `max` (10 `min` (10 - 2 * missing - outliers - (if flagged then 3 else 0))).

(** The tier of an exact score: the lower bound of each tier is inclusive. *)
Definition tier_of_tenths (tenths : Z) : Models.quality :=
  if 9 <=? tenths then Models.excellent
  else if 7 <=? tenths then Models.good
  else if 5 <=? tenths then Models.fair
  else Models.poor.

(** The counts three fields can give: a field is missing or an outlier or
    neither, and the consistency flag needs both temperatures. *)
Definition reachable (missing outliers : Z) (flagged : bool) : Prop :=
  0 <= missing /\ 0 <= outliers /\ missing + outliers <= 3
  /\ (flagged = true -> missing <= 1).

(** A score has a tier when it reaches the tier's lower bound and none of
    the bounds above it. *)
Inductive has_tier (score : float) : Models.quality -> Prop :=
| tier_excellent : fle 0.9 score -> has_tier score Models.excellent
| tier_good : fle 0.7 score -> ~ fle 0.9 score -> has_tier score Models.good
| tier_fair : fle 0.5 score -> ~ fle 0.7 score -> has_tier score Models.fair
| tier_poor : ~ fle 0.5 score -> has_tier score Models.poor.

(** An observation with the given clean values (the raw ones play no part
    in the score). *)
Definition observed (max_c min_c precip : option float) : Ingest.observation :=
  Ingest.mkobs (mkdate 2020 1 1) None None None max_c min_c precip None.

(** *** The fact store *)

(** A fact with its lineage time stamp blanked. *)
Definition without_time (f : Models.WeatherFact) : Models.WeatherFact :=
  {| Models.station_id := Models.station_id f;
     Models.observation_date := Models.observation_date f;
     Models.source := Models.source f;
     Models.raw_max_temp := Models.raw_max_temp f;
     Models.raw_min_temp := Models.raw_min_temp f;
     Models.raw_precip := Models.raw_precip f;
     Models.max_temp_c := Models.max_temp_c f;
     Models.min_temp_c := Models.min_temp_c f;
     Models.precip_mm := Models.precip_mm f;
     Models.precip_cm := Models.precip_cm f;
     Models.data_quality := Models.data_quality f;
     Models.quality_score := Models.quality_score f;
     Models.missing_values := Models.missing_values f;
     Models.outlier_count := Models.outlier_count f;
     Models.quality_notes := Models.quality_notes f;
     Models.ingested_at := 0;
     Models.ingest_run_id := Models.ingest_run_id f |}.

(** The rows of a store, every column but [ingested_at]. *)
Definition rows_without_time (db : Ingest.store)
  : gmap (string * date * string) Models.WeatherFact :=
  without_time <$> Ingest.weather_facts db.

(** The facts a file gives, in line order, stamped with time 0: one for
    every line that is not blank and decodes. *)
Fixpoint decoded_facts (station source run_id : string) (lines : list string)
  : list Models.WeatherFact :=
  match lines with
  | [] => []
  | line :: rest =>
      match strip line, Ingest.parse_weather_line line with
      | String _ _, Return (Some p) =>
          Ingest.fact_data station source run_id 0 p
          :: decoded_facts station source run_id rest
      | _, _ => decoded_facts station source run_id rest
      end
  end.

(** The facts of a directory, file after file. *)
Fixpoint directory_facts (source run_id : string) (files : list (string * list string))
  : list Models.WeatherFact :=
  match files with
  | [] => []
  | (filename, lines) :: rest =>
      if endswith filename ".txt"
      then decoded_facts (remove_all ".txt" filename) source run_id lines
           ++ directory_facts source run_id rest
      else directory_facts source run_id rest
  end.

(** A sequence of upserts, ended by the first that raises. *)
Fixpoint apply_writes (d : Models.dialect) (writes : list Models.WeatherFact)
    (facts : gmap (string * date * string) Models.WeatherFact) (n : Z)
  : gmap (string * date * string) Models.WeatherFact * result Z :=
  match writes with
  | [] => (facts, Return n)
  | f :: rest =>
      match Ingest.upsert_weather_fact d f facts with
      | (facts', Return _) => apply_writes d rest facts' (n + 1)
      | (facts', Raise e) => (facts', Raise e)
      end
  end.

(** The row of a fact put at its key. *)
Definition put (facts : gmap (string * date * string) Models.WeatherFact)
    (f : Models.WeatherFact) : gmap (string * date * string) Models.WeatherFact :=
  <[Models.primary_key f := f]> facts.

(** The writes up to the first that breaks a CHECK constraint. *)
Fixpoint admitted_prefix (writes : list Models.WeatherFact) : list Models.WeatherFact :=
  match writes with
  | [] => []
  | f :: rest => if Models.check_constraints f then f :: admitted_prefix rest else []
  end.

(** The upserts of a run go through ON CONFLICT DO UPDATE, or else none of
    them breaks a CHECK constraint. *)
Definition plain_upserts (d : Models.dialect) (writes : list Models.WeatherFact) : Prop :=
  d <> Models.other_dialect
  \/ Forall (fun f => Models.check_constraints f = true) writes.

(** A decoded observation with a raw value outside the CHECK ranges. *)
Definition out_of_range (p : Ingest.observation) : Prop :=
  Models.between_or_null (-9999) 6000 (Ingest.raw_max_temp p)
  && Models.between_or_null (-9999) 6000 (Ingest.raw_min_temp p)
  && Models.between_or_null 0 10000 (Ingest.raw_precip p) = false.

(** The three raw readings of an observation lie between [lo] and [hi],
    or are null. *)
Definition readings_within (lo hi : Z) (p : Ingest.observation) : bool :=
  Models.between_or_null lo hi (Ingest.raw_max_temp p)
  && Models.between_or_null lo hi (Ingest.raw_min_temp p)
  && Models.between_or_null lo hi (Ingest.raw_precip p).

(** The exception an out-of-range observation meets on an ON CONFLICT
    path: IntegrityError from the CHECK constraint when its readings get
    that far, which on sqlite takes integers of 64 bits (OverflowError
    otherwise) and on postgresql integers of 16 (DataError otherwise). *)
Definition rejection (d : Models.dialect) (p : Ingest.observation) : exn :=
  match d with
  | Models.postgresql =>
      if readings_within (-32768) 32767 p then IntegrityError else DataError
  | _ =>
      if readings_within (- 2 ^ 63) (2 ^ 63 - 1) p then IntegrityError
      else OverflowError
  end.

(** The exception the first write that breaks a CHECK constraint meets. *)
Fixpoint first_refusal (d : Models.dialect) (writes : list Models.WeatherFact) : exn :=
  match writes with
  | [] => IntegrityError
  | f :: rest =>
      if Models.check_constraints f then first_refusal d rest
      else default IntegrityError (Models.storage_error d f)
  end.

(** Lines and stores of the examples. *)
Definition good_line : string := line_of ["20200101"; "100"; "50"; "0"].
Definition next_day_line : string := line_of ["20200102"; "120"; "60"; "5"].
Definition bad_line : string := line_of ["20200101"; "99999"; "10"; "5"].
Definition wide_reading_line : string :=
  line_of ["20200101"; one_and_zeros 20; "10"; "5"].
Definition empty_store : Ingest.store := Ingest.mkstore ∅ ∅ 0.
Definition tick_clock (n : nat) : Z := Z.of_nat n.
Definition new_year_2020 : date := mkdate 2020 1 1.

(** A file in which the second day comes first with 99999 tenths and then
    with a reading in range, between two readings of the first day. *)
Definition mixed_file : list string :=
  [ line_of ["20200101"; "100"; "50"; "0"];
    line_of ["20200102"; "99999"; "50"; "0"];
    line_of ["20200102"; "110"; "50"; "0"];
    line_of ["20200101"; "120"; "50"; "0"] ].

(** Two facts for the same station, day and source. *)
Definition first_fact : Models.WeatherFact :=
  Ingest.fact_data "S1" "manual" "run-1" 0
    (decoded new_year_2020 (Some 100) (Some 50) (Some 0)).
Definition second_fact : Models.WeatherFact :=
  Ingest.fact_data "S1" "manual" "run-2" 1
    (decoded new_year_2020 (Some 120) (Some 60) None).

(** A row of the answers' table and a reading for the same key. *)
Definition stored_row : weather_row := mkrow (Some 100) (Some 50) (Some 0).
Definition later_reading : raw_record :=
  mkraw new_year_2020 (Some 120) (Some 60) (Some 5).

(** *** The sweep of answers/etl_runner.py *)

(** Processing the file runs to its end: no read fails and every decoded
    line can be bound. The table plays no part in that. *)
Definition completes (file : string) (lines : list string) (fault : option nat) : bool :=
  returns (EtlRunner.process_file file lines fault ∅).2.

(** No read fails on this pass. *)
Definition no_faults (file : string) : option nat := None.

(** Two tables hold the same rows for a station. *)
Definition same_station_rows (station_id : string)
    (w w' : gmap (string * date) weather_row) : Prop :=
  forall d, w !! (station_id, d) = w' !! (station_id, d).

(** No two .txt names of the list give the same station id. *)
Definition distinct_stations (names : list string) : Prop :=
  forall f g, f ∈ names -> g ∈ names ->
    endswith f ".txt" = true -> endswith g ".txt" = true ->
    splitext_root f = splitext_root g -> f = g.

(** The second read of S1.txt fails on this pass. *)
Definition fault_in_S1 (file : string) : option nat :=
  if String.eqb file "S1.txt" then Some 1%nat else None.

(** A watch directory with two station files. *)
Definition two_files : EtlRunner.state :=
  EtlRunner.mkstate ∅
    (<["S1.txt"%string := [good_line; next_day_line]]>
       (<["S2.txt"%string := [good_line]]> ∅))
    ∅.

(** *** Aggregation *)

(** The values of a column that are not null, in row order. *)
Definition non_null {A} (column : list (option A)) : list A := omap id column.

(** The sum of a list of doubles, from 0.0, in list order. *)
Definition total (values : list float) : float := foldl PrimFloat.add 0%float values.

(** The arithmetic mean; null for no value. *)
Definition mean (values : list float) : option float :=
  match values with
  | [] => None
  | _ => Some (total values / round_int (Z.of_nat (length values)))%float
  end.

(** The sum; null for no value. *)
Definition sum_or_null (values : list float) : option float :=
  match values with
  | [] => None
  | _ => Some (total values)
  end.

(** The summary the specification describes for the rows of one group. *)
Definition summary_of (group : list Models.WeatherFact) : Analyze.aggregate_row :=
  Analyze.mkagg
    (mean (non_null (Models.max_temp_c <$> group)))
    (mean (non_null (Models.min_temp_c <$> group)))
    (sum_or_null (non_null (Models.precip_mm <$> group)))
    (Z.of_nat (length group))
    (mean (Models.quality_score <$> group)).

(** The rows of a scan that fall in a group. *)
Definition rows_of_group {K} `{EqDecision K} (group_key : Models.WeatherFact -> K)
    (g : K) (rows : list Models.WeatherFact) : list Models.WeatherFact :=
  filter (fun f => group_key f = g) rows.

(** Two facts of station S1 in 2020, with max_temp_c 10.0 and 12.0. *)
Definition two_days : gmap (string * date * string) Models.WeatherFact :=
  Ingest.weather_facts
    (Ingest.ingest_weather_data tick_clock Models.sqlite "manual" "run-1"
       [("S1.txt"%string, [good_line; next_day_line])] empty_store).1.

(** Two rows of the answers' table for station S1 in 2020: max 10.0 with no
    min, and max 20.0 with min 5.0. *)
Definition half_null_table : gmap (string * date) weather_row :=
  <[("S1"%string, mkdate 2020 1 1) := mkrow (Some 100) None (Some 0)]>
    (<[("S1"%string, mkdate 2020 1 2) := mkrow (Some 200) (Some 50) (Some 0)]> ∅).

End Spec.

(* ===================================================================== *)
(** ** More vocabulary: the fact store and the thresholds on tenths *)
(* ===================================================================== *)

Module StoreSpec.

(** Every row sits at the key its own columns give. *)
Definition keyed (facts : gmap (string * date * string) Models.WeatherFact) : Prop :=
  forall k f, facts !! k = Some f -> Models.primary_key f = k.

(** Every row names a station of the [stations] table. *)
Definition stationed (db : Ingest.store) : Prop :=
  forall k f, Ingest.weather_facts db !! k = Some f ->
    is_Some (Ingest.stations db !! Models.station_id f).

(** Every row passes the three CHECK constraints. *)
Definition checked (facts : gmap (string * date * string) Models.WeatherFact) : Prop :=
  forall k f, facts !! k = Some f -> Models.check_constraints f = true.

(** The last fact of a run of writes that goes to a key. *)
Definition last_write (k : string * date * string) (writes : list Models.WeatherFact)
  : option Models.WeatherFact :=
  last (filter (fun f => Models.primary_key f = k) writes).

(** The outlier tests of src/ingest.py, on the raw tenths. *)
Definition max_flag (raw : option Z) : bool :=
  match raw with Some r => (500 <? r) || (r <? -500) | None => false end.
Definition min_flag (raw : option Z) : bool :=
  match raw with Some r => (400 <? r) || (r <? -600) | None => false end.
Definition precip_flag (raw : option Z) : bool :=
  match raw with Some r => 10000 <? r | None => false end.

(** The double of an integer of less than 63 bits, by the primitive
    conversion of 63-bit integers. *)
Definition small_int_float (z : Z) : float :=
  match z with
  | Z0 => 0%float
  | Zpos _ => PrimFloat.of_uint63 (Uint63.of_Z z)
  | Zneg p => PrimFloat.opp (PrimFloat.of_uint63 (Uint63.of_Z (Zpos p)))
  end.

(** The three tests on the double [r / 10.0] give what the tests on the
    tenths give. *)
Definition thresholds_exact (r : Z) : bool :=
  let x := Some (small_int_float r / 10)%float in
  Bool.eqb (Ingest.max_temp_outlier x) (max_flag (Some r))
  && Bool.eqb (Ingest.min_temp_outlier x) (min_flag (Some r))
  && Bool.eqb (Ingest.precip_outlier x) (precip_flag (Some r)).

(** A test holds at the [n] integers from [lo] on. *)
Fixpoint holds_from (test : Z -> bool) (lo : Z) (n : nat) : bool :=
  match n with
  | O => true
  | S k => test lo && holds_from test (lo + 1) k
  end.

(** The number of nulls among three raw readings. *)
Definition nulls (r1 r2 r3 : option Z) : Z :=
  (if r1 is None then 1 else 0) + (if r2 is None then 1 else 0)
  + (if r3 is None then 1 else 0).

(** A file in which the first day comes twice. *)
Definition twice_file : list string :=
  [ Spec.line_of ["20200101"; "100"; "50"; "0"];
    Spec.line_of ["20200102"; "110"; "50"; "0"];
    Spec.line_of ["20200101"; "120"; "60"; "5"] ].

End StoreSpec.

(* ===================================================================== *)
(** ** More vocabulary: dates and file names as they are written *)
(* ===================================================================== *)

Module NameSpec.

(** The character of a decimal digit. *)
Definition digit_char (n : Z) : ascii := ascii_of_N (Z.to_N (48 + n)).

Definition two_digits (n : Z) : string :=
  String (digit_char (n / 10)) (String (digit_char (n mod 10)) EmptyString).

Definition four_digits (n : Z) : string :=
  String (digit_char (n / 1000))
    (String (digit_char (n / 100 mod 10)) (two_digits (n mod 100))).

(** A date in the form YYYYMMDD, each part padded with zeros. *)
Definition Ymd (d : date) : string :=
  four_digits (year d) +:+ two_digits (month d) +:+ two_digits (day d).

(** A day of the calendar [datetime.date] can hold. *)
Definition calendar_day (d : date) : Prop :=
  1 <= year d <= 9999 /\ 1 <= month d <= 12
  /\ 1 <= day d <= days_in_month (year d) (month d).

(** The month and the day read back from their two digits each. *)
Definition reads_month_day (m d : Z) : bool :=
  match first_md (match_m (two_digits m +:+ two_digits d)) with
  | Some (m', d', EmptyString) => (m' =? m) && (d' =? d)
  | _ => false
  end.

(** No dot in the text. *)
Fixpoint dotless (s : string) : bool :=
  match s with
  | EmptyString => true
  | String c r => negb (Ascii.eqb c ".") && dotless r
  end.

End NameSpec.

(* ===================================================================== *)
(** ** More vocabulary: lines as the source format writes them *)
(* ===================================================================== *)

Module LineSpec.

(** A raw reading as a file gives it: the sentinel stands for "missing". *)
Definition reading (z : Z) : option Z := if z =? -9999 then None else Some z.

(** A line as the source format writes it: the date as YYYYMMDD and three
    integers in decimal, joined by tabs and ended by a line feed. *)
Definition written (d : date) (z1 z2 z3 : Z) : string :=
  Spec.line_of [NameSpec.Ymd d; pretty z1; pretty z2; pretty z3].

(** The decimal literal of the integer has 4300 digits at most. *)
Definition short (z : Z) : Prop := Z.abs z < 10 ^ 4300.

(** Every character of the text passes the test. *)
Fixpoint all_chars (test : ascii -> bool) (s : string) : bool :=
  match s with
  | EmptyString => true
  | String c r => test c && all_chars test r
  end.

(** A digit or a minus sign. *)
Definition numeric (c : ascii) : bool := isdigit c || Ascii.eqb c "-".

End LineSpec.

(* ===================================================================== *)
(** ** More vocabulary: rows that come from a line *)
(* ===================================================================== *)

Module RowSpec.

(** The columns of a row agree: the date is a day of the calendar, the
    clean values are the raw ones over 10.0 (over 100.0 for precip_cm), the
    missing count is the number of raw nulls, and the tier, the score and
    the note are the ones of the two counts. *)
Definition from_raw (f : Models.WeatherFact) : Prop :=
  NameSpec.calendar_day (Models.observation_date f)
  /\ Models.max_temp_c f = Spec.tenth <$> Models.raw_max_temp f
  /\ Models.min_temp_c f = Spec.tenth <$> Models.raw_min_temp f
  /\ Models.precip_mm f = Spec.tenth <$> Models.raw_precip f
  /\ Models.precip_cm f = (fun r => Spec.tenth r / 10)%float <$> Models.raw_precip f
  /\ Models.missing_values f
     = StoreSpec.nulls (Models.raw_max_temp f) (Models.raw_min_temp f)
                       (Models.raw_precip f)
  /\ 0 <= Models.outlier_count f <= 3 - Models.missing_values f
  /\ Models.quality_score f
     = Ingest.score_of (Models.missing_values f) (Models.outlier_count f)
                       (Ingest.inconsistent (Models.max_temp_c f) (Models.min_temp_c f))
  /\ Models.data_quality f = Ingest.quality_of_score (Models.quality_score f)
  /\ Models.quality_notes f
     = Ingest.notes_of (Models.missing_values f) (Models.outlier_count f).

(** Every row of the table has the property. *)
Definition every_row (P : Models.WeatherFact -> Prop)
    (facts : gmap (string * date * string) Models.WeatherFact) : Prop :=
  forall k f, facts !! k = Some f -> P f.

End RowSpec.

(* ===================================================================== *)
(** ** More vocabulary: summaries and roll-ups *)
(* ===================================================================== *)

Module SummarySpec.

(** The rows of a station-year of the answers' table in which none of the
    three readings is null, in scan order. *)
Definition complete_rows (g : string * Z) (weather : gmap (string * date) weather_row)
  : list weather_row :=
  (filter (fun kr => AggregateStats.selected kr.2 = true /\ (kr.1.1, year kr.1.2) = g)
          (map_to_list weather)).*2.

(** The exact sum of an integer column, nulls apart. *)
Definition column_sum (column : weather_row -> option Z) (rows : list weather_row) : Z :=
  foldr (fun r s => default 0 (column r) + s) 0 rows.

(** The rows of the answers' table in which none of the three readings
    is null, all station-years together. *)
Definition all_complete_rows (weather : gmap (string * date) weather_row)
  : list weather_row :=
  filter (fun r => AggregateStats.selected r = true) (map_to_list weather).*2.

(** The sum of the magnitudes of an integer column, nulls apart. *)
Definition column_weight (column : weather_row -> option Z) (rows : list weather_row) : Z :=
  foldr (fun r s => Z.abs (default 0 (column r)) + s) 0 rows.

(** Every sum SQLite can form over complete rows of the table, in whatever
    order it meets them, is an integer a double holds exactly: the
    magnitudes of each column add up to 2 ^ 53 at most. *)
Definition sums_exact (weather : gmap (string * date) weather_row) : Prop :=
  column_weight w_max_temp_c (all_complete_rows weather) <= 2 ^ 53
  /\ column_weight w_min_temp_c (all_complete_rows weather) <= 2 ^ 53
  /\ column_weight w_precipitation_mm (all_complete_rows weather) <= 2 ^ 53.

(** The summary of a group of complete rows: the mean of the tenths over
    10.0 for the two temperatures, the sum of the tenths over 100.0 for
    the precipitation. *)
Definition summary_of (rows : list weather_row) : AggregateStats.summary_row :=
  let n := round_int (Z.of_nat (length rows)) in
  AggregateStats.mksummary
    (Some (round_int (column_sum w_max_temp_c rows) / n / 10)%float)
    (Some (round_int (column_sum w_min_temp_c rows) / n / 10)%float)
    (Some (round_int (column_sum w_precipitation_mm rows) / 100)%float).

(** The record count of a group of src/analyze.py, 0 for no group. *)
Definition count_of (row : option Analyze.aggregate_row) : Z :=
  default 0 (Analyze.record_count <$> row).

(** Every row of the fact table has a month of the calendar. *)
Definition months_in_range (facts : gmap (string * date * string) Models.WeatherFact)
  : Prop :=
  forall k f, facts !! k = Some f -> 1 <= month (Models.observation_date f) <= 12.

End SummarySpec.

(* ===================================================================== *)
(** ** More vocabulary: stations and scores *)
(* ===================================================================== *)

Module StationSpec.

(** A station id the checks let through: not empty, 20 characters at most. *)
Definition valid_id (station_id : string) : bool :=
  negb (ModelsHelpers.empty station_id) && (String.length station_id <=? 20)%nat.

(** The coordinates and the state code of an entry pass the checks. *)
Definition metadata_ok (md : Stations.metadata) : bool :=
  (-90 <=? Stations.md_latitude md)%float && (Stations.md_latitude md <=? 90)%float
  && (-180 <=? Stations.md_longitude md)%float && (Stations.md_longitude md <=? 180)%float
  && negb (ModelsHelpers.empty (Stations.md_state md))
  && (String.length (Stations.md_state md) =? 2)%nat.

(** The station id some data file of the directory gives. *)
Definition station_of_file (wx_data_dir : list string) (station_id : string) : Prop :=
  exists file, file ∈ wx_data_dir /\ endswith file ".txt" = true
               /\ remove_all ".txt" file = station_id.

(** The record has all three readings. *)
Definition complete (record : ModelsHelpers.weather_record) : bool :=
  match ModelsHelpers.max_temp record, ModelsHelpers.min_temp record,
        ModelsHelpers.precipitation record with
  | Some _, Some _, Some _ => true
  | _, _, _ => false
  end.

(** The tests of [calculate_data_quality_score] that lower the score of a
    record with all three readings. *)
Definition flagged (record : ModelsHelpers.weather_record) : bool :=
  Ingest.inconsistent (ModelsHelpers.max_temp record) (ModelsHelpers.min_temp record)
  || match ModelsHelpers.max_temp record with
     | Some a => (60 <? a)%float || (a <? -60)%float
     | None => false
     end
  || match ModelsHelpers.min_temp record with
     | Some b => (50 <? b)%float || (b <? -70)%float
     | None => false
     end
  || match ModelsHelpers.precipitation record with
     | Some p => (p <? 0)%float
     | None => false
     end.

(** The outlier tests of the record, those of [calculate_data_quality_score]
    and those of src/ingest.py. *)
Definition any_outlier (record : ModelsHelpers.weather_record) : bool :=
  match ModelsHelpers.max_temp record with
  | Some a => (60 <? a)%float || (a <? -60)%float
  | None => false
  end
  || match ModelsHelpers.min_temp record with
     | Some b => (50 <? b)%float || (b <? -70)%float
     | None => false
     end
  || match ModelsHelpers.precipitation record with
     | Some p => (p <? 0)%float
     | None => false
     end
  || Ingest.max_temp_outlier (ModelsHelpers.max_temp record)
  || Ingest.min_temp_outlier (ModelsHelpers.min_temp record)
  || Ingest.precip_outlier (ModelsHelpers.precipitation record).

End StationSpec.

(* ===================================================================== *)
(** ** More vocabulary: groups, listings and pages *)
(* ===================================================================== *)

Module GroupSpec.

(** The rows the groups of an aggregation count, all groups together. *)
Definition rows_counted {K} `{Countable K} (groups : gmap K Analyze.aggregate_row) : Z :=
  map_fold (fun _ row total => Analyze.record_count row + total) 0 groups.

(** The rows the group states of a scan have counted. *)
Definition states_total {K} `{Countable K} (groups : gmap K Analyze.group_state) : Z :=
  map_fold (fun _ g total => Analyze.g_count g + total) 0 groups.

End GroupSpec.

Module AnswersSpec.

(** The data files of a listing: the names that end in .txt. *)
Definition data_files (files : list (string * list string)) : list (string * list string) :=
  filter (fun f => endswith f.1 ".txt" = true) files.

End AnswersSpec.

Module PageSpec.

(** OFFSET and LIMIT on arguments that are not negative: [l] rows after
    the first [o]. *)
Definition windows {A} (rows : list A) (fetch : Z -> Z -> list A) : Prop :=
  forall o l, 0 <= o -> 0 <= l -> fetch o l = take (Z.to_nat l) (drop (Z.to_nat o) rows).

(** The window of SQLite, which takes a negative limit for no limit and a
    negative offset for none. *)
Definition sqlite_fetch {A} (rows : list A) (o l : Z) : list A :=
  let rest := drop (Z.to_nat o) rows in
  if l <? 0 then rest else take (Z.to_nat l) rest.

(** The records of a page; none when the call raises. *)
Definition records_of {A} (r : App.outcome (list A * App.pagination)) : list A :=
  match r with
  | App.Response (records, _) => records
  | App.ZeroDivisionError => []
  end.

(** The records of the pages from [first] on, [n] pages, in order. *)
Fixpoint pages_from {A} (rows : list A) (fetch : Z -> Z -> list A) (per_page : Z)
    (first : Z) (n : nat) : list A :=
  match n with
  | O => []
  | S k =>
      records_of (App.get_paginated_response rows fetch first per_page)
      ++ pages_from rows fetch per_page (first + 1) k
  end.

End PageSpec.

(* ===================================================================== *)
(** ** More vocabulary: writes out of range and lines that cannot be stored *)
(* ===================================================================== *)

Module FallbackSpec.

(** The writes that pass the CHECK constraints, in order. *)
Definition in_range (writes : list Models.WeatherFact) : list Models.WeatherFact :=
  filter (fun f => Models.check_constraints f = true) writes.

(** The key of every write that breaks a CHECK constraint is free: no row
    of the table has it, and no write that passes the constraints. *)
Definition free_keys (writes : list Models.WeatherFact)
    (facts : gmap (string * date * string) Models.WeatherFact) : Prop :=
  forall f, f ∈ writes -> Models.check_constraints f = false ->
    facts !! Models.primary_key f = None
    /\ forall g, g ∈ writes -> Models.check_constraints g = true ->
         Models.primary_key g <> Models.primary_key f.

(** Every write can be bound: its raw readings fit 64 bits. *)
Definition bound (writes : list Models.WeatherFact) : Prop :=
  Forall (fun f => Models.raw_within (- 2 ^ 63) (2 ^ 63 - 1) f = true) writes.

(** A line the plain decoder reads and SQLite can store: it is skipped, or
    its three integers fit 64 bits. *)
Definition storable (decoder : string -> result (option raw_record)) (line : string)
  : bool :=
  match decoder line with
  | Return None => true
  | Return (Some data) =>
      binds_integer (rec_max_temp data) && binds_integer (rec_min_temp data)
      && binds_integer (rec_precip data)
  | Raise _ => false
  end.

(** A file of the watch directory with a reading of 2 ^ 63 tenths. *)
Definition wide_line : string :=
  Spec.line_of ["20200101"; "9223372036854775808"; "50"; "0"].

End FallbackSpec.

(* ===================================================================== *)
(** * Properties *)
(* ===================================================================== *)

(** ** The record decoder *)

Module DecoderProofs.

Import Ingest.

Lemma raw_value_reads s v : Spec.field_value s v -> raw_value s = Return v.
Proof.
  intros [|s' r Hne Hint]; [reflexivity|].
  unfold raw_value.
  destruct (String.eqb_spec s' "-9999") as [->|_]; [done|].
  by rewrite Hint.
Qed.

Lemma raw_field_reads s v : Spec.field_value s v -> raw_field s = Return v.
Proof. apply raw_value_reads. Qed.

Lemma clean_value_tenth r :
  Spec.has_double r = true -> clean_value r = Return (Spec.tenth <$> r).
Proof.
  destruct r as [z|]; [|reflexivity].
  unfold Spec.has_double, clean_value, int_truediv, float_of_int. simpl.
  intros Hfin. apply negb_true_iff in Hfin. by rewrite Hfin.
Qed.

Lemma clean_value_overflow z :
  PrimFloat.is_infinity (round_int z) = true -> clean_value (Some z) = Raise OverflowError.
Proof.
  intros Hinf. unfold clean_value, int_truediv, float_of_int. simpl. by rewrite Hinf.
Qed.

(** [try_except] with a handler that returns never raises. *)
Lemma try_except_returns {A} (m : result A) (d : A) :
  exists r, try_except m (fun _ => Return d) = Return r.
Proof. destruct m; simpl; eauto. Qed.

Lemma parse_weather_line_never_raises line :
  exists r, parse_weather_line line = Return r.
Proof. apply try_except_returns. Qed.

Lemma etl_parse_line_never_raises line :
  exists r, EtlRunner.parse_line line = Return r.
Proof.
  unfold EtlRunner.parse_line.
  destruct (split TAB (strip line)) as [|? [|? [|? [|? [|? ?]]]]]; simpl; eauto.
  apply try_except_returns.
Qed.

(** A line that does not split into four fields is skipped by every decoder. *)
Lemma field_count_skips line :
  length (split TAB (strip line)) <> 4%nat ->
  parse_weather_line line = Return None
  /\ EtlRunner.parse_line line = Return None
  /\ IngestWeather.parse_line line = Return None.
Proof.
  intros Hlen.
  unfold parse_weather_line, parse_weather_line_body, EtlRunner.parse_line,
    IngestWeather.parse_line.
  destruct (split TAB (strip line)) as [|? [|? [|? [|? [|? ?]]]]]; simpl in *; done.
Qed.

(** Four fields of which the date or a number does not convert: the two
    guarded decoders skip the line. *)
Lemma conversion_failure_skips line ds s1 s2 s3 e :
  split TAB (strip line) = [ds; s1; s2; s3] ->
  raw_record_of ds s1 s2 s3 = Raise e ->
  parse_weather_line line = Return None /\ EtlRunner.parse_line line = Return None.
Proof.
  intros Hsplit Hraise.
  unfold parse_weather_line, parse_weather_line_body, EtlRunner.parse_line.
  rewrite Hsplit. rewrite Hraise. split; [|done].
  unfold raw_record_of, raw_field in Hraise. unfold raw_value.
  destruct (strptime_Ymd ds); [|done]. simpl in *.
  destruct (if String.eqb s1 "-9999" then _ else _); [|done]. simpl in *.
  destruct (if String.eqb s2 "-9999" then _ else _); [|done]. simpl in *.
  destruct (if String.eqb s3 "-9999" then _ else _); [|done]. simpl in *.
  done.
Qed.

(** C9 at the unguarded decoder: answers/ingest_weather.py's [parse_line]
    skips a line with three fields, but raises ValueError on a field that is
    no number and on a date that does not parse. *)
Theorem ingest_weather_parse_line_raises :
  IngestWeather.parse_line Spec.short_line = Return None
  /\ IngestWeather.parse_line Spec.text_line = Raise ValueError
  /\ IngestWeather.parse_line Spec.dashed_date_line = Raise ValueError.
Proof. by vm_compute. Qed.

(** X1: The guarded decoders, src/ingest.py's [parse_weather_line] and
    answers/etl_runner.py's [parse_line], return on every line, and return
    None on a line that has not four fields or whose date or numbers do not
    convert. *)
Theorem guarded_decoders_never_raise :
  (forall line, exists r, parse_weather_line line = Return r)
  /\ (forall line, exists r, EtlRunner.parse_line line = Return r)
  /\ (forall line,
        length (split TAB (strip line)) <> 4%nat ->
        parse_weather_line line = Return None
        /\ EtlRunner.parse_line line = Return None)
  /\ (forall line ds s1 s2 s3 e,
        split TAB (strip line) = [ds; s1; s2; s3] ->
        raw_record_of ds s1 s2 s3 = Raise e ->
        parse_weather_line line = Return None
        /\ EtlRunner.parse_line line = Return None).
Proof.
  split; [apply parse_weather_line_never_raises|].
  split; [apply etl_parse_line_never_raises|].
  split; [|apply conversion_failure_skips].
  intros line Hlen. destruct (field_count_skips line Hlen) as (H1 & H2 & _). done.
Qed.

(** The two guarded decoders on the same lines. *)
Lemma guarded_decoders_skip_examples :
  parse_weather_line Spec.text_line = Return None
  /\ parse_weather_line Spec.dashed_date_line = Return None
  /\ EtlRunner.parse_line Spec.text_line = Return None
  /\ EtlRunner.parse_line Spec.dashed_date_line = Return None.
Proof. by vm_compute. Qed.

End DecoderProofs.

(** ** The quality scorer *)

Module ScorerProofs.

Import Ingest.

Lemma counts_reachable (max_c min_c precip : option float) :
  Spec.reachable (count_none [max_c; min_c; precip])
                 (count_outliers max_c min_c precip)
                 (inconsistent max_c min_c).
Proof.
  unfold Spec.reachable, count_outliers.
  destruct max_c as [a|], min_c as [b|], precip as [c|]; simpl;
    repeat match goal with
           | |- context [if ?t then _ else _] => destruct t
           end; repeat split; (lia || done).
Qed.

Lemma observation_reachable (p : observation) :
  Spec.reachable (missing_of p) (outliers_of p)
                 (inconsistent (max_temp_c p) (min_temp_c p)).
Proof. apply counts_reachable. Qed.

(** Case analysis over the reachable counts. *)
Ltac reachable_cases m o f H :=
  destruct H as (? & ? & ? & ?);
  assert (m = 0 \/ m = 1 \/ m = 2 \/ m = 3) as [->|[->|[->| ->]]] by lia;
  assert (o = 0 \/ o = 1 \/ o = 2 \/ o = 3) as [->|[->|[->| ->]]] by lia;
  destruct f; try lia;
  try match goal with
      | Hf : true = true -> _ |- _ => specialize (Hf eq_refl); try lia
      end.

Lemma reachable_score_formula m o f :
  Spec.reachable m o f -> score_of m o f = Spec.score_formula m o f.
Proof. intros Hr. reachable_cases m o f Hr; by vm_compute. Qed.

Lemma reachable_tier_exact m o f :
  Spec.reachable m o f ->
  quality_of_score (score_of m o f) = Spec.tier_of_tenths (Spec.score_tenths m o f).
Proof. intros Hr. reachable_cases m o f Hr; by vm_compute. Qed.

Lemma reachable_clamps_idle m o f :
  Spec.reachable m o f ->
  max0 (raw_score m o) = raw_score m o
  /\ (f = true -> max0 (raw_score m o - 0.3)%float = (raw_score m o - 0.3)%float)
  /\ Spec.fle 0.3 (score_of m o f)
  /\ Spec.flt 0 (score_of m o f).
Proof.
  intros Hr. unfold Spec.fle, Spec.flt.
  reachable_cases m o f Hr; by vm_compute.
Qed.

Lemma quality_of_score_has_tier q : Spec.has_tier q (quality_of_score q).
Proof.
  unfold quality_of_score.
  destruct (0.9 <=? q)%float eqn:H9; [by constructor|].
  destruct (0.7 <=? q)%float eqn:H7;
    [constructor; unfold Spec.fle; congruence|].
  destruct (0.5 <=? q)%float eqn:H5;
    constructor; unfold Spec.fle; congruence.
Qed.

(** The counts and the flag of the code are those of the specification. *)
Lemma missing_of_counts_nulls p :
  missing_of p = Spec.missing_count (max_temp_c p) (min_temp_c p) (precip_mm p).
Proof. unfold missing_of. by destruct (max_temp_c p), (min_temp_c p), (precip_mm p). Qed.

Lemma outliers_of_counts_checks p :
  outliers_of p = Spec.outlier_count (max_temp_c p) (min_temp_c p) (precip_mm p).
Proof.
  unfold outliers_of, count_outliers, Spec.outlier_count.
  destruct (max_temp_c p) as [a|], (min_temp_c p) as [b|], (precip_mm p) as [c|]; simpl;
    repeat match goal with
           | |- context [(?x <? ?y)%float] => destruct (x <? y)%float
           end; reflexivity.
Qed.

Lemma inconsistent_max_below_min max_c min_c :
  inconsistent max_c min_c = Spec.max_below_min max_c min_c.
Proof. by destruct max_c, min_c. Qed.

(** C3: with m the number of null clean values, o the number of outlier
    checks that hold (max > 50 or < -50, min > 40 or < -60, precip > 1000)
    and the flag "max and min are both present and max < min", the counts
    and the flag the code computes are these, the score of an observation
    is the specification's expression 1.0 - 0.2 m - 0.1 o - (0.3 when
    flagged), clamped, and its tier is the one the inclusive bounds 0.9,
    0.7, 0.5 give, on the double as on the exact tenths; the row of the
    fact table holds these counts, this score and this tier; max 5.0 with
    min 10.0 scores 0.7, "good", and max 10.0, min 2.0 with no
    precipitation scores 0.8, "good". *)
Theorem quality_score_formula_and_tier :
  (forall p : observation,
      let m := Spec.missing_count (max_temp_c p) (min_temp_c p) (precip_mm p) in
      let o := Spec.outlier_count (max_temp_c p) (min_temp_c p) (precip_mm p) in
      let f := Spec.max_below_min (max_temp_c p) (min_temp_c p) in
      missing_of p = m
      /\ outliers_of p = o
      /\ inconsistent (max_temp_c p) (min_temp_c p) = f
      /\ quality_score_of p = Spec.score_formula m o f
      /\ Spec.has_tier (quality_score_of p) (quality_of_score (quality_score_of p))
      /\ quality_of_score (quality_score_of p)
         = Spec.tier_of_tenths (Spec.score_tenths m o f))
  /\ (forall station source run_id now (p : observation),
        let m := Spec.missing_count (max_temp_c p) (min_temp_c p) (precip_mm p) in
        let o := Spec.outlier_count (max_temp_c p) (min_temp_c p) (precip_mm p) in
        let f := Spec.max_below_min (max_temp_c p) (min_temp_c p) in
        let fact := fact_data station source run_id now p in
        Models.missing_values fact = m
        /\ Models.outlier_count fact = o
        /\ Models.quality_score fact = Spec.score_formula m o f
        /\ Models.data_quality fact
           = Spec.tier_of_tenths (Spec.score_tenths m o f)
        /\ Spec.has_tier (Models.quality_score fact) (Models.data_quality fact))
  /\ (quality_score_of (Spec.observed (Some 5%float) (Some 10%float) (Some 0%float))
      = 0.7%float
      /\ quality_of_score 0.7 = Models.good)
  /\ (quality_score_of (Spec.observed (Some 10%float) (Some 2%float) None)
      = 0.8%float
      /\ quality_of_score 0.8 = Models.good).
Proof.
  assert (forall p : observation,
      let m := Spec.missing_count (max_temp_c p) (min_temp_c p) (precip_mm p) in
      let o := Spec.outlier_count (max_temp_c p) (min_temp_c p) (precip_mm p) in
      let f := Spec.max_below_min (max_temp_c p) (min_temp_c p) in
      missing_of p = m
      /\ outliers_of p = o
      /\ inconsistent (max_temp_c p) (min_temp_c p) = f
      /\ quality_score_of p = Spec.score_formula m o f
      /\ Spec.has_tier (quality_score_of p) (quality_of_score (quality_score_of p))
      /\ quality_of_score (quality_score_of p)
         = Spec.tier_of_tenths (Spec.score_tenths m o f)) as Hscore.
  { intros p m o f. pose proof (observation_reachable p) as Hr.
    subst m o f.
    split; [apply missing_of_counts_nulls|].
    split; [apply outliers_of_counts_checks|].
    split; [apply inconsistent_max_below_min|].
    destruct (missing_of_counts_nulls p), (outliers_of_counts_checks p),
      (inconsistent_max_below_min (max_temp_c p) (min_temp_c p)).
    split; [by apply reachable_score_formula|].
    split; [apply quality_of_score_has_tier|by apply reachable_tier_exact]. }
  split; [exact Hscore|]. split; [|by vm_compute].
  intros station source run_id now p m o f fact.
  destruct (Hscore p) as (Hm & Ho & _ & Hs & Ht & Hx).
  by repeat split.
Qed.

(** C8: the score of every observation lies in [0, 1], and with the other
    inputs fixed a larger missing count, or a larger outlier count, never
    gives a larger score. *)
Theorem quality_score_bounded_and_monotone :
  (forall p : observation,
      Spec.fle 0 (quality_score_of p) /\ Spec.fle (quality_score_of p) 1)
  /\ (forall m m' o f,
        0 <= m <= m' -> m' <= 3 -> 0 <= o <= 3 ->
        Spec.fle (score_of m' o f) (score_of m o f))
  /\ (forall m o o' f,
        0 <= m <= 3 -> 0 <= o <= o' -> o' <= 3 ->
        Spec.fle (score_of m o' f) (score_of m o f)).
Proof.
  unfold Spec.fle. split; [|split].
  - intros p. unfold quality_score_of.
    pose proof (observation_reachable p) as Hr.
    generalize dependent (inconsistent (max_temp_c p) (min_temp_c p)).
    generalize dependent (outliers_of p). generalize dependent (missing_of p).
    intros m o f Hr. reachable_cases m o f Hr; by vm_compute.
  - intros m m' o f Hm Hm' Ho.
    assert (m = 0 \/ m = 1 \/ m = 2 \/ m = 3) as [->|[->|[->| ->]]] by lia;
    assert (m' = 0 \/ m' = 1 \/ m' = 2 \/ m' = 3) as [->|[->|[->| ->]]] by lia;
    assert (o = 0 \/ o = 1 \/ o = 2 \/ o = 3) as [->|[->|[->| ->]]] by lia;
    try lia; destruct f; by vm_compute.
  - intros m o o' f Hm Ho Ho'.
    assert (m = 0 \/ m = 1 \/ m = 2 \/ m = 3) as [->|[->|[->| ->]]] by lia;
    assert (o = 0 \/ o = 1 \/ o = 2 \/ o = 3) as [->|[->|[->| ->]]] by lia;
    assert (o' = 0 \/ o' = 1 \/ o' = 2 \/ o' = 3) as [->|[->|[->| ->]]] by lia;
    try lia; destruct f; by vm_compute.
Qed.

(** [quality_score_bounded_and_monotone] at one and two missing values with
    one outlier. *)
Lemma quality_score_monotone_example :
  Spec.fle (score_of 2 1 false) (score_of 1 1 false).
Proof.
  apply (proj1 (proj2 quality_score_bounded_and_monotone) 1 2 1 false); lia.
Defined.

(** C10: the score of every observation is at least 0.3; neither
    [max(0.0, ...)] changes its argument, and the score is never 0. *)
Theorem quality_score_at_least_three_tenths :
  forall p : observation,
    let m := missing_of p in
    let o := outliers_of p in
    let f := inconsistent (max_temp_c p) (min_temp_c p) in
    Spec.fle 0.3 (quality_score_of p)
    /\ max0 (raw_score m o) = raw_score m o
    /\ (f = true -> max0 (raw_score m o - 0.3)%float = (raw_score m o - 0.3)%float)
    /\ Spec.flt 0 (quality_score_of p).
Proof.
  intros p m o f. pose proof (observation_reachable p) as Hr.
  destruct (reachable_clamps_idle _ _ _ Hr) as (H1 & H2 & H3 & H4).
  by repeat split.
Qed.

End ScorerProofs.

(** ** The fact store *)

Module StoreProofs.

Import Ingest.

Lemma check_constraints_fact_data station source run_id now p :
  Models.check_constraints (fact_data station source run_id now p)
  = Models.between_or_null (-9999) 6000 (raw_max_temp p)
    && Models.between_or_null (-9999) 6000 (raw_min_temp p)
    && Models.between_or_null 0 10000 (raw_precip p).
Proof. reflexivity. Qed.

(** A reading inside a CHECK range is inside every wider range. *)
Lemma between_or_null_wider lo hi lo' hi' v :
  lo' <= lo -> hi <= hi' ->
  Models.between_or_null lo hi v = true -> Models.between_or_null lo' hi' v = true.
Proof.
  intros Hlo Hhi. destruct v as [x|]; simpl; [|done].
  rewrite !andb_true_iff, !Z.leb_le. lia.
Qed.

(** A fact that passes the CHECK constraints can be bound and held, on
    every branch. *)
Lemma checked_is_stored d f :
  Models.check_constraints f = true -> Models.storage_error d f = None.
Proof.
  unfold Models.check_constraints. rewrite !andb_true_iff. intros [[H1 H2] H3].
  assert (forall lo hi, lo <= -9999 -> 10000 <= hi -> Models.raw_within lo hi f = true)
    as Hin.
  { intros lo hi Hlo Hhi. unfold Models.raw_within.
    apply (between_or_null_wider _ _ lo hi) in H1; [|lia..].
    apply (between_or_null_wider _ _ lo hi) in H2; [|lia..].
    apply (between_or_null_wider _ _ lo hi) in H3; [|lia..].
    by rewrite H1, H2, H3. }
  destruct d; unfold Models.storage_error; by rewrite Hin.
Qed.

(** What an upsert does with a fact that passes the CHECK constraints is
    what ON CONFLICT DO UPDATE does, on every branch. *)
Lemma upsert_checked d fact facts :
  Models.check_constraints fact = true ->
  upsert_weather_fact d fact facts = (<[Models.primary_key fact := fact]> facts, Return tt).
Proof.
  intros Hck.
  destruct d; simpl; unfold on_conflict_do_update, add_or_update;
    rewrite (checked_is_stored _ _ Hck), Hck; try done.
  by destruct (facts !! Models.primary_key fact).
Qed.

(** A refused write leaves the table as it was, on every branch. *)
Lemma refused_write_changes_nothing d fact facts :
  Models.check_constraints fact = false ->
  (upsert_weather_fact d fact facts).1 = facts.
Proof.
  intros Hck. destruct d; simpl; unfold on_conflict_do_update, add_or_update;
    destruct (Models.storage_error _ fact); rewrite ?Hck; try done.
  by destruct (facts !! Models.primary_key fact).
Qed.

(** An admitted write on a taken key, on every branch. *)
Lemma upsert_on_conflict d fact facts old :
  facts !! Models.primary_key fact = Some old ->
  Models.check_constraints fact = true ->
  upsert_weather_fact d fact facts = (<[Models.primary_key fact := fact]> facts, Return tt).
Proof. intros _. apply upsert_checked. Qed.

(** On the two ON CONFLICT branches a write that breaks a CHECK constraint
    raises, and the table stays. *)
Lemma on_conflict_refuses d fact facts :
  d <> Models.other_dialect ->
  Models.check_constraints fact = false ->
  upsert_weather_fact d fact facts
  = (facts, Raise (default IntegrityError (Models.storage_error d fact))).
Proof.
  intros Hd Hck.
  destruct d; try done; unfold upsert_weather_fact, on_conflict_do_update;
    destruct (Models.storage_error _ fact); by rewrite ?Hck.
Qed.

Lemma rejection_fact_data d station source run_id now p :
  default IntegrityError
    (Models.storage_error d (fact_data station source run_id now p))
  = Spec.rejection d p.
Proof.
  unfold Models.storage_error, Spec.rejection, Models.raw_within, Spec.readings_within.
  simpl. destruct d;
    by match goal with |- context [if ?c then _ else _] => destruct c end.
Qed.

(** C1, as amended: through [upsert_weather_fact], on each of its three
    branches, a fact that passes the CHECK constraints and whose key is
    taken replaces the whole row (the other rows stay); through the
    answers' INSERT OR IGNORE the existing row stays as it is. *)
Theorem upsert_overwrites_insert_ignores :
  (forall d fact facts old,
      facts !! Models.primary_key fact = Some old ->
      Models.check_constraints fact = true ->
      exists facts',
        upsert_weather_fact d fact facts = (facts', Return tt)
        /\ facts' !! Models.primary_key fact = Some fact
        /\ forall k, k <> Models.primary_key fact -> facts' !! k = facts !! k)
  /\ (forall station_id data weather old,
        weather !! (station_id, rec_date data) = Some old ->
        binds_integer (rec_max_temp data) && binds_integer (rec_min_temp data)
        && binds_integer (rec_precip data) = true ->
        INSERT_SQL station_id data weather = (weather, Return tt)).
Proof.
  split.
  - intros d fact facts old Hold Hck. eexists. split; [by eapply upsert_on_conflict|].
    split; [apply lookup_insert_eq|]. intros k Hk. by apply lookup_insert_ne.
  - intros station_id data weather old Hold Hbind. unfold INSERT_SQL.
    by rewrite Hbind, Hold.
Qed.

(** [upsert_overwrites_insert_ignores] at two facts of one station and day,
    on the sqlite branch. *)
Lemma upsert_overwrites_example :
  exists facts',
    upsert_weather_fact Models.sqlite Spec.second_fact
      {[Models.primary_key Spec.first_fact := Spec.first_fact]}
    = (facts', Return tt)
    /\ facts' !! Models.primary_key Spec.second_fact = Some Spec.second_fact
    /\ forall k, k <> Models.primary_key Spec.second_fact ->
         facts' !! k
         = ({[Models.primary_key Spec.first_fact := Spec.first_fact]}
              : gmap (string * date * string) Models.WeatherFact) !! k.
Proof.
  apply (proj1 upsert_overwrites_insert_ignores Models.sqlite Spec.second_fact
               _ Spec.first_fact); [apply lookup_singleton_eq | reflexivity].
Defined.

(** C1, as stated, fails on the answers' path: the row keeps its old
    values, none of the incoming ones. *)
Lemma insert_or_ignore_keeps_old_row :
  (INSERT_SQL "S1" Spec.later_reading
     {[("S1"%string, Spec.new_year_2020) := Spec.stored_row]}).1
    !! ("S1"%string, Spec.new_year_2020)
  = Some (mkrow (Some 100) (Some 50) (Some 0))
  /\ rec_max_temp Spec.later_reading = Some 120.
Proof.
  split; [|done]. unfold INSERT_SQL. simpl.
  by rewrite !lookup_singleton_eq.
Qed.

Section Runs.

Variable utcnow : nat -> Z.
Variable d : Models.dialect.
Variables source run_id : string.

Lemma ingest_lines_app station l1 l2 db n :
  ingest_lines utcnow d source run_id station (l1 ++ l2) db n
  = match ingest_lines utcnow d source run_id station l1 db n with
    | (db', Return n') => ingest_lines utcnow d source run_id station l2 db' n'
    | (db', Raise e) => (db', Raise e)
    end.
Proof.
  revert db n. induction l1 as [|line l1 IH]; intros db n; simpl; [done|].
  destruct (strip line); [apply IH|].
  destruct (parse_weather_line line) as [[p|]|e]; [|apply IH|done].
  destruct (upsert_weather_fact _ _ _) as [facts [[]|e]]; [apply IH|done].
Qed.

(** A line that decodes is not blank. *)
Lemma decoded_line_not_blank line p :
  parse_weather_line line = Return (Some p) -> strip line <> EmptyString.
Proof. intros Hp Hblank. unfold parse_weather_line, parse_weather_line_body in Hp.
  by rewrite Hblank in Hp. Qed.

(** The turn of a line that decodes to an out-of-range observation, on the
    two ON CONFLICT branches. *)
Lemma ingest_out_of_range_line station line rest db n p :
  d <> Models.other_dialect ->
  parse_weather_line line = Return (Some p) ->
  Spec.out_of_range p ->
  ingest_lines utcnow d source run_id station (line :: rest) db n
  = (read_clock db, Raise (Spec.rejection d p)).
Proof.
  intros Hd Hp Hout. simpl.
  destruct (strip line) eqn:Hs; [by apply decoded_line_not_blank in Hp|].
  rewrite Hp.
  rewrite on_conflict_refuses by (done || by rewrite check_constraints_fact_data).
  rewrite rejection_fact_data. by destruct db.
Qed.

End Runs.

(** *** Re-ingestion *)

Lemma without_time_fact_data station source run_id now p :
  Spec.without_time (fact_data station source run_id now p)
  = fact_data station source run_id 0 p.
Proof. reflexivity. Qed.

Lemma primary_key_without_time f :
  Models.primary_key (Spec.without_time f) = Models.primary_key f.
Proof. reflexivity. Qed.

Lemma check_constraints_without_time f :
  Models.check_constraints (Spec.without_time f) = Models.check_constraints f.
Proof. reflexivity. Qed.

(** An upsert seen through [without_time]. *)
Lemma upsert_without_time d f facts :
  let r := upsert_weather_fact d f facts in
  upsert_weather_fact d (Spec.without_time f) (Spec.without_time <$> facts)
  = (Spec.without_time <$> r.1, r.2).
Proof.
  assert (Models.storage_error d (Spec.without_time f) = Models.storage_error d f)
    as Hst by by destruct d.
  destruct d; simpl; unfold on_conflict_do_update, add_or_update;
    rewrite Hst; clear Hst;
    destruct (Models.storage_error _ f); simpl; try done;
    rewrite ?lookup_fmap, check_constraints_without_time, primary_key_without_time;
    try destruct (facts !! Models.primary_key f); simpl;
    destruct (Models.check_constraints f); simpl; by rewrite ?fmap_insert.
Qed.

Section Flatten.

Variable utcnow : nat -> Z.
Variable d : Models.dialect.
Variables source run_id : string.

(** The rows a file leaves, time stamps apart, are those of its facts
    written in order; the clock plays no part. *)
Lemma ingest_lines_writes station lines db n :
  let r := ingest_lines utcnow d source run_id station lines db n in
  (Spec.rows_without_time r.1, r.2)
  = Spec.apply_writes d (Spec.decoded_facts station source run_id lines)
                      (Spec.rows_without_time db) n.
Proof.
  revert db n. induction lines as [|line rest IH]; intros db n; [done|].
  simpl. destruct (strip line) eqn:Hs; [apply IH|].
  destruct (DecoderProofs.parse_weather_line_never_raises line) as [[p|] ->];
    [|apply IH].
  simpl. unfold Spec.rows_without_time at 2.
  rewrite <- without_time_fact_data with (now := utcnow (clock_reads db)).
  rewrite upsert_without_time.
  destruct (upsert_weather_fact d _ (weather_facts db)) as [facts [[]|e]]; simpl.
  - apply IH.
  - done.
Qed.

Lemma rows_ensure_station station db :
  Spec.rows_without_time (ensure_station station db) = Spec.rows_without_time db.
Proof. unfold ensure_station. by destruct (stations db !! station). Qed.

Lemma apply_writes_app ws1 ws2 facts n :
  Spec.apply_writes d (ws1 ++ ws2) facts n
  = match Spec.apply_writes d ws1 facts n with
    | (facts', Return n') => Spec.apply_writes d ws2 facts' n'
    | (facts', Raise e) => (facts', Raise e)
    end.
Proof.
  revert facts n. induction ws1 as [|f ws1 IH]; intros facts n; simpl; [done|].
  destruct (upsert_weather_fact d f facts) as [facts' [[]|e]]; [apply IH|done].
Qed.

Lemma ingest_files_writes files db n :
  let r := ingest_files utcnow d source run_id files db n in
  (Spec.rows_without_time r.1, r.2)
  = Spec.apply_writes d (Spec.directory_facts source run_id files)
                      (Spec.rows_without_time db) n.
Proof.
  revert db n. induction files as [|[filename lines] rest IH]; intros db n; [done|].
  simpl. destruct (endswith filename ".txt"); [|apply IH].
  rewrite apply_writes_app.
  rewrite <- (rows_ensure_station (remove_all ".txt" filename) db).
  rewrite <- ingest_lines_writes.
  destruct (ingest_lines _ _ _ _ _ lines _ n) as [db' [n'|e]]; simpl; [apply IH|done].
Qed.

End Flatten.

(** Writing a list of rows twice leaves what writing it once leaves. *)
Lemma put_absorbs ws facts f x :
  Models.primary_key x = Models.primary_key f ->
  Spec.put (foldl Spec.put (Spec.put facts x) ws) f
  = Spec.put (foldl Spec.put facts ws) f.
Proof.
  intros Hk. revert facts. induction ws as [|w ws IH]; intros facts; simpl.
  - unfold Spec.put. rewrite Hk. apply insert_insert_eq.
  - destruct (decide (Models.primary_key w = Models.primary_key f)) as [Heq|Hne].
    + replace (Spec.put (Spec.put facts x) w) with (Spec.put facts w); [done|].
      unfold Spec.put. by rewrite Hk, Heq, insert_insert_eq.
    + replace (Spec.put (Spec.put facts x) w) with (Spec.put (Spec.put facts w) x);
        [apply IH|].
      unfold Spec.put. rewrite Hk. by apply insert_insert_ne.
Qed.

Lemma put_all_twice ws facts :
  foldl Spec.put (foldl Spec.put facts ws) ws = foldl Spec.put facts ws.
Proof.
  revert facts. induction ws as [|f ws IH] using rev_ind; intros facts; [done|].
  rewrite !foldl_app. simpl.
  rewrite put_absorbs by done. by rewrite IH.
Qed.

(** A run of plain upserts writes the admitted prefix of its facts and
    raises when a fact is left. *)
Lemma plain_writes d ws facts n :
  Spec.plain_upserts d ws ->
  Spec.apply_writes d ws facts n
  = (foldl Spec.put facts (Spec.admitted_prefix ws),
     if (length (Spec.admitted_prefix ws) =? length ws)%nat
     then Return (n + Z.of_nat (length ws)) else Raise (Spec.first_refusal d ws)).
Proof.
  intros Hd. revert facts n. induction ws as [|f ws IH]; intros facts n; simpl.
  - f_equal. f_equal. lia.
  - assert (Spec.plain_upserts d ws) as Hd'.
    { destruct Hd as [Hd|Hall]; [by left|right]. by apply Forall_cons in Hall as [_ ?]. }
    destruct (Models.check_constraints f) eqn:Hck; simpl.
    + rewrite upsert_checked by done. rewrite (IH Hd'). f_equal.
      destruct (length (Spec.admitted_prefix ws) =? length ws)%nat; [|done].
      f_equal. lia.
    + destruct Hd as [Hd|Hall].
      * by rewrite on_conflict_refuses.
      * apply Forall_cons in Hall as [Hf _]. congruence.
Qed.

(** C2, as amended: on the sqlite and postgresql branches, and on the
    fallback branch when no decoded line breaks a CHECK constraint,
    ingesting a directory a second time (same source and run id) leaves
    every row as the first pass left it in every column but [ingested_at],
    and ends as the first pass ended. *)
Theorem reingest_same_rows_but_time :
  forall utcnow d source run_id files db,
    Spec.plain_upserts d (Spec.directory_facts source run_id files) ->
    let once := ingest_weather_data utcnow d source run_id files db in
    let twice := ingest_weather_data utcnow d source run_id files once.1 in
    Spec.rows_without_time twice.1 = Spec.rows_without_time once.1
    /\ twice.2 = once.2.
Proof.
  intros utcnow d source run_id files db Hd once twice.
  pose proof (ingest_files_writes utcnow d source run_id files db 0) as H1.
  pose proof (ingest_files_writes utcnow d source run_id files once.1 0) as H2.
  fold (ingest_weather_data utcnow d source run_id files db) in H1.
  fold (ingest_weather_data utcnow d source run_id files once.1) in H2.
  fold once in H1. fold twice in H2. simpl in H1, H2.
  rewrite plain_writes in H1, H2 by done.
  injection H1 as Hrows1 Hres1. injection H2 as Hrows2 Hres2.
  split; [|congruence].
  by rewrite Hrows2, Hrows1, put_all_twice.
Qed.

(** [reingest_same_rows_but_time] at a file of two days, on sqlite. *)
Lemma reingest_example :
  Spec.rows_without_time
    (ingest_weather_data Spec.tick_clock Models.sqlite "manual" "run-1"
       [("S1.txt"%string, [Spec.good_line; Spec.next_day_line])]
       (ingest_weather_data Spec.tick_clock Models.sqlite "manual" "run-1"
          [("S1.txt"%string, [Spec.good_line; Spec.next_day_line])]
          Spec.empty_store).1).1
  = Spec.rows_without_time
      (ingest_weather_data Spec.tick_clock Models.sqlite "manual" "run-1"
         [("S1.txt"%string, [Spec.good_line; Spec.next_day_line])]
         Spec.empty_store).1
  /\ (ingest_weather_data Spec.tick_clock Models.sqlite "manual" "run-1"
         [("S1.txt"%string, [Spec.good_line; Spec.next_day_line])]
         (ingest_weather_data Spec.tick_clock Models.sqlite "manual" "run-1"
            [("S1.txt"%string, [Spec.good_line; Spec.next_day_line])]
            Spec.empty_store).1).2
     = (ingest_weather_data Spec.tick_clock Models.sqlite "manual" "run-1"
          [("S1.txt"%string, [Spec.good_line; Spec.next_day_line])]
          Spec.empty_store).2.
Proof.
  apply (reingest_same_rows_but_time Spec.tick_clock Models.sqlite
           "manual"%string "run-1"%string
           [("S1.txt"%string, [Spec.good_line; Spec.next_day_line])]
           Spec.empty_store).
  left. discriminate.
Defined.

(** Without [plain_upserts] the second pass can differ in more than the
    time stamp: on the fallback branch the out-of-range line of
    [mixed_file] is passed over while its key is free and raises once the
    key is taken, so the second pass stops before the last line. *)
Lemma fallback_reingest_differs :
  let once := ingest_weather_data Spec.tick_clock Models.other_dialect "manual" "run-1"
                [("S1.txt"%string, Spec.mixed_file)] Spec.empty_store in
  let twice := ingest_weather_data Spec.tick_clock Models.other_dialect "manual" "run-1"
                 [("S1.txt"%string, Spec.mixed_file)] once.1 in
  once.2 = Return 4
  /\ Models.raw_max_temp
       <$> weather_facts once.1 !! ("S1"%string, Spec.new_year_2020, "manual"%string)
     = Some (Some 120)
  /\ twice.2 = Raise IntegrityError
  /\ Models.raw_max_temp
       <$> weather_facts twice.1 !! ("S1"%string, Spec.new_year_2020, "manual"%string)
     = Some (Some 100).
Proof. by vm_compute. Qed.

(** C2, as stated, fails: the row of a one-line file holds the time of the
    first clock reading after one pass and of the second after two. *)
Lemma reingest_changes_ingested_at :
  Models.ingested_at
    <$> weather_facts
          (ingest_weather_data Spec.tick_clock Models.sqlite "manual" "run-1"
             [("S1.txt"%string, [Spec.good_line])] Spec.empty_store).1
        !! ("S1"%string, Spec.new_year_2020, "manual"%string)
  = Some 0
  /\ Models.ingested_at
      <$> weather_facts
            (ingest_weather_data Spec.tick_clock Models.sqlite "manual" "run-1"
               [("S1.txt"%string, [Spec.good_line])]
               (ingest_weather_data Spec.tick_clock Models.sqlite "manual" "run-1"
                  [("S1.txt"%string, [Spec.good_line])] Spec.empty_store).1).1
          !! ("S1"%string, Spec.new_year_2020, "manual"%string)
    = Some 1.
Proof. split; by vm_compute. Qed.

(** C4, as amended: a fact with a raw value outside the CHECK ranges is
    never persisted, whatever the branch; on the sqlite and postgresql
    branches the write raises, and the exception ends the ingestion at
    that line: the lines before it stay committed, the lines after it and
    the files after it are not read. The exception is IntegrityError when
    the readings get as far as the CHECK constraint: on sqlite when they
    fit 64 bits (OverflowError when not), on postgresql when they fit a
    SMALLINT (DataError when not). On sqlite 99999 tenths end the run with
    IntegrityError and 10 ^ 20 tenths with OverflowError; on postgresql
    99999 tenths end it with DataError. *)
Theorem constraint_violation_rejected_and_raised :
  (forall d fact facts,
      Models.check_constraints fact = false ->
      (upsert_weather_fact d fact facts).1 = facts)
  /\ (forall utcnow d source run_id station before line after db n p,
        d <> Models.other_dialect ->
        parse_weather_line line = Return (Some p) ->
        Spec.out_of_range p ->
        ingest_lines utcnow d source run_id station (before ++ line :: after) db n
        = match ingest_lines utcnow d source run_id station before db n with
          | (db', Return _) => (read_clock db', Raise (Spec.rejection d p))
          | (db', Raise e) => (db', Raise e)
          end)
  /\ (forall utcnow d source run_id filename lines files db n db' e,
        endswith filename ".txt" = true ->
        ingest_lines utcnow d source run_id (remove_all ".txt" filename) lines
                     (ensure_station (remove_all ".txt" filename) db) n
        = (db', Raise e) ->
        ingest_files utcnow d source run_id ((filename, lines) :: files) db n
        = (db', Raise e))
  /\ ingest_weather_data Spec.tick_clock Models.sqlite "manual" "run-1"
       [("S1.txt"%string, [Spec.bad_line; Spec.next_day_line])] Spec.empty_store
     = (ensure_station "S1" (read_clock Spec.empty_store), Raise IntegrityError)
  /\ ingest_weather_data Spec.tick_clock Models.sqlite "manual" "run-1"
       [("S1.txt"%string, [Spec.wide_reading_line; Spec.next_day_line])]
       Spec.empty_store
     = (ensure_station "S1" (read_clock Spec.empty_store), Raise OverflowError)
  /\ ingest_weather_data Spec.tick_clock Models.postgresql "manual" "run-1"
       [("S1.txt"%string, [Spec.bad_line; Spec.next_day_line])] Spec.empty_store
     = (ensure_station "S1" (read_clock Spec.empty_store), Raise DataError).
Proof.
  split; [apply refused_write_changes_nothing|]. split; [|split].
  - intros utcnow d source run_id station before line after db n p Hd Hp Hout.
    rewrite ingest_lines_app.
    destruct (ingest_lines _ _ _ _ _ before db n) as [db' [n'|e]]; [|done].
    by eapply ingest_out_of_range_line.
  - intros utcnow d source run_id filename lines files db n db' e Htxt Hraise.
    simpl. by rewrite Htxt, Hraise.
  - by vm_compute.
Qed.

(** [constraint_violation_rejected_and_raised] at a file of three lines, the
    second of which reads 99999 tenths. *)
Lemma constraint_violation_example :
  ingest_lines Spec.tick_clock Models.sqlite "manual" "run-1" "S1"
    ([Spec.next_day_line] ++ Spec.bad_line :: [Spec.good_line]) Spec.empty_store 0
  = match ingest_lines Spec.tick_clock Models.sqlite "manual" "run-1" "S1"
            [Spec.next_day_line] Spec.empty_store 0 with
    | (db', Return _) =>
        (read_clock db',
         Raise (Spec.rejection Models.sqlite
                  (Spec.decoded Spec.new_year_2020 (Some 99999) (Some 10) (Some 5))))
    | (db', Raise e) => (db', Raise e)
    end.
Proof.
  apply (proj1 (proj2 constraint_violation_rejected_and_raised)
           Spec.tick_clock Models.sqlite "manual"%string "run-1"%string "S1"%string
           [Spec.next_day_line] Spec.bad_line [Spec.good_line] Spec.empty_store 0
           (Spec.decoded Spec.new_year_2020 (Some 99999) (Some 10) (Some 5)));
    [done | by vm_compute | reflexivity].
Defined.

(** C4, as stated, fails: on sqlite a file whose first line reads 99999
    tenths ends the run with IntegrityError, and the good line after it is
    never persisted. *)
Lemma constraint_violation_aborts_run :
  (ingest_weather_data Spec.tick_clock Models.sqlite "manual" "run-1"
     [("S1.txt"%string, [Spec.bad_line; Spec.next_day_line])] Spec.empty_store).2
  = Raise IntegrityError
  /\ weather_facts
       (ingest_weather_data Spec.tick_clock Models.sqlite "manual" "run-1"
          [("S1.txt"%string, [Spec.bad_line; Spec.next_day_line])] Spec.empty_store).1
     = ∅.
Proof. split; by vm_compute. Qed.

End StoreProofs.

(** ** The file sweep *)

Module SweepProofs.

Import EtlRunner.

Section Inserts.

Variable decoder : string -> result (option raw_record).
Variable station_id : string.

Lemma INSERT_SQL_keeps data weather k v :
  weather !! k = Some v -> (INSERT_SQL station_id data weather).1 !! k = Some v.
Proof.
  intros Hk. unfold INSERT_SQL.
  destruct (_ && _); [|done].
  destruct (weather !! (station_id, rec_date data)) eqn:Hrow; [done|]. simpl.
  rewrite lookup_insert_ne; [done|]. congruence.
Qed.

Lemma INSERT_SQL_taken data weather :
  (INSERT_SQL station_id data weather).2 = Return tt ->
  is_Some ((INSERT_SQL station_id data weather).1 !! (station_id, rec_date data)).
Proof.
  unfold INSERT_SQL. destruct (_ && _); [|done].
  destruct (weather !! (station_id, rec_date data)) eqn:Hrow; simpl; intros _.
  - by rewrite Hrow.
  - rewrite lookup_insert_eq. eauto.
Qed.

Lemma INSERT_SQL_again data weather weather' :
  (INSERT_SQL station_id data weather).2 = Return tt ->
  is_Some (weather' !! (station_id, rec_date data)) ->
  INSERT_SQL station_id data weather' = (weather', Return tt).
Proof.
  unfold INSERT_SQL. destruct (_ && _); [|done].
  intros _ [v ->]. done.
Qed.

Lemma INSERT_SQL_outcome data weather weather' :
  (INSERT_SQL station_id data weather).2 = (INSERT_SQL station_id data weather').2.
Proof.
  unfold INSERT_SQL. destruct (_ && _); [|done].
  by destruct (weather !! _), (weather' !! _).
Qed.

Lemma INSERT_SQL_raises data weather w e :
  INSERT_SQL station_id data weather = (w, Raise e) ->
  forall weather', INSERT_SQL station_id data weather' = (weather', Raise e).
Proof.
  unfold INSERT_SQL. destruct (_ && _).
  - by destruct (weather !! _).
  - intros [= _ <-]. done.
Qed.

Lemma insert_lines_keeps lines fault weather count k v :
  weather !! k = Some v ->
  (insert_lines decoder station_id lines fault weather count).1 !! k = Some v.
Proof.
  revert fault weather count.
  induction lines as [|line rest IH]; intros fault weather count Hk.
  - by destruct fault as [[|?]|].
  - simpl. destruct fault as [[|j]|]; [done|..];
      (destruct (decoder line) as [[data|]|e]; [|by apply IH|done];
       pose proof (INSERT_SQL_keeps data weather k v Hk) as Hk';
       destruct (INSERT_SQL station_id data weather) as [w [[]|e]]; [by apply IH|done]).
Qed.

Lemma insert_lines_outcome lines fault weather weather' count :
  (insert_lines decoder station_id lines fault weather count).2
  = (insert_lines decoder station_id lines fault weather' count).2.
Proof.
  revert fault weather weather' count.
  induction lines as [|line rest IH]; intros fault weather weather' count.
  - by destruct fault as [[|?]|].
  - simpl. destruct fault as [[|j]|]; [done|..];
      (destruct (decoder line) as [[data|]|e]; [|by apply IH|done];
       pose proof (INSERT_SQL_outcome data weather weather') as Ho;
       destruct (INSERT_SQL station_id data weather) as [w [[]|e]],
                (INSERT_SQL station_id data weather') as [w' [[]|e']];
       simpl in Ho; try done; by (apply IH || simplify_eq)).
Qed.

(** After a pass that stopped anywhere, a full pass leaves what a full pass
    alone leaves, and counts the same lines. *)
Lemma insert_lines_retry lines fault weather count0 count :
  insert_lines decoder station_id lines None
    (insert_lines decoder station_id lines fault weather count0).1 count
  = insert_lines decoder station_id lines None weather count.
Proof.
  revert fault weather count0 count.
  induction lines as [|line rest IH]; intros fault weather count0 count.
  - by destruct fault as [[|?]|].
  - assert (forall fault',
      insert_lines decoder station_id (line :: rest) None
        (match decoder line with
         | Raise e => (weather, Raise e)
         | Return None =>
             insert_lines decoder station_id rest fault' weather count0
         | Return (Some data) =>
             match INSERT_SQL station_id data weather with
             | (weather, Raise e) => (weather, Raise e)
             | (weather, Return _) =>
                 insert_lines decoder station_id rest fault' weather (count0 + 1)
             end
         end).1 count
      = insert_lines decoder station_id (line :: rest) None weather count) as Hturn.
    { intros fault'. simpl. destruct (decoder line) as [[data|]|e] eqn:Hdec; [|apply IH|done].
      destruct (INSERT_SQL station_id data weather) as [w [[]|e]] eqn:Hins;
        [|by rewrite (INSERT_SQL_raises _ _ _ _ Hins)].
      assert ((INSERT_SQL station_id data weather).2 = Return tt) as Hok by by rewrite Hins.
      pose proof (INSERT_SQL_taken data weather Hok) as [v Hv]. rewrite Hins in Hv.
      simpl in Hv.
      rewrite (INSERT_SQL_again data weather _ Hok);
        [apply IH|]. eexists. by apply insert_lines_keeps. }
    destruct fault as [[|j]|]; [done|apply Hturn..].
Qed.

(** A pass that ran to the end met no fault. *)
Lemma insert_lines_unfaulted lines fault weather count :
  returns (insert_lines decoder station_id lines fault weather count).2 = true ->
  insert_lines decoder station_id lines fault weather count
  = insert_lines decoder station_id lines None weather count.
Proof.
  revert fault weather count.
  induction lines as [|line rest IH]; intros fault weather count.
  - by destruct fault as [[|?]|].
  - simpl. destruct fault as [[|j]|]; [done| |done].
    destruct (decoder line) as [[data|]|e]; [|apply IH|done].
    destruct (INSERT_SQL station_id data weather) as [w [[]|e]]; [apply IH|done].
Qed.

(** The rows of another station are out of reach. *)
Lemma INSERT_SQL_other_station data weather s d :
  s <> station_id ->
  (INSERT_SQL station_id data weather).1 !! (s, d) = weather !! (s, d).
Proof.
  intros Hne. unfold INSERT_SQL. destruct (_ && _); [|done].
  destruct (weather !! (station_id, rec_date data)); [done|]. simpl.
  rewrite lookup_insert_ne; [done|]. congruence.
Qed.

Lemma insert_lines_other_station lines fault weather count s :
  s <> station_id ->
  Spec.same_station_rows s
    (insert_lines decoder station_id lines fault weather count).1 weather.
Proof.
  intros Hne d. revert fault weather count.
  induction lines as [|line rest IH]; intros fault weather count.
  - by destruct fault as [[|?]|].
  - simpl. destruct fault as [[|j]|]; [done|..];
      (destruct (decoder line) as [[data|]|e]; [|by apply IH|done];
       pose proof (INSERT_SQL_other_station data weather s d Hne) as Ho;
       destruct (INSERT_SQL station_id data weather) as [w [[]|e]]; simpl in Ho;
       [by rewrite IH|done]).
Qed.

(** The rows a pass leaves for its station depend on the rows the table
    held for that station only. *)
Lemma INSERT_SQL_same_station data weather weather' :
  Spec.same_station_rows station_id weather weather' ->
  Spec.same_station_rows station_id
    (INSERT_SQL station_id data weather).1 (INSERT_SQL station_id data weather').1.
Proof.
  intros Hsame d. unfold INSERT_SQL. destruct (_ && _); [|apply Hsame].
  rewrite <- (Hsame (rec_date data)).
  destruct (weather !! (station_id, rec_date data)); simpl; [apply Hsame|].
  destruct (decide (d = rec_date data)) as [->|Hne].
  - by rewrite !lookup_insert_eq.
  - rewrite !lookup_insert_ne by congruence. apply Hsame.
Qed.

Lemma insert_lines_same_station lines fault weather weather' count :
  Spec.same_station_rows station_id weather weather' ->
  Spec.same_station_rows station_id
    (insert_lines decoder station_id lines fault weather count).1
    (insert_lines decoder station_id lines fault weather' count).1.
Proof.
  revert fault weather weather' count.
  induction lines as [|line rest IH]; intros fault weather weather' count Hsame.
  - by destruct fault as [[|?]|].
  - simpl. destruct fault as [[|j]|]; [done|..];
      (destruct (decoder line) as [[data|]|e]; [|by apply IH|done];
       pose proof (INSERT_SQL_same_station data weather weather' Hsame) as Hs;
       pose proof (INSERT_SQL_outcome data weather weather') as Ho;
       destruct (INSERT_SQL station_id data weather) as [w [[]|e]],
                (INSERT_SQL station_id data weather') as [w' [[]|e']];
       simpl in *; try done; by apply IH).
Qed.

End Inserts.

Lemma process_file_outcome file lines fault weather :
  returns (process_file file lines fault weather).2 = Spec.completes file lines fault.
Proof.
  unfold Spec.completes, process_file.
  pose proof (insert_lines_outcome parse_line (splitext_root file) lines fault weather ∅ 0)
    as Ho.
  destruct (insert_lines _ _ lines fault weather 0) as [w [c|e]],
           (insert_lines _ _ lines fault ∅ 0) as [w' [c'|e']]; simpl in *; done.
Qed.

(** The turn of a file leaves the entries of every other name alone. *)
Lemma sweep_file_other faults file st totals name :
  name <> file ->
  watch_dir (sweep_file faults file st totals).1 !! name = watch_dir st !! name
  /\ archive_dir (sweep_file faults file st totals).1 !! name = archive_dir st !! name.
Proof.
  intros Hne. unfold sweep_file.
  destruct (endswith file ".txt"); [|done].
  destruct (watch_dir st !! file) as [lines|]; [|done].
  destruct (process_file _ _ _ _) as [w [[s c]|e]]; simpl; [|done].
  by rewrite lookup_delete_ne, lookup_insert_ne.
Qed.

(** The turn of a .txt file of the watch directory: moved when processing
    completes, left alone otherwise. *)
Lemma sweep_file_own faults file st totals lines :
  watch_dir st !! file = Some lines ->
  endswith file ".txt" = true ->
  let st' := (sweep_file faults file st totals).1 in
  if Spec.completes file lines (faults file)
  then watch_dir st' !! file = None /\ archive_dir st' !! file = Some lines
  else watch_dir st' !! file = Some lines
       /\ archive_dir st' !! file = archive_dir st !! file.
Proof.
  intros Hw Htxt. unfold sweep_file. rewrite Htxt, Hw.
  rewrite <- (process_file_outcome file lines (faults file) (weather st)).
  destruct (process_file _ _ _ _) as [w [[s c]|e]]; simpl; [|done].
  by rewrite lookup_delete_eq, lookup_insert_eq.
Qed.

Lemma sweep_other faults files st totals name :
  name ∉ files ->
  watch_dir (sweep faults files st totals).1 !! name = watch_dir st !! name
  /\ archive_dir (sweep faults files st totals).1 !! name = archive_dir st !! name.
Proof.
  revert st totals. induction files as [|file rest IH]; intros st totals Hnot; [done|].
  simpl. apply not_elem_of_cons in Hnot as [Hne Hrest].
  pose proof (sweep_file_other faults file st totals name Hne) as [Hw Ha].
  destruct (sweep_file faults file st totals) as [st1 totals1]. simpl in *.
  destruct (IH st1 totals1 Hrest) as [Hw' Ha']. by rewrite Hw', Ha'.
Qed.

Lemma sweep_own faults files st totals file lines :
  NoDup files -> file ∈ files ->
  watch_dir st !! file = Some lines ->
  endswith file ".txt" = true ->
  let st' := (sweep faults files st totals).1 in
  if Spec.completes file lines (faults file)
  then watch_dir st' !! file = None /\ archive_dir st' !! file = Some lines
  else watch_dir st' !! file = Some lines
       /\ archive_dir st' !! file = archive_dir st !! file.
Proof.
  revert st totals. induction files as [|f rest IH]; intros st totals Hnd Hin Hw Htxt;
    [by apply elem_of_nil in Hin|].
  apply NoDup_cons in Hnd as [Hf Hnd]. simpl.
  destruct (decide (file = f)) as [<-|Hne].
  - pose proof (sweep_file_own faults file st totals lines Hw Htxt) as Hown.
    destruct (sweep_file faults file st totals) as [st1 totals1]. simpl in *.
    destruct (sweep_other faults rest st1 totals1 file Hf) as [-> ->]. done.
  - apply elem_of_cons in Hin as [?|Hin]; [done|].
    pose proof (sweep_file_other faults f st totals file Hne) as [Hw1 Ha1].
    destruct (sweep_file faults f st totals) as [st1 totals1]. simpl in *.
    rewrite <- Hw1 in Hw. specialize (IH st1 totals1 Hnd Hin Hw Htxt). simpl in IH.
    by rewrite Ha1 in IH.
Qed.

(** *** Two sweeps *)

Lemma sweep_file_weather faults file st totals :
  weather (sweep_file faults file st totals).1
  = if endswith file ".txt" then
      match watch_dir st !! file with
      | Some lines =>
          (insert_lines parse_line (splitext_root file) lines (faults file)
                        (weather st) 0).1
      | None => weather st
      end
    else weather st.
Proof.
  unfold sweep_file, process_file. destruct (endswith file ".txt"); [|done].
  destruct (watch_dir st !! file) as [lines|]; [|done].
  by destruct (insert_lines _ _ lines _ _ 0) as [w [c|e]].
Qed.

(** A sweep takes files out of the watch directory and puts none in. *)
Lemma sweep_file_watch faults file st totals name lines :
  watch_dir (sweep_file faults file st totals).1 !! name = Some lines ->
  watch_dir st !! name = Some lines.
Proof.
  unfold sweep_file. destruct (endswith file ".txt"); [|done].
  destruct (watch_dir st !! file) as [ls|] eqn:Hw; [|done].
  destruct (process_file _ _ _ _) as [w [[s c]|e]]; simpl; [|done].
  intros Hl. by apply lookup_delete_Some in Hl as [_ Hl].
Qed.

Lemma sweep_watch faults files st totals name lines :
  watch_dir (sweep faults files st totals).1 !! name = Some lines ->
  watch_dir st !! name = Some lines.
Proof.
  revert st totals. induction files as [|file rest IH]; intros st totals; [done|].
  simpl. pose proof (sweep_file_watch faults file st totals name lines) as Hf.
  destruct (sweep_file faults file st totals) as [st1 totals1]. simpl in *.
  intros Hl. by apply Hf, (IH st1 totals1).
Qed.

(** A sweep over files of other stations leaves the rows of a station. *)
Lemma sweep_no_station faults files st totals s :
  (forall f, f ∈ files -> endswith f ".txt" = true -> splitext_root f <> s) ->
  Spec.same_station_rows s (weather (sweep faults files st totals).1) (weather st).
Proof.
  revert st totals. induction files as [|file rest IH]; intros st totals Hother d;
    [done|].
  simpl. pose proof (sweep_file_weather faults file st totals) as Hw.
  destruct (sweep_file faults file st totals) as [st1 totals1]. simpl in *.
  rewrite (IH st1 totals1) by (intros f Hf; apply Hother; by right).
  rewrite Hw. destruct (endswith file ".txt") eqn:Htxt; [|done].
  destruct (watch_dir st !! file); [|done].
  apply insert_lines_other_station.
  intros Hs. by apply (Hother file); [left| |].
Qed.

(** A sweep leaves, for the station of one of its files, the rows the pass
    over that file leaves. *)
Lemma sweep_station faults files st totals file lines :
  NoDup files -> Spec.distinct_stations files -> file ∈ files ->
  watch_dir st !! file = Some lines ->
  endswith file ".txt" = true ->
  Spec.same_station_rows (splitext_root file)
    (weather (sweep faults files st totals).1)
    (insert_lines parse_line (splitext_root file) lines (faults file) (weather st) 0).1.
Proof.
  revert st totals. induction files as [|f rest IH];
    intros st totals Hnd Hdist Hin Hw Htxt d; [by apply elem_of_nil in Hin|].
  apply NoDup_cons in Hnd as [Hf Hnd]. simpl.
  pose proof (sweep_file_weather faults f st totals) as Hweather.
  destruct (decide (file = f)) as [<-|Hne].
  - destruct (sweep_file faults file st totals) as [st1 totals1]. simpl in *.
    rewrite (sweep_no_station faults rest st1 totals1 (splitext_root file)).
    + by rewrite Hweather, Htxt, Hw.
    + intros g Hg Hgtxt Heq. apply Hf.
      rewrite (Hdist file g); [done|by left|by right|done..].
  - apply elem_of_cons in Hin as [?|Hin]; [done|].
    pose proof (sweep_file_other faults f st totals file Hne) as [Hw1 _].
    destruct (sweep_file faults f st totals) as [st1 totals1]. simpl in *.
    rewrite <- Hw1 in Hw.
    assert (Spec.distinct_stations rest) as Hdist'.
    { intros a b Ha Hb. apply Hdist; by right. }
    rewrite (IH st1 totals1 Hnd Hdist' Hin Hw Htxt).
    apply insert_lines_same_station. intros d'. rewrite Hweather.
    destruct (endswith f ".txt") eqn:Hftxt; [|done].
    destruct (watch_dir st !! f); [|done].
    apply insert_lines_other_station.
    intros Heq. apply Hne. apply Hdist; [by right|by left|done..].
Qed.

Lemma elem_of_listdir dir file :
  file ∈ listdir dir <-> is_Some (dir !! file).
Proof.
  unfold listdir. rewrite list_elem_of_fmap. split.
  - intros [[f ls] [-> Hin]]. apply elem_of_map_to_list in Hin. eauto.
  - intros [ls Hls]. exists (file, ls). split; [done|]. by apply elem_of_map_to_list.
Qed.

(** A sweep in which reads failed, and then a sweep without a fault, leave
    the table a single sweep without a fault leaves. *)
Lemma two_sweeps faults st :
  Spec.distinct_stations (listdir (watch_dir st)) ->
  weather (main Spec.no_faults (main faults st).1).1
  = weather (main Spec.no_faults st).1.
Proof.
  intros Hdist. apply map_eq. intros [s d].
  set (names := listdir (watch_dir st)) in *.
  assert (NoDup names) as Hnd by apply NoDup_fst_map_to_list.
  set (st1 := (main faults st).1).
  assert (forall n ls, watch_dir st1 !! n = Some ls -> watch_dir st !! n = Some ls)
    as Hshrink by (intros n ls; apply sweep_watch).
  assert (Spec.distinct_stations (listdir (watch_dir st1))) as Hdist1.
  { intros a b Ha Hb. apply Hdist; apply elem_of_listdir.
    - apply elem_of_listdir in Ha as [ls Hls]. eauto.
    - apply elem_of_listdir in Hb as [ls Hls]. eauto. }
  destruct (decide (Exists (fun f => endswith f ".txt" = true /\ splitext_root f = s)
                           names)) as [Hex|Hno].
  - apply Exists_exists in Hex as (file & Hin & Htxt & <-).
    pose proof Hin as Hin'. apply elem_of_listdir in Hin' as [lines Hw].
    unfold main at 2. fold names.
    rewrite (sweep_station Spec.no_faults names st (0, 0) file lines) by done.
    pose proof (sweep_station faults names st (0, 0) file lines Hnd Hdist Hin Hw Htxt)
      as Hfirst.
    pose proof (sweep_own faults names st (0, 0) file lines Hnd Hin Hw Htxt) as Hfate.
    fold (main faults st) in Hfirst, Hfate. fold st1 in Hfirst, Hfate. simpl in Hfate.
    rewrite <- process_file_outcome with (weather := weather st) in Hfate.
    unfold process_file in Hfate.
    destruct (returns (let (w, r) := insert_lines _ _ lines (faults file) (weather st) 0
                       in _).2) eqn:Hret.
    + destruct Hfate as [Hgone _]. unfold main.
      rewrite (sweep_no_station Spec.no_faults (listdir (watch_dir st1)) st1 (0, 0)).
      * rewrite Hfirst. rewrite insert_lines_unfaulted; [done|].
        by destruct (insert_lines _ _ lines (faults file) (weather st) 0) as [w [c|e]].
      * intros g Hg Hgtxt Heq.
        apply elem_of_listdir in Hg as [ls Hls].
        assert (g = file) as ->.
        { apply Hdist; [|done..]. apply elem_of_listdir. eauto. }
        change (watch_dir st1 !! file = None) in Hgone. congruence.
    + destruct Hfate as [Hstays _]. unfold main.
      rewrite (sweep_station Spec.no_faults (listdir (watch_dir st1)) st1 (0, 0)
                 file lines); [|apply NoDup_fst_map_to_list|done| |done..].
      * rewrite (insert_lines_same_station parse_line (splitext_root file) lines
                   None (weather st1) _ 0 Hfirst).
        by rewrite insert_lines_retry.
      * apply elem_of_listdir. change (watch_dir st1 !! file = Some lines) in Hstays.
        eauto.
  - assert (forall f, f ∈ names -> endswith f ".txt" = true -> splitext_root f <> s)
      as Hother.
    { intros f Hf Htxt Heq. apply Hno, Exists_exists. eauto. }
    unfold main at 2. fold names. rewrite (sweep_no_station _ names st) by done.
    unfold main at 1.
    rewrite (sweep_no_station Spec.no_faults (listdir (watch_dir st1)) st1 (0, 0)).
    + unfold st1, main. fold names. by rewrite (sweep_no_station _ names st).
    + intros f Hf. apply Hother. apply elem_of_listdir.
      apply elem_of_listdir in Hf as [ls Hls]. eauto.
Qed.

(** C7: after a sweep, a .txt file of the watch directory is in the archive
    and gone from the watch directory exactly when its processing ran to
    the end; a file whose processing raised stays where it was, whatever
    happens to the other files, and each other file is moved or kept by its
    own processing alone. Processing the file again in full, after a pass
    that stopped anywhere, leaves the table and the count a single full pass
    leaves, and so does the next sweep for the whole directory when each
    file is the file of a station of its own (the table has one row per
    key). *)
Theorem sweep_archives_completed_files_only :
  (forall faults st file lines,
      watch_dir st !! file = Some lines ->
      endswith file ".txt" = true ->
      let st' := (main faults st).1 in
      if Spec.completes file lines (faults file)
      then watch_dir st' !! file = None /\ archive_dir st' !! file = Some lines
      else watch_dir st' !! file = Some lines
           /\ archive_dir st' !! file = archive_dir st !! file)
  /\ (forall file lines fault weather,
        process_file file lines None (process_file file lines fault weather).1
        = process_file file lines None weather)
  /\ (forall faults st,
        Spec.distinct_stations (listdir (watch_dir st)) ->
        weather (main Spec.no_faults (main faults st).1).1
        = weather (main Spec.no_faults st).1).
Proof.
  split; [|split].
  - intros faults st file lines Hw Htxt. unfold main.
    apply sweep_own; try done.
    + apply NoDup_fst_map_to_list.
    + apply elem_of_listdir. eauto.
  - intros file lines fault weather. unfold process_file.
    pose proof (insert_lines_retry parse_line (splitext_root file) lines fault weather 0 0)
      as Hretry.
    destruct (insert_lines _ _ lines fault weather 0) as [w1 [c1|e1]]; simpl in *;
      by rewrite Hretry.
  - apply two_sweeps.
Qed.

(** [sweep_archives_completed_files_only] at a sweep in which the second
    read of S1.txt fails: S1.txt stays in the watch directory, S2.txt, which
    completes, is archived, and the next sweep leaves the table of a single
    sweep without a fault. *)
Lemma sweep_example :
  (watch_dir (main Spec.fault_in_S1 Spec.two_files).1 !! "S1.txt"%string
   = Some [Spec.good_line; Spec.next_day_line]
   /\ archive_dir (main Spec.fault_in_S1 Spec.two_files).1 !! "S1.txt"%string = None)
  /\ (watch_dir (main Spec.fault_in_S1 Spec.two_files).1 !! "S2.txt"%string = None
      /\ archive_dir (main Spec.fault_in_S1 Spec.two_files).1 !! "S2.txt"%string
         = Some [Spec.good_line])
  /\ weather (main Spec.no_faults (main Spec.fault_in_S1 Spec.two_files).1).1
     = weather (main Spec.no_faults Spec.two_files).1.
Proof.
  split; [|split].
  - apply (proj1 sweep_archives_completed_files_only Spec.fault_in_S1 Spec.two_files
             "S1.txt"%string [Spec.good_line; Spec.next_day_line]); reflexivity.
  - apply (proj1 sweep_archives_completed_files_only Spec.fault_in_S1 Spec.two_files
             "S2.txt"%string [Spec.good_line]); reflexivity.
  - apply (proj2 (proj2 sweep_archives_completed_files_only)).
    intros f g Hf Hg _ _ Heq.
    apply elem_of_listdir in Hf as [lf Hf]. apply elem_of_listdir in Hg as [lg Hg].
    unfold Spec.two_files in Hf, Hg. simpl in Hf, Hg.
    apply lookup_insert_Some in Hf as [[<- _]|[_ Hf]];
      apply lookup_insert_Some in Hg as [[<- _]|[_ Hg]]; try done.
    + apply lookup_insert_Some in Hg as [[<- _]|[_ Hg]]; [by vm_compute in Heq|done].
    + apply lookup_insert_Some in Hf as [[<- _]|[_ Hf]]; [by vm_compute in Heq|done].
    + apply lookup_insert_Some in Hf as [[<- _]|[_ Hf]]; [|done].
      apply lookup_insert_Some in Hg as [[<- _]|[_ Hg]]; done.
Defined.

End SweepProofs.

(** ** Aggregation *)

Module AggregationProofs.

Lemma acc_steps a column :
  foldl Sql.acc_step a column
  = Sql.mkacc (foldl PrimFloat.add (Sql.acc_sum a) (Spec.non_null column))
              (Sql.acc_cnt a + Z.of_nat (length (Spec.non_null column))).
Proof.
  revert a. induction column as [|[x|] column IH]; intros [s c]; simpl.
  - f_equal. lia.
  - rewrite IH. simpl. f_equal. lia.
  - apply IH.
Qed.

Lemma avg_of_column column :
  Sql.avg_final (foldl Sql.acc_step Sql.acc_init column)
  = Spec.mean (Spec.non_null column).
Proof.
  rewrite acc_steps. unfold Sql.avg_final, Spec.mean, Spec.total. simpl.
  destruct (Spec.non_null column); [done|].
  simpl length. by destruct (Z.eqb_spec (Z.of_nat (S (length l))) 0); [lia|].
Qed.

Lemma sum_of_column column :
  Sql.sum_final (foldl Sql.acc_step Sql.acc_init column)
  = Spec.sum_or_null (Spec.non_null column).
Proof.
  rewrite acc_steps. unfold Sql.sum_final, Spec.sum_or_null, Spec.total. simpl.
  destruct (Spec.non_null column); [done|].
  simpl length. by destruct (Z.eqb_spec (Z.of_nat (S (length l))) 0); [lia|].
Qed.

Lemma non_null_all (values : list float) : Spec.non_null (Some <$> values) = values.
Proof.
  unfold Spec.non_null. induction values as [|x values IH]; [done|].
  simpl. by f_equal.
Qed.

(** The states of a group, column by column. *)
Lemma group_steps g group :
  foldl Analyze.group_step g group
  = Analyze.mkgroup
      (foldl Sql.acc_step (Analyze.g_max g) (Models.max_temp_c <$> group))
      (foldl Sql.acc_step (Analyze.g_min g) (Models.min_temp_c <$> group))
      (foldl Sql.acc_step (Analyze.g_precip g) (Models.precip_mm <$> group))
      (Analyze.g_count g + Z.of_nat (length group))
      (foldl Sql.acc_step (Analyze.g_quality g)
             (Some <$> (Models.quality_score <$> group))).
Proof.
  revert g. induction group as [|f group IH]; intros [a b c n q]; simpl.
  - f_equal. lia.
  - rewrite IH. simpl. f_equal. lia.
Qed.

Lemma group_summary group :
  Analyze.group_final (foldl Analyze.group_step Analyze.group_init group)
  = Spec.summary_of group.
Proof.
  rewrite group_steps. unfold Analyze.group_final, Spec.summary_of. simpl.
  by rewrite !avg_of_column, sum_of_column, non_null_all.
Qed.

Section GroupBy.

Context {K : Type} `{Countable K}.
Variable group_key : Models.WeatherFact -> K.

(** The state of a group after a scan: the steps of its rows, in order. *)
Lemma scan_rows rows groups g :
  foldl (Analyze.scan_row group_key) groups rows !! g
  = match Spec.rows_of_group group_key g rows with
    | [] => groups !! g
    | group =>
        Some (foldl Analyze.group_step (default Analyze.group_init (groups !! g)) group)
    end.
Proof.
  revert groups. induction rows as [|f rows IH]; intros groups; [done|].
  simpl. rewrite IH. unfold Spec.rows_of_group. rewrite filter_cons.
  unfold Analyze.scan_row.
  destruct (decide (group_key f = g)) as [<-|Hne].
  - rewrite lookup_insert_eq. simpl.
    by destruct (filter _ rows).
  - by rewrite lookup_insert_ne.
Qed.

Lemma group_by_lookup rows g :
  Analyze.group_by group_key rows !! g
  = match Spec.rows_of_group group_key g rows with
    | [] => None
    | group => Some (Spec.summary_of group)
    end.
Proof.
  unfold Analyze.group_by. rewrite lookup_fmap, scan_rows, lookup_empty.
  destruct (Spec.rows_of_group group_key g rows) eqn:Hg; [done|].
  simpl. f_equal. apply (group_summary (w :: l)).
Qed.

End GroupBy.

(** answers/aggregate_stats.py scans the selected rows only. *)
Lemma scan_selected rows groups :
  foldl AggregateStats.scan_row groups rows
  = foldl AggregateStats.scan_row groups
      (filter (fun kr => AggregateStats.selected kr.2 = true) rows).
Proof.
  revert groups. induction rows as [|kr rows IH]; intros groups; [done|].
  rewrite filter_cons. simpl.
  destruct (decide (AggregateStats.selected kr.2 = true)) as [Hsel|Hsel]; simpl.
  - apply IH.
  - rewrite <- IH. f_equal. unfold AggregateStats.scan_row.
    by destruct (AggregateStats.selected kr.2).
Qed.

Lemma all_null_column n :
  Sql.avg_final (foldl Sql.acc_step Sql.acc_init (replicate n None)) = None
  /\ Sql.sum_final (foldl Sql.acc_step Sql.acc_init (replicate n None)) = None.
Proof.
  rewrite avg_of_column, sum_of_column.
  replace (Spec.non_null (replicate n (@None float))) with (@nil float); [done|].
  induction n as [|n IH]; [done|]. simpl. by rewrite IH.
Qed.

(** C6, as amended: in the annual, monthly and quarterly aggregations of
    src/analyze.py every group gets the mean of max_temp_c and of
    min_temp_c over the values that are not null, the sum of precip_mm over
    the values that are not null, and the count of all its rows; a column
    that is null throughout gives a null mean and a null sum; two facts of
    one station-year with max_temp_c 10.0 and 12.0 give avg_max_temp_c 11.0
    and record_count 2. answers/aggregate_stats.py aggregates only the rows
    in which none of the three readings is null. *)
Theorem aggregation_ignores_nulls :
  (forall facts g,
      Analyze.annual_weather_aggregation facts !! g
      = match Spec.rows_of_group Analyze.annual_key g (Analyze.table_scan facts) with
        | [] => None
        | group => Some (Spec.summary_of group)
        end)
  /\ (forall facts g,
        Analyze.monthly_weather_aggregation facts !! g
        = match Spec.rows_of_group Analyze.monthly_key g (Analyze.table_scan facts) with
          | [] => None
          | group => Some (Spec.summary_of group)
          end)
  /\ (forall facts g,
        Analyze.quarterly_weather_aggregation facts !! g
        = match Spec.rows_of_group Analyze.quarterly_key g (Analyze.table_scan facts) with
          | [] => None
          | group => Some (Spec.summary_of group)
          end)
  /\ (forall n,
        Sql.avg_final (foldl Sql.acc_step Sql.acc_init (replicate n None)) = None
        /\ Sql.sum_final (foldl Sql.acc_step Sql.acc_init (replicate n None)) = None)
  /\ (Analyze.avg_max_temp_c
        <$> Analyze.annual_weather_aggregation Spec.two_days !! ("S1"%string, 2020)
      = Some (Some 11%float)
      /\ Analyze.record_count
           <$> Analyze.annual_weather_aggregation Spec.two_days !! ("S1"%string, 2020)
         = Some 2)
  /\ (forall weather,
        AggregateStats.select_summary weather
        = AggregateStats.group_final
            <$> foldl AggregateStats.scan_row ∅
                  (filter (fun kr => AggregateStats.selected kr.2 = true)
                          (map_to_list weather))).
Proof.
  split; [intros; apply group_by_lookup|].
  split; [intros; apply group_by_lookup|].
  split; [intros; apply group_by_lookup|].
  split; [apply all_null_column|].
  split; [split; by vm_compute|].
  intros weather. unfold AggregateStats.select_summary. by rewrite scan_selected.
Qed.

(** C6, as stated, fails on answers/aggregate_stats.py: of two rows of a
    station-year with max 10.0 and 20.0, the first without a min reading,
    only the second enters the average of max, which is 20.0 and not the
    mean 15.0 of the two values that are not null. *)
Lemma aggregate_stats_skips_half_null_rows :
  AggregateStats.avg_max_temp_c
    <$> AggregateStats.main Spec.half_null_table ∅ !! ("S1"%string, 2020)
  = Some (Some 20%float)
  /\ (fun x => x / 10)%float
       <$> Spec.mean (round_int <$> Spec.non_null [Some 100; Some 200])
     = Some 15%float.
Proof. split; by vm_compute. Qed.

End AggregationProofs.

(** ** The decoders, one against the other *)

Module DecoderAgreement.

Import Ingest.

Lemma raw_value_denotes s v : raw_value s = Return v -> Spec.field_value s v.
Proof.
  unfold raw_value. destruct (String.eqb_spec s "-9999") as [->|Hne].
  - intros [= <-]. constructor.
  - destruct (Py.int s) as [r|e] eqn:Hint; [|done].
    intros [= <-]. by constructor.
Qed.

Lemma clean_value_returns r c :
  clean_value r = Return c -> Spec.has_double r = true /\ c = Spec.tenth <$> r.
Proof.
  destruct r as [z|]; [|by intros [= <-]].
  unfold clean_value, int_truediv, float_of_int, Spec.has_double. simpl.
  destruct (PrimFloat.is_infinity (round_int z)); [done|].
  by intros [= <-].
Qed.

(** What the conversions of a four-field line return, read backwards. *)
Lemma raw_record_of_returns ds s1 s2 s3 r :
  raw_record_of ds s1 s2 s3 = Return r ->
  exists d r1 r2 r3,
    r = Some (mkraw d r1 r2 r3)
    /\ strptime_Ymd ds = Return d
    /\ Spec.field_value s1 r1 /\ Spec.field_value s2 r2 /\ Spec.field_value s3 r3.
Proof.
  unfold raw_record_of.
  destruct (strptime_Ymd ds) as [d|e]; [|done]. simpl.
  destruct (raw_field s1) as [r1|e] eqn:H1; [|done]. simpl.
  destruct (raw_field s2) as [r2|e] eqn:H2; [|done]. simpl.
  destruct (raw_field s3) as [r3|e] eqn:H3; [|done]. simpl.
  intros [= <-]. exists d, r1, r2, r3.
  repeat split; by apply raw_value_denotes.
Qed.

(** A date that [strptime] returns is a day of the calendar. *)
Lemma strptime_Ymd_calendar s d :
  strptime_Ymd s = Return d ->
  1 <= year d <= 9999 /\ 1 <= month d <= 12 /\ 1 <= day d <= days_in_month (year d) (month d).
Proof.
  unfold strptime_Ymd. destruct (match_Y s) as [[y r]|]; [|done].
  destruct (first_md (match_m r)) as [[[m dd] [|? ?]]|]; try done.
  unfold make_date.
  destruct (_ && _) eqn:Hok; [|done]. intros [= <-]. simpl.
  repeat (apply andb_true_iff in Hok as [Hok ?]). lia.
Qed.

(** What an accepted line was. *)
Lemma accepted_line_well_formed line p :
  parse_weather_line line = Return (Some p) ->
  exists d r1 r2 r3,
    Spec.well_formed line d r1 r2 r3
    /\ Spec.has_double r1 = true /\ Spec.has_double r2 = true
    /\ Spec.has_double r3 = true
    /\ (1 <= year d <= 9999 /\ 1 <= month d <= 12
        /\ 1 <= day d <= days_in_month (year d) (month d))
    /\ p = Spec.decoded d r1 r2 r3.
Proof.
  unfold parse_weather_line, parse_weather_line_body.
  destruct (split TAB (strip line)) as [|ds [|s1 [|s2 [|s3 [|? ?]]]]] eqn:Hsplit;
    try done.
  destruct (strptime_Ymd ds) as [d|e] eqn:Hd; [|done]. simpl.
  destruct (raw_value s1) as [r1|e] eqn:H1; [|done]. simpl.
  destruct (raw_value s2) as [r2|e] eqn:H2; [|done]. simpl.
  destruct (raw_value s3) as [r3|e] eqn:H3; [|done]. simpl.
  destruct (clean_value r1) as [c1|e] eqn:C1; [|done]. simpl.
  destruct (clean_value r2) as [c2|e] eqn:C2; [|done]. simpl.
  destruct (clean_value r3) as [c3|e] eqn:C3; [|done]. simpl.
  intros [= <-].
  apply clean_value_returns in C1 as [F1 ->], C2 as [F2 ->], C3 as [F3 ->].
  exists d, r1, r2, r3. split.
  { exists ds, s1, s2, s3. repeat split; try done; by apply raw_value_denotes. }
  repeat split; try done; try (by apply (strptime_Ymd_calendar ds)).
  by destruct r3.
Qed.

(** A well-formed line whose integers have a double is accepted. *)
Lemma well_formed_line_accepted line d r1 r2 r3 :
  Spec.well_formed line d r1 r2 r3 ->
  Spec.has_double r1 = true -> Spec.has_double r2 = true ->
  Spec.has_double r3 = true ->
  parse_weather_line line = Return (Some (Spec.decoded d r1 r2 r3)).
Proof.
  intros (ds & s1 & s2 & s3 & Hsplit & Hd & H1 & H2 & H3) F1 F2 F3.
  unfold parse_weather_line, parse_weather_line_body.
  rewrite Hsplit, Hd. simpl.
  rewrite (DecoderProofs.raw_value_reads _ _ H1), (DecoderProofs.raw_value_reads _ _ H2),
    (DecoderProofs.raw_value_reads _ _ H3). simpl.
  rewrite (DecoderProofs.clean_value_tenth _ F1), (DecoderProofs.clean_value_tenth _ F2),
    (DecoderProofs.clean_value_tenth _ F3). simpl.
  by destruct r3.
Qed.

(** X3: The three decoders read the same date and the same raw integers: what
    the unguarded decoder of answers/ingest_weather.py returns, the guarded
    one of answers/etl_runner.py returns; an observation of src/ingest.py
    carries the record the answers' decoders return; and a record of the
    answers' decoders is an observation of src/ingest.py as soon as its
    integers have a double. *)
Theorem decoders_agree :
  (forall line r,
      IngestWeather.parse_line line = Return r -> EtlRunner.parse_line line = Return r)
  /\ (forall line p,
        parse_weather_line line = Return (Some p) ->
        EtlRunner.parse_line line
        = Return (Some (mkraw (observation_date p) (raw_max_temp p)
                              (raw_min_temp p) (raw_precip p)))
        /\ IngestWeather.parse_line line = EtlRunner.parse_line line)
  /\ (forall line r,
        EtlRunner.parse_line line = Return (Some r) ->
        Spec.has_double (rec_max_temp r) = true ->
        Spec.has_double (rec_min_temp r) = true ->
        Spec.has_double (rec_precip r) = true ->
        parse_weather_line line
        = Return (Some (Spec.decoded (rec_date r) (rec_max_temp r)
                                     (rec_min_temp r) (rec_precip r)))).
Proof.
  split; [|split].
  - intros line r. unfold IngestWeather.parse_line, EtlRunner.parse_line.
    destruct (split TAB (strip line)) as [|ds [|s1 [|s2 [|s3 [|? ?]]]]]; try done.
    by intros ->.
  - intros line p Hp.
    apply accepted_line_well_formed in Hp
      as (d & r1 & r2 & r3 & (ds & s1 & s2 & s3 & Hsplit & Hd & H1 & H2 & H3)
          & _ & _ & _ & _ & ->).
    unfold EtlRunner.parse_line, IngestWeather.parse_line, raw_record_of.
    rewrite Hsplit, Hd. simpl.
    by rewrite (DecoderProofs.raw_field_reads _ _ H1),
      (DecoderProofs.raw_field_reads _ _ H2), (DecoderProofs.raw_field_reads _ _ H3).
  - intros line r Hr F1 F2 F3.
    unfold EtlRunner.parse_line in Hr.
    destruct (split TAB (strip line)) as [|ds [|s1 [|s2 [|s3 [|? ?]]]]] eqn:Hsplit;
      try done.
    destruct (raw_record_of ds s1 s2 s3) as [r'|e] eqn:Hrec; [|done].
    simpl in Hr. injection Hr as ->.
    apply raw_record_of_returns in Hrec
      as (d & r1 & r2 & r3 & [= ->] & Hd & H1 & H2 & H3).
    simpl in *. apply well_formed_line_accepted; try done.
    exists ds, s1, s2, s3. by repeat split.
Qed.

(** [decoders_agree] at the example line of the specification. *)
Lemma decoders_agree_example :
  parse_weather_line Spec.example_line
  = Return (Some (Spec.decoded (mkdate 2020 1 1) None (Some 10) (Some 5))).
Proof.
  apply (proj2 (proj2 decoders_agree) Spec.example_line
           (mkraw (mkdate 2020 1 1) None (Some 10) (Some 5)));
    [by vm_compute|reflexivity..].
Defined.

End DecoderAgreement.

(** ** The thresholds of the scorer on raw tenths *)

Module ThresholdProofs.

Import Ingest.

Lemma binary_round_opp m e :
  binary_round prec emax true m e = SFopp (binary_round prec emax false m e).
Proof.
  unfold binary_round. destruct (shl_align _ _ _) as [mz ez].
  unfold binary_round_aux.
  destruct (shr_fexp prec emax (Z.pos mz) ez loc_Exact) as [mrs e'].
  destruct (shr_fexp prec emax _ e' loc_Exact) as [mrs' e''].
  destruct (shr_m mrs') as [|m'|m']; try reflexivity.
  destruct (e'' <=? emax - prec); reflexivity.
Qed.

Lemma round_int_pos p :
  Zpos p < Uint63.wB ->
  round_int (Zpos p) = PrimFloat.of_uint63 (Uint63.of_Z (Zpos p)).
Proof.
  intros Hp. unfold round_int.
  rewrite <- (SF2Prim_Prim2SF (PrimFloat.of_uint63 (Uint63.of_Z (Zpos p)))).
  f_equal. rewrite FloatAxioms.of_uint63_spec. f_equal.
  rewrite Uint63.of_Z_spec. rewrite Z.mod_small; lia.
Qed.

(** [round_int] is the primitive conversion on integers of less than 63
    bits. *)
Lemma round_int_small z :
  - Uint63.wB < z < Uint63.wB -> round_int z = StoreSpec.small_int_float z.
Proof.
  intros Hz. destruct z as [|p|p]; unfold StoreSpec.small_int_float.
  - reflexivity.
  - apply round_int_pos. lia.
  - rewrite <- (SF2Prim_Prim2SF
                  (PrimFloat.opp (PrimFloat.of_uint63 (Uint63.of_Z (Zpos p))))).
    rewrite FloatAxioms.opp_spec, FloatAxioms.of_uint63_spec, Uint63.of_Z_spec.
    rewrite Z.mod_small by lia.
    unfold round_int. simpl. rewrite binary_round_opp. reflexivity.
Qed.

Lemma holds_from_at test lo n r :
  StoreSpec.holds_from test lo n = true ->
  lo <= r < lo + Z.of_nat n -> test r = true.
Proof.
  revert lo. induction n as [|n IH]; intros lo Hall Hr; [lia|].
  simpl in Hall. apply andb_true_iff in Hall as [Hlo Hrest].
  destruct (decide (r = lo)) as [->|Hne]; [done|].
  apply (IH (lo + 1)); [done|lia].
Qed.

Lemma thresholds_checked :
  StoreSpec.holds_from StoreSpec.thresholds_exact (-9999) (Z.to_nat 20000) = true.
Proof. by vm_compute. Qed.

Lemma thresholds_in_range r :
  -9999 <= r <= 10000 -> StoreSpec.thresholds_exact r = true.
Proof.
  intros Hr. apply (holds_from_at _ _ _ r thresholds_checked). lia.
Qed.

Lemma flags_in_range r :
  -9999 <= r <= 10000 ->
  max_temp_outlier (Some (Spec.tenth r)) = StoreSpec.max_flag (Some r)
  /\ min_temp_outlier (Some (Spec.tenth r)) = StoreSpec.min_flag (Some r)
  /\ precip_outlier (Some (Spec.tenth r)) = StoreSpec.precip_flag (Some r).
Proof.
  intros Hr. pose proof (thresholds_in_range r Hr) as Hex.
  unfold StoreSpec.thresholds_exact in Hex.
  rewrite <- round_int_small in Hex by (change Uint63.wB with (2 ^ 63); lia).
  fold (Spec.tenth r) in Hex.
  apply andb_true_iff in Hex as [Hex H3]. apply andb_true_iff in Hex as [H1 H2].
  apply eqb_prop in H1, H2, H3. done.
Qed.

Lemma between_range lo hi r :
  -9999 <= lo -> hi <= 10000 ->
  Models.between_or_null lo hi (Some r) = true -> -9999 <= r <= 10000.
Proof. unfold Models.between_or_null. intros ? ? Hb. apply andb_true_iff in Hb. lia. Qed.

(** X4: For every line the decoder accepts whose raw values pass the three
    CHECK constraints, the outlier count is the number of temperatures
    beyond the thresholds read on the raw tenths (max above 500 or below
    -500, min above 400 or below -600): the division by 10.0 moves no value
    across a threshold, precipitation is never an outlier, the count is at
    most 2, and the missing count is the number of sentinel fields. *)
Theorem outliers_on_tenths :
  forall line p,
    parse_weather_line line = Return (Some p) ->
    Models.between_or_null (-9999) 6000 (raw_max_temp p)
    && Models.between_or_null (-9999) 6000 (raw_min_temp p)
    && Models.between_or_null 0 10000 (raw_precip p) = true ->
    outliers_of p
    = (if StoreSpec.max_flag (raw_max_temp p) then 1 else 0)
      + (if StoreSpec.min_flag (raw_min_temp p) then 1 else 0)
    /\ precip_outlier (precip_mm p) = false
    /\ outliers_of p <= 2
    /\ missing_of p = StoreSpec.nulls (raw_max_temp p) (raw_min_temp p) (raw_precip p).
Proof.
  intros line p Hp Hck.
  apply DecoderAgreement.accepted_line_well_formed in Hp
    as (d & r1 & r2 & r3 & _ & _ & _ & _ & _ & ->).
  simpl in *. apply andb_true_iff in Hck as [Hck H3].
  apply andb_true_iff in Hck as [H1 H2].
  assert (max_temp_outlier (Spec.tenth <$> r1) = StoreSpec.max_flag r1) as E1.
  { destruct r1 as [r|]; [|done]. apply flags_in_range.
    by apply (between_range (-9999) 6000). }
  assert (min_temp_outlier (Spec.tenth <$> r2) = StoreSpec.min_flag r2) as E2.
  { destruct r2 as [r|]; [|done]. apply flags_in_range.
    by apply (between_range (-9999) 6000). }
  assert (precip_outlier (Spec.tenth <$> r3) = false) as E3.
  { destruct r3 as [r|]; [|done].
    destruct (flags_in_range r) as (_ & _ & Hf);
      [by apply (between_range 0 10000)|].
    change (Spec.tenth <$> Some r) with (Some (Spec.tenth r)). rewrite Hf.
    simpl. unfold Models.between_or_null in H3. apply andb_true_iff in H3. lia. }
  unfold outliers_of, count_outliers, missing_of. simpl.
  rewrite E1, E2, E3.
  repeat split.
  - lia.
  - destruct (StoreSpec.max_flag r1), (StoreSpec.min_flag r2); lia.
  - by destruct r1, r2, r3.
Qed.

(** [outliers_on_tenths] at a line of 10.0, 5.0 and no rain. *)
Lemma outliers_on_tenths_example :
  outliers_of (Spec.decoded Spec.new_year_2020 (Some 100) (Some 50) (Some 0)) = 0 + 0
  /\ precip_outlier (precip_mm (Spec.decoded Spec.new_year_2020 (Some 100) (Some 50) (Some 0)))
     = false
  /\ outliers_of (Spec.decoded Spec.new_year_2020 (Some 100) (Some 50) (Some 0)) <= 2
  /\ missing_of (Spec.decoded Spec.new_year_2020 (Some 100) (Some 50) (Some 0))
     = StoreSpec.nulls (Some 100) (Some 50) (Some 0).
Proof.
  apply (outliers_on_tenths Spec.good_line
           (Spec.decoded Spec.new_year_2020 (Some 100) (Some 50) (Some 0)));
    [by vm_compute|reflexivity].
Defined.

End ThresholdProofs.

(** ** Invariants of the fact store *)

Module StoreInvariants.

Import Ingest.

(** An upsert leaves the rows of the other keys, keeps the key of every
    row, and writes no row that breaks a CHECK constraint. *)
Lemma upsert_cases d fact facts :
  (upsert_weather_fact d fact facts).1 = facts
  \/ (Models.check_constraints fact = true
      /\ (upsert_weather_fact d fact facts).1
         = <[Models.primary_key fact := fact]> facts).
Proof.
  destruct (Models.check_constraints fact) eqn:Hck.
  - right. split; [done|]. by rewrite StoreProofs.upsert_checked.
  - left. by apply StoreProofs.refused_write_changes_nothing.
Qed.

Section Runs.

Variable utcnow : nat -> Z.
Variable d : Models.dialect.
Variables source run_id : string.

(** What a run over the lines of one station keeps. *)
Lemma ingest_lines_keeps station lines db n :
  let db' := (ingest_lines utcnow d source run_id station lines db n).1 in
  stations db' = stations db
  /\ (forall k, is_Some (weather_facts db !! k) -> is_Some (weather_facts db' !! k))
  /\ (StoreSpec.keyed (weather_facts db) -> StoreSpec.keyed (weather_facts db'))
  /\ (StoreSpec.checked (weather_facts db) -> StoreSpec.checked (weather_facts db'))
  /\ (is_Some (stations db !! station) -> StoreSpec.stationed db -> StoreSpec.stationed db').
Proof.
  revert db n. induction lines as [|line rest IH]; intros db n; [by simpl|].
  simpl. destruct (strip line); [apply IH|].
  destruct (parse_weather_line line) as [[p|]|e]; [|apply IH|by simpl].
  set (fact := fact_data station source run_id (utcnow (clock_reads db)) p).
  assert (let db1 := with_facts (upsert_weather_fact d fact (weather_facts db)).1
                                (read_clock db) in
          stations db1 = stations db
          /\ (forall k, is_Some (weather_facts db !! k) -> is_Some (weather_facts db1 !! k))
          /\ (StoreSpec.keyed (weather_facts db) -> StoreSpec.keyed (weather_facts db1))
          /\ (StoreSpec.checked (weather_facts db) -> StoreSpec.checked (weather_facts db1))
          /\ (is_Some (stations db !! station) -> StoreSpec.stationed db ->
              StoreSpec.stationed db1)) as Hstep.
  { simpl. destruct (upsert_cases d fact (weather_facts db)) as [->|[Hck ->]].
    - repeat split; try done.
    - repeat split.
      + intros k Hk. destruct (decide (k = Models.primary_key fact)) as [->|Hne].
        * rewrite lookup_insert_eq. eauto.
        * by rewrite lookup_insert_ne.
      + intros Hkeyed k f Hf. apply lookup_insert_Some in Hf as [[<- <-]|[_ Hf]];
          [done|by apply Hkeyed].
      + intros Hchecked k f Hf. apply lookup_insert_Some in Hf as [[_ <-]|[_ Hf]];
          [done|by eapply Hchecked].
      + intros Hst Hstationed k f Hf. simpl in *.
        apply lookup_insert_Some in Hf as [[_ <-]|[_ Hf]]; [done|by eapply Hstationed]. }
  simpl in Hstep. destruct Hstep as (H1 & H2 & H3 & H4 & H5).
  destruct (upsert_weather_fact d fact (weather_facts db)) as [facts [[]|e]] eqn:Hup;
    simpl in *.
  - specialize (IH (with_facts facts (read_clock db)) (n + 1)). simpl in IH.
    destruct IH as (I1 & I2 & I3 & I4 & I5).
    split; [congruence|]. split; [eauto|]. split; [eauto|]. split; [eauto|].
    intros Hst Hstationed. apply I5; [done|by apply H5].
  - done.
Qed.

Lemma ensure_station_keeps station db :
  let db' := ensure_station station db in
  weather_facts db' = weather_facts db
  /\ is_Some (stations db' !! station)
  /\ (forall s row, stations db !! s = Some row -> stations db' !! s = Some row).
Proof.
  unfold ensure_station. destruct (stations db !! station) as [row|] eqn:Hs; simpl.
  - repeat split; eauto.
  - repeat split.
    + rewrite lookup_insert_eq. eauto.
    + intros s row Hrow. rewrite lookup_insert_ne; [done|]. congruence.
Qed.

Lemma ingest_files_keeps files db n :
  let db' := (ingest_files utcnow d source run_id files db n).1 in
  (forall s row, stations db !! s = Some row -> stations db' !! s = Some row)
  /\ (forall k, is_Some (weather_facts db !! k) -> is_Some (weather_facts db' !! k))
  /\ (StoreSpec.keyed (weather_facts db) -> StoreSpec.keyed (weather_facts db'))
  /\ (StoreSpec.checked (weather_facts db) -> StoreSpec.checked (weather_facts db'))
  /\ (StoreSpec.stationed db -> StoreSpec.stationed db').
Proof.
  revert db n. induction files as [|[filename lines] rest IH]; intros db n; [by simpl|].
  simpl. destruct (endswith filename ".txt"); [|apply IH].
  set (station := remove_all ".txt" filename).
  destruct (ensure_station_keeps station db) as (E1 & E2 & E3).
  destruct (ingest_lines_keeps station lines (ensure_station station db) n)
    as (L1 & L2 & L3 & L4 & L5).
  simpl in *. rewrite E1 in L2, L3, L4.
  assert (StoreSpec.stationed db -> StoreSpec.stationed (ensure_station station db))
    as Hst.
  { intros Hs k f Hf. rewrite E1 in Hf. destruct (Hs k f Hf) as [row Hrow]. eauto. }
  destruct (ingest_lines utcnow d source run_id station lines _ n) as [db1 [n1|e]];
    simpl in *.
  - specialize (IH db1 n1). simpl in IH. destruct IH as (I1 & I2 & I3 & I4 & I5).
    split; [intros s row Hrow; apply I1; rewrite L1; by apply E3|].
    split; [eauto|]. split; [eauto|]. split; [eauto|]. eauto.
  - split; [intros s row Hrow; rewrite L1; by apply E3|].
    split; [eauto|]. split; [eauto|]. split; [eauto|]. eauto.
Qed.

End Runs.

(** X5: Whatever the branch and however it ends, [ingest_weather_data] changes
    no station that is in the table and removes no fact row; if every row
    sat at the key of its columns, passed the CHECK constraints and named a
    station of the table before the run, so does every row after it. *)
Theorem ingest_keeps_store_invariants :
  forall utcnow d source run_id files db,
    let db' := (ingest_weather_data utcnow d source run_id files db).1 in
    (forall s row, stations db !! s = Some row -> stations db' !! s = Some row)
    /\ (forall k, is_Some (weather_facts db !! k) -> is_Some (weather_facts db' !! k))
    /\ (StoreSpec.keyed (weather_facts db) -> StoreSpec.keyed (weather_facts db'))
    /\ (StoreSpec.checked (weather_facts db) -> StoreSpec.checked (weather_facts db'))
    /\ (StoreSpec.stationed db -> StoreSpec.stationed db').
Proof. intros. apply ingest_files_keeps. Qed.

(** [ingest_keeps_store_invariants] at the run of a file of two days into
    an empty store. *)
Lemma ingest_keeps_invariants_example :
  StoreSpec.keyed Spec.two_days /\ StoreSpec.checked Spec.two_days.
Proof.
  destruct (ingest_keeps_store_invariants Spec.tick_clock Models.sqlite
              "manual"%string "run-1"%string
              [("S1.txt"%string, [Spec.good_line; Spec.next_day_line])] Spec.empty_store)
    as (_ & _ & Hkeyed & Hchecked & _).
  split; [apply Hkeyed|apply Hchecked]; intros k f Hf; unfold Spec.empty_store in Hf;
    simpl in Hf; by rewrite lookup_empty in Hf.
Defined.

(** *** The last line of a key wins *)

Lemma put_all_lookup ws facts k :
  foldl Spec.put facts ws !! k
  = match StoreSpec.last_write k ws with
    | Some f => Some f
    | None => facts !! k
    end.
Proof.
  unfold StoreSpec.last_write.
  induction ws as [|f ws IH] using rev_ind; [done|].
  rewrite foldl_app, filter_app. simpl. unfold Spec.put at 1.
  rewrite filter_cons, filter_nil.
  destruct (decide (Models.primary_key f = k)) as [<-|Hne].
  - by rewrite lookup_insert_eq, last_snoc.
  - rewrite lookup_insert_ne by done. by rewrite app_nil_r.
Qed.

Lemma apply_writes_count d ws facts n0 facts' n :
  Spec.apply_writes d ws facts n0 = (facts', Return n) ->
  n = n0 + Z.of_nat (length ws).
Proof.
  revert facts n0. induction ws as [|f ws IH]; intros facts n0; simpl.
  - intros [= _ <-]. lia.
  - destruct (upsert_weather_fact d f facts) as [m [[]|e]]; [|done].
    intros Hrest. apply IH in Hrest. lia.
Qed.

Lemma admitted_prefix_all ws :
  length (Spec.admitted_prefix ws) = length ws -> Spec.admitted_prefix ws = ws.
Proof.
  induction ws as [|f ws IH]; [done|]. simpl.
  destruct (Models.check_constraints f); [|done]. simpl.
  intros [= Hlen]. by rewrite IH.
Qed.

(** X6: A run that returns has counted every line it decoded, whatever the
    branch. When its upserts are plain (sqlite, postgresql, or no decoded
    line out of range), each key of a decoded line holds, time stamp apart,
    the fact of the last such line in the order the files were read, and
    the rows of the other keys are as before. *)
Theorem ingest_counts_lines_last_line_wins :
  (forall utcnow d source run_id files db db' n,
      ingest_weather_data utcnow d source run_id files db = (db', Return n) ->
      n = Z.of_nat (length (Spec.directory_facts source run_id files)))
  /\ (forall utcnow d source run_id files db db' n k,
        Spec.plain_upserts d (Spec.directory_facts source run_id files) ->
        ingest_weather_data utcnow d source run_id files db = (db', Return n) ->
        Spec.rows_without_time db' !! k
        = match StoreSpec.last_write k (Spec.directory_facts source run_id files) with
          | Some f => Some f
          | None => Spec.rows_without_time db !! k
          end).
Proof.
  split.
  - intros utcnow d source run_id files db db' n Hrun.
    pose proof (StoreProofs.ingest_files_writes utcnow d source run_id files db 0) as Hw.
    fold (ingest_weather_data utcnow d source run_id files db) in Hw.
    rewrite Hrun in Hw. simpl in Hw. symmetry in Hw.
    apply apply_writes_count in Hw. lia.
  - intros utcnow d source run_id files db db' n k Hplain Hrun.
    pose proof (StoreProofs.ingest_files_writes utcnow d source run_id files db 0) as Hw.
    fold (ingest_weather_data utcnow d source run_id files db) in Hw.
    rewrite Hrun in Hw. simpl in Hw.
    rewrite StoreProofs.plain_writes in Hw by done.
    destruct (length (Spec.admitted_prefix _) =? length _)%nat eqn:Hlen; [|done].
    apply Nat.eqb_eq, admitted_prefix_all in Hlen. rewrite Hlen in Hw.
    injection Hw as -> _. apply put_all_lookup.
Qed.

(** [ingest_counts_lines_last_line_wins] at a file in which the first day
    comes twice: three lines are counted, and the day holds the readings of
    the third line. *)
Lemma last_line_wins_example :
  Spec.rows_without_time
    (ingest_weather_data Spec.tick_clock Models.sqlite "manual" "run-1"
       [("S1.txt"%string, StoreSpec.twice_file)] Spec.empty_store).1
    !! ("S1"%string, Spec.new_year_2020, "manual"%string)
  = match StoreSpec.last_write ("S1"%string, Spec.new_year_2020, "manual"%string)
            (Spec.directory_facts "manual" "run-1"
               [("S1.txt"%string, StoreSpec.twice_file)]) with
    | Some f => Some f
    | None => Spec.rows_without_time Spec.empty_store
                !! ("S1"%string, Spec.new_year_2020, "manual"%string)
    end.
Proof.
  apply (proj2 ingest_counts_lines_last_line_wins Spec.tick_clock Models.sqlite
           "manual"%string "run-1"%string
           [("S1.txt"%string, StoreSpec.twice_file)] Spec.empty_store _ 3);
    [left; discriminate|by vm_compute].
Defined.

End StoreInvariants.

(** ** answers/ingest_weather.py: a second run *)

Module RerunProofs.

Import IngestWeather.

Section Passes.

Variable decoder : string -> result (option raw_record).
Variable station_id : string.

(** An insert adds at most one row. *)
Lemma INSERT_SQL_size data weather :
  (size (INSERT_SQL station_id data weather).1 <= S (size weather))%nat.
Proof.
  unfold INSERT_SQL. destruct (_ && _); [|simpl; lia].
  destruct (weather !! (station_id, rec_date data)) eqn:Hrow; simpl; [lia|].
  rewrite map_size_insert_None by done. lia.
Qed.

Lemma insert_lines_size lines fault weather count weather' n :
  insert_lines decoder station_id lines fault weather count = (weather', Return n) ->
  count <= n /\ Z.of_nat (size weather') <= Z.of_nat (size weather) + (n - count).
Proof.
  revert fault weather count.
  induction lines as [|line rest IH]; intros fault weather count.
  - destruct fault as [[|?]|]; simpl; intros [= <- <-]; lia.
  - simpl. destruct fault as [[|j]|]; [done|..];
      (destruct (decoder line) as [[data|]|e]; [|by apply IH|done];
       pose proof (INSERT_SQL_size data weather) as Hsize;
       destruct (INSERT_SQL station_id data weather) as [w [[]|e]]; [|done];
       intros Hrest; apply IH in Hrest; simpl in Hsize; lia).
Qed.

(** A full pass that returned changes nothing on a table that has the keys
    of the table it left, and counts the same lines there. *)
Lemma insert_lines_settled lines weather weather' count n :
  insert_lines decoder station_id lines None weather count = (weather', Return n) ->
  forall settled count0,
    (forall k, is_Some (weather' !! k) -> is_Some (settled !! k)) ->
    insert_lines decoder station_id lines None settled count0
    = (settled, Return (count0 + (n - count))).
Proof.
  revert weather count.
  induction lines as [|line rest IH]; intros weather count Hrun settled count0 Hkeys.
  - simpl in *. injection Hrun as <- <-. do 2 f_equal. lia.
  - simpl in *. destruct (decoder line) as [[data|]|e] eqn:Hdec; [|by eapply IH|done].
    destruct (INSERT_SQL station_id data weather) as [w1 [[]|e]] eqn:Hins; [|done].
    assert ((INSERT_SQL station_id data weather).2 = Return tt) as Hok by by rewrite Hins.
    assert (is_Some (settled !! (station_id, rec_date data))) as Hthere.
    { apply Hkeys. destruct (SweepProofs.INSERT_SQL_taken station_id data weather Hok)
        as [v Hv].
      rewrite Hins in Hv. simpl in Hv. exists v.
      pose proof (SweepProofs.insert_lines_keeps decoder station_id rest None w1
                    (count + 1) _ v Hv) as Hkept.
      by rewrite Hrun in Hkept. }
    rewrite (SweepProofs.INSERT_SQL_again station_id data weather settled Hok Hthere).
    rewrite (IH w1 (count + 1) Hrun settled (count0 + 1) Hkeys). do 2 f_equal. lia.
Qed.

(** A pass that returned met no read fault: it is the pass without one. *)
Lemma insert_lines_no_fault lines fault weather count weather' n :
  insert_lines decoder station_id lines fault weather count = (weather', Return n) ->
  insert_lines decoder station_id lines None weather count = (weather', Return n).
Proof.
  revert fault weather count.
  induction lines as [|line rest IH]; intros fault weather count.
  - by destruct fault as [[|?]|].
  - simpl. destruct fault as [[|j]|]; [done|..];
      (destruct (decoder line) as [[data|]|e]; [|by apply IH|done];
       destruct (INSERT_SQL station_id data weather) as [w [[]|e]]; [by apply IH|done]).
Qed.

End Passes.

Lemma ingest_dir_keeps faults files weather total k v :
  weather !! k = Some v -> (ingest_dir faults files weather total).1 !! k = Some v.
Proof.
  revert weather total. induction files as [|[filename lines] rest IH];
    intros weather total Hk; [done|].
  simpl. destruct (endswith filename ".txt"); [|by apply IH].
  unfold ingest_file.
  pose proof (SweepProofs.insert_lines_keeps parse_line (splitext_root filename) lines
                (faults filename) weather 0 k v Hk) as Hkept.
  destruct (insert_lines _ _ lines (faults filename) weather 0) as [w [c|e]];
    [by apply IH|done].
Qed.

Lemma ingest_dir_size faults files weather total weather' n :
  ingest_dir faults files weather total = (weather', Return n) ->
  Z.of_nat (size weather') <= Z.of_nat (size weather) + (n - total).
Proof.
  revert weather total. induction files as [|[filename lines] rest IH];
    intros weather total; [simpl; intros [= <- <-]; lia|].
  simpl. destruct (endswith filename ".txt"); [|by apply IH].
  unfold ingest_file.
  destruct (insert_lines _ _ lines (faults filename) weather 0) as [w [c|e]] eqn:Hfile;
    [|done].
  apply insert_lines_size in Hfile. intros Hrest. apply IH in Hrest. lia.
Qed.

(** A run that returned met no read fault: it is the run without one. *)
Lemma ingest_dir_no_fault faults files weather total weather' n :
  ingest_dir faults files weather total = (weather', Return n) ->
  ingest_dir Spec.no_faults files weather total = (weather', Return n).
Proof.
  revert weather total. induction files as [|[filename lines] rest IH];
    intros weather total; [done|].
  simpl. destruct (endswith filename ".txt"); [|by apply IH].
  unfold ingest_file, Spec.no_faults at 1.
  destruct (insert_lines _ _ lines (faults filename) weather 0) as [w [c|e]] eqn:Hfile;
    [|done].
  rewrite (insert_lines_no_fault _ _ _ _ _ _ _ _ Hfile). apply IH.
Qed.

Lemma ingest_dir_settled files weather weather' total n :
  ingest_dir Spec.no_faults files weather total = (weather', Return n) ->
  forall settled total0,
    (forall k, is_Some (weather' !! k) -> is_Some (settled !! k)) ->
    ingest_dir Spec.no_faults files settled total0
    = (settled, Return (total0 + (n - total))).
Proof.
  revert weather total. induction files as [|[filename lines] rest IH];
    intros weather total Hrun settled total0 Hkeys.
  - simpl in *. injection Hrun as <- <-. do 2 f_equal. lia.
  - simpl in *. destruct (endswith filename ".txt"); [|by eapply IH].
    unfold ingest_file, Spec.no_faults in *.
    destruct (insert_lines _ _ lines None weather 0) as [w1 [c|e]] eqn:Hfile; [|done].
    rewrite (insert_lines_settled _ _ _ _ _ _ _ Hfile settled 0).
    + rewrite (IH w1 (total + c) Hrun settled (total0 + (0 + (c - 0))) Hkeys).
      do 2 f_equal. lia.
    + intros k [v Hv]. apply Hkeys. exists v.
      pose proof (ingest_dir_keeps (fun _ => None) rest w1 (total + c) k v Hv) as Hkept.
      by rewrite Hrun in Hkept.
Qed.

(** X7: A run of answers/ingest_weather.py, whatever reads fail in it,
    changes and removes no row that is in the table; a run that raises
    leaves the table as it was; a run that returns has counted at least
    the rows it added, and a second run over the same files in which no
    read fails then leaves the table as the first left it and returns the
    same count. *)
Theorem ingest_weather_rerun_adds_nothing :
  (forall faults files weather k v,
      weather !! k = Some v -> (main faults files weather).1 !! k = Some v)
  /\ (forall faults files weather e,
        (main faults files weather).2 = Raise e ->
        (main faults files weather).1 = weather)
  /\ (forall faults files weather weather' n,
        main faults files weather = (weather', Return n) ->
        Z.of_nat (size weather') <= Z.of_nat (size weather) + n
        /\ main Spec.no_faults files weather' = (weather', Return n)).
Proof.
  split; [|split].
  - intros faults files weather k v Hk. unfold main.
    pose proof (ingest_dir_keeps faults files weather 0 k v Hk) as Hkept.
    by destruct (ingest_dir faults files weather 0) as [w [n|e]].
  - intros faults files weather e. unfold main.
    by destruct (ingest_dir faults files weather 0) as [w [n|e']].
  - intros faults files weather weather' n. unfold main.
    destruct (ingest_dir faults files weather 0) as [w [c|e]] eqn:Hrun; [|done].
    intros [= <- <-]. split.
    + apply ingest_dir_size in Hrun. lia.
    + apply ingest_dir_no_fault in Hrun.
      rewrite (ingest_dir_settled files weather w 0 c Hrun w 0) by done.
      do 2 f_equal. lia.
Qed.

(** [ingest_weather_rerun_adds_nothing] at a directory with one file of two
    days, and at a file with a date that does not parse. *)
Lemma ingest_weather_rerun_example :
  (main Spec.no_faults [("S1.txt"%string, [Spec.good_line; Spec.next_day_line])]
        (main Spec.no_faults
              [("S1.txt"%string, [Spec.good_line; Spec.next_day_line])] ∅).1
   = ((main Spec.no_faults
            [("S1.txt"%string, [Spec.good_line; Spec.next_day_line])] ∅).1, Return 2))
  /\ (main Spec.no_faults
            [("S1.txt"%string, [Spec.good_line; Spec.dashed_date_line])] ∅).1 = ∅.
Proof.
  split.
  - apply (proj2 (proj2 ingest_weather_rerun_adds_nothing) Spec.no_faults
             [("S1.txt"%string, [Spec.good_line; Spec.next_day_line])] ∅).
    rewrite (surjective_pairing
               (main Spec.no_faults
                     [("S1.txt"%string, [Spec.good_line; Spec.next_day_line])] ∅)) at 1.
    f_equal.
  - apply (proj1 (proj2 ingest_weather_rerun_adds_nothing) Spec.no_faults
             [("S1.txt"%string, [Spec.good_line; Spec.dashed_date_line])] ∅ ValueError).
    by vm_compute.
Defined.

End RerunProofs.

(** ** answers/etl_runner.py: what a sweep leaves alone *)

Module SweepSafety.

Import EtlRunner.

Lemma sweep_file_rows faults file st totals k v :
  weather st !! k = Some v -> weather (sweep_file faults file st totals).1 !! k = Some v.
Proof.
  intros Hk. rewrite SweepProofs.sweep_file_weather.
  destruct (endswith file ".txt"); [|done].
  destruct (watch_dir st !! file); [|done].
  by apply SweepProofs.insert_lines_keeps.
Qed.

Lemma sweep_rows faults files st totals k v :
  weather st !! k = Some v -> weather (sweep faults files st totals).1 !! k = Some v.
Proof.
  revert st totals. induction files as [|file rest IH]; intros st totals Hk; [done|].
  simpl. pose proof (sweep_file_rows faults file st totals k v Hk) as Hk1.
  destruct (sweep_file faults file st totals) as [st1 totals1]. by apply IH.
Qed.

(** A name that does not end in .txt is passed over, wherever it stands. *)
Lemma sweep_passes_over faults files st totals name :
  endswith name ".txt" = false ->
  watch_dir (sweep faults files st totals).1 !! name = watch_dir st !! name
  /\ archive_dir (sweep faults files st totals).1 !! name = archive_dir st !! name.
Proof.
  intros Htxt. revert st totals. induction files as [|file rest IH]; intros st totals;
    [done|].
  simpl. destruct (decide (name = file)) as [->|Hne].
  - unfold sweep_file. rewrite Htxt. apply IH.
  - pose proof (SweepProofs.sweep_file_other faults file st totals name Hne) as [Hw Ha].
    destruct (sweep_file faults file st totals) as [st1 totals1]. simpl in *.
    destruct (IH st1 totals1) as [Hw' Ha']. by rewrite Hw', Ha'.
Qed.

(** The files counted are the files that left the watch directory, and no
    count goes down. *)
Lemma sweep_file_counts faults file st totals :
  let r := sweep_file faults file st totals in
  r.2.1 + Z.of_nat (size (watch_dir r.1)) = totals.1 + Z.of_nat (size (watch_dir st))
  /\ totals.2 <= r.2.2.
Proof.
  unfold sweep_file. destruct (endswith file ".txt"); [|simpl; lia].
  destruct (watch_dir st !! file) as [lines|] eqn:Hw; [|simpl; lia].
  unfold process_file.
  destruct (insert_lines _ _ lines (faults file) (weather st) 0) as [w [c|e]] eqn:Hpass;
    simpl; [|lia].
  apply RerunProofs.insert_lines_size in Hpass.
  pose proof (map_size_delete_Some file (watch_dir st) (ltac:(eauto))).
  assert (size (watch_dir st) <> 0)%nat.
  { intros Hz. apply map_size_empty_iff in Hz. rewrite Hz in Hw. done. }
  lia.
Qed.

Lemma sweep_counts faults files st totals :
  let r := sweep faults files st totals in
  r.2.1 + Z.of_nat (size (watch_dir r.1)) = totals.1 + Z.of_nat (size (watch_dir st))
  /\ totals.2 <= r.2.2.
Proof.
  revert st totals. induction files as [|file rest IH]; intros st totals; [simpl; lia|].
  simpl. pose proof (sweep_file_counts faults file st totals) as Hturn.
  destruct (sweep_file faults file st totals) as [st1 totals1]. simpl in Hturn.
  specialize (IH st1 totals1). simpl in IH. lia.
Qed.

(** X8: A sweep of answers/etl_runner.py, whatever reads fail in it: no row of
    the table is changed or removed; every file of the watch directory is
    afterwards either where it was, the archive entry of its name untouched,
    or in the archive with its lines and gone from the watch directory; a
    file whose name does not end in .txt stays; nothing appears in the
    watch directory and the archive entries of other names stay; the number
    of files the sweep reports is the number of files that left the watch
    directory, and the number of records it reports is not negative. *)
Theorem sweep_loses_nothing :
  forall faults st,
    let st' := (main faults st).1 in
    (forall k v, weather st !! k = Some v -> weather st' !! k = Some v)
    /\ (forall name lines,
          watch_dir st !! name = Some lines ->
          (watch_dir st' !! name = Some lines
           /\ archive_dir st' !! name = archive_dir st !! name)
          \/ (watch_dir st' !! name = None /\ archive_dir st' !! name = Some lines))
    /\ (forall name lines,
          watch_dir st !! name = Some lines -> endswith name ".txt" = false ->
          watch_dir st' !! name = Some lines)
    /\ (forall name,
          watch_dir st !! name = None ->
          watch_dir st' !! name = None
          /\ archive_dir st' !! name = archive_dir st !! name)
    /\ (main faults st).2.1
       = Z.of_nat (size (watch_dir st)) - Z.of_nat (size (watch_dir st'))
    /\ 0 <= (main faults st).2.2.
Proof.
  intros faults st. simpl. unfold main.
  split; [intros k v; apply sweep_rows|].
  split.
  { intros name lines Hw. destruct (endswith name ".txt") eqn:Htxt.
    - pose proof (SweepProofs.sweep_own faults (listdir (watch_dir st)) st (0, 0)
                    name lines) as Hown.
      simpl in Hown.
      destruct (Spec.completes name lines (faults name)); [right|left];
        (apply Hown; [apply NoDup_fst_map_to_list|apply SweepProofs.elem_of_listdir; eauto
                     |done..]).
    - left. destruct (sweep_passes_over faults (listdir (watch_dir st)) st (0, 0) name Htxt)
        as [-> ->]. done. }
  split.
  { intros name lines Hw Htxt.
    by destruct (sweep_passes_over faults (listdir (watch_dir st)) st (0, 0) name Htxt)
      as [-> _]. }
  split.
  { intros name Hw.
    destruct (SweepProofs.sweep_other faults (listdir (watch_dir st)) st (0, 0) name)
      as [-> ->]; [|done].
    intros Hin. apply SweepProofs.elem_of_listdir in Hin as [ls Hls]. congruence. }
  pose proof (sweep_counts faults (listdir (watch_dir st)) st (0, 0)) as Hc.
  simpl in Hc. lia.
Qed.

(** [sweep_loses_nothing] at a sweep in which the second read of S1.txt
    fails: the file is still in the watch directory, with its lines. *)
Lemma sweep_loses_nothing_example :
  (watch_dir (main Spec.fault_in_S1 Spec.two_files).1 !! "S1.txt"%string
   = Some [Spec.good_line; Spec.next_day_line]
   /\ archive_dir (main Spec.fault_in_S1 Spec.two_files).1 !! "S1.txt"%string
      = archive_dir Spec.two_files !! "S1.txt"%string)
  \/ (watch_dir (main Spec.fault_in_S1 Spec.two_files).1 !! "S1.txt"%string = None
      /\ archive_dir (main Spec.fault_in_S1 Spec.two_files).1 !! "S1.txt"%string
         = Some [Spec.good_line; Spec.next_day_line]).
Proof.
  apply (proj1 (proj2 (sweep_loses_nothing Spec.fault_in_S1 Spec.two_files))
           "S1.txt"%string [Spec.good_line; Spec.next_day_line]).
  reflexivity.
Defined.

End SweepSafety.

(** ** Summaries and roll-ups *)

Module SummaryProofs.

Import AggregateStats.

(** The state of a group after a scan of the answers' table: the steps of
    its complete rows, in order. *)
Lemma scan_groups rows groups g :
  foldl scan_row groups rows !! g
  = match filter (fun kr => selected kr.2 = true /\ (kr.1.1, year kr.1.2) = g) rows with
    | [] => groups !! g
    | group => Some (foldl group_step (default group_init (groups !! g)) group.*2)
    end.
Proof.
  revert groups. induction rows as [|kr rows IH]; intros groups; [done|].
  simpl. rewrite IH, filter_cons. unfold scan_row.
  destruct (decide (selected kr.2 = true /\ (kr.1.1, year kr.1.2) = g)) as [[Hsel <-]|Hno].
  - rewrite Hsel, lookup_insert_eq. simpl. by destruct (filter _ rows).
  - destruct (selected kr.2) eqn:Hsel; [|done].
    rewrite lookup_insert_ne; [done|]. intros Heq. by apply Hno.
Qed.

Lemma complete_steps rows g :
  Forall (fun r => selected r = true) rows ->
  foldl group_step g rows
  = mkgroup
      (mkiacc (iacc_sum (g_max g) + SummarySpec.column_sum w_max_temp_c rows)
              (iacc_cnt (g_max g) + Z.of_nat (length rows)))
      (mkiacc (iacc_sum (g_min g) + SummarySpec.column_sum w_min_temp_c rows)
              (iacc_cnt (g_min g) + Z.of_nat (length rows)))
      (mkiacc (iacc_sum (g_precip g) + SummarySpec.column_sum w_precipitation_mm rows)
              (iacc_cnt (g_precip g) + Z.of_nat (length rows))).
Proof.
  intros Hall. revert g. induction Hall as [|r rows Hsel Hall IH]; intros [[] [] []].
  - simpl. by rewrite !Z.add_0_r.
  - simpl foldl. rewrite IH. unfold selected in Hsel.
    destruct r as [[a|] [b|] [c|]]; try done. simpl.
    f_equal; f_equal; lia.
Qed.

Lemma complete_summary r rows :
  Forall (fun r => selected r = true) (r :: rows) ->
  group_final (foldl group_step group_init (r :: rows)) = SummarySpec.summary_of (r :: rows).
Proof.
  intros Hall. rewrite (complete_steps _ _ Hall).
  unfold group_final, iavg_final, isum_final, SummarySpec.summary_of.
  cbn [group_init g_max g_min g_precip iacc_sum iacc_cnt]. rewrite !Z.add_0_l.
  destruct (Z.eqb_spec (Z.of_nat (length (r :: rows))) 0) as [Hz|_]; [simpl in Hz; lia|].
  done.
Qed.

Lemma select_summary_lookup weather g :
  select_summary weather !! g
  = match SummarySpec.complete_rows g weather with
    | [] => None
    | rows => Some (SummarySpec.summary_of rows)
    end.
Proof.
  unfold select_summary, SummarySpec.complete_rows.
  rewrite lookup_fmap, scan_groups, lookup_empty.
  set (group := filter _ (map_to_list weather)).
  assert (Forall (fun r => selected r = true) group.*2) as Hall.
  { apply Forall_fmap, Forall_forall. intros kr Hin.
    by apply list_elem_of_filter in Hin as [[Hsel _] _]. }
  destruct group as [|kr group]; [done|].
  simpl. f_equal. by apply (complete_summary kr.2 group.*2).
Qed.

(** X9: answers/aggregate_stats.py, on a table whose sums are exact (the
    magnitudes of each column of the rows with all three readings add up
    to 2 ^ 53 at most, so that no sum of SQLite overflows or rounds):
    after a run the summary of a station-year that has a row with all
    three readings is the summary of those rows, none of its three
    metrics null, and the summary rows of the other keys are the ones the
    table held; a second run over the same table changes nothing. In any
    table a station-year has such a row exactly when some day of the year
    has all three readings for the station. *)
Theorem summary_covers_complete_rows :
  (forall weather weather_summary g,
      SummarySpec.sums_exact weather ->
      main weather weather_summary !! g
      = match SummarySpec.complete_rows g weather with
        | [] => weather_summary !! g
        | rows => Some (SummarySpec.summary_of rows)
        end)
  /\ (forall weather station y,
        SummarySpec.complete_rows (station, y) weather <> []
        <-> exists d r, weather !! (station, d) = Some r /\ year d = y
                        /\ selected r = true)
  /\ (forall weather weather_summary,
        SummarySpec.sums_exact weather ->
        main weather (main weather weather_summary) = main weather weather_summary).
Proof.
  split; [|split].
  - intros weather weather_summary g _. unfold main.
    rewrite lookup_union, select_summary_lookup.
    destruct (SummarySpec.complete_rows g weather); [by rewrite (left_id None _)|].
    by destruct (weather_summary !! g).
  - intros weather station y. unfold SummarySpec.complete_rows. split.
    + intros Hne.
      destruct (filter _ (map_to_list weather)) as [|[[s d] r] rest] eqn:Hf; [done|].
      assert (((s, d), r) ∈ filter
                (fun kr => selected kr.2 = true /\ (kr.1.1, year kr.1.2) = (station, y))
                (map_to_list weather)) as Hin by (rewrite Hf; left).
      apply list_elem_of_filter in Hin as [[Hsel [= -> <-]] Hin].
      apply elem_of_map_to_list in Hin. eauto.
    + intros (d & r & Hrow & <- & Hsel) Hnil.
      apply fmap_nil_inv in Hnil.
      assert (((station, d), r) ∈ filter
                (fun kr => selected kr.2 = true /\ (kr.1.1, year kr.1.2) = (station, year d))
                (map_to_list weather)) as Hin.
      { apply list_elem_of_filter. split; [done|]. by apply elem_of_map_to_list. }
      rewrite Hnil in Hin. by apply elem_of_nil in Hin.
  - intros weather weather_summary _. unfold main.
    by rewrite (assoc_L _), (idemp_L _).
Qed.

(** [summary_covers_complete_rows] at a table of two days of which the
    second alone has all three readings. *)
Lemma summary_covers_example :
  SummarySpec.complete_rows ("S1"%string, 2020) Spec.half_null_table <> []
  /\ main Spec.half_null_table ∅ !! ("S1"%string, 2020)
     = match SummarySpec.complete_rows ("S1"%string, 2020) Spec.half_null_table with
       | [] => (∅ : gmap (string * Z) summary_row) !! ("S1"%string, 2020)
       | rows => Some (SummarySpec.summary_of rows)
       end
  /\ main Spec.half_null_table (main Spec.half_null_table ∅)
     = main Spec.half_null_table ∅.
Proof.
  assert (SummarySpec.sums_exact Spec.half_null_table) as Hexact.
  { unfold SummarySpec.sums_exact. by vm_compute. }
  split; [|split].
  - apply (proj2 (proj1 (proj2 summary_covers_complete_rows)
                    Spec.half_null_table "S1"%string 2020)).
    exists (mkdate 2020 1 2), (mkrow (Some 200) (Some 50) (Some 0)).
    split; [|split]; reflexivity.
  - by apply (proj1 summary_covers_complete_rows).
  - by apply (proj2 (proj2 summary_covers_complete_rows)).
Defined.

End SummaryProofs.

Module RollupProofs.

Import Analyze.

Section Counts.

Context {K : Type} `{Countable K}.
Variable group_key : Models.WeatherFact -> K.

Lemma count_of_group rows g :
  SummarySpec.count_of (group_by group_key rows !! g)
  = Z.of_nat (length (Spec.rows_of_group group_key g rows)).
Proof.
  rewrite AggregationProofs.group_by_lookup.
  by destruct (Spec.rows_of_group group_key g rows).
Qed.

End Counts.

Lemma quarter_of_month d q : quarter d = q <-> 3 * q - 2 <= month d <= 3 * q.
Proof. unfold quarter. split; intros; Z.div_mod_to_equations; lia. Qed.

(** Rows that fall in one of two classes, never in both, are counted by
    the classes. *)
Lemma length_filter_split {A} (P Q R : A -> Prop)
    `{forall x, Decision (P x)} `{forall x, Decision (Q x)} `{forall x, Decision (R x)}
    (l : list A) :
  Forall (fun x => (P x <-> Q x \/ R x) /\ ~ (Q x /\ R x)) l ->
  length (filter P l) = (length (filter Q l) + length (filter R l))%nat.
Proof.
  induction 1 as [|x l [Hiff Hnot] Hall IH]; [done|].
  rewrite !filter_cons. repeat case_decide; simpl; rewrite IH; try lia; tauto.
Qed.

(** The rows of a quarter are the rows of its three months. *)
Lemma quarter_rows rows s y q :
  length (Spec.rows_of_group quarterly_key (s, y, q) rows)
  = (length (Spec.rows_of_group monthly_key (s, y, (3 * q - 2)%Z) rows)
     + length (Spec.rows_of_group monthly_key (s, y, (3 * q - 1)%Z) rows)
     + length (Spec.rows_of_group monthly_key (s, y, (3 * q)%Z) rows))%nat.
Proof.
  unfold Spec.rows_of_group.
  rewrite (length_filter_split (fun f => quarterly_key f = (s, y, q))
             (fun f => monthly_key f = (s, y, 3 * q - 2)
                       \/ monthly_key f = (s, y, 3 * q - 1))
             (fun f => monthly_key f = (s, y, 3 * q))).
  - by rewrite (length_filter_split
                  (fun f => monthly_key f = (s, y, 3 * q - 2)
                            \/ monthly_key f = (s, y, 3 * q - 1))
                  (fun f => monthly_key f = (s, y, 3 * q - 2))
                  (fun f => monthly_key f = (s, y, 3 * q - 1)))
      by (apply Forall_forall; intros f _; unfold monthly_key; split;
          [done|intros [? ?]; simplify_eq; lia]).
  - apply Forall_forall. intros f _. unfold quarterly_key, monthly_key.
    pose proof (quarter_of_month (Models.observation_date f) q) as Hq.
    split; [split|].
    + intros [= <- <- Hquarter]. apply Hq in Hquarter.
      assert (month (Models.observation_date f) = 3 * q - 2
              \/ month (Models.observation_date f) = 3 * q - 1
              \/ month (Models.observation_date f) = 3 * q) as [-> | [-> | ->]] by lia; auto.
    + intros [[[= <- <- Hm]|[= <- <- Hm]]|[= <- <- Hm]]; f_equal; apply Hq; lia.
    + intros [[?|?] ?]; simplify_eq; lia.
Qed.

(** The rows of a year are the rows of its four quarters. *)
Lemma year_rows rows s y :
  Forall (fun f => 1 <= month (Models.observation_date f) <= 12) rows ->
  length (Spec.rows_of_group annual_key (s, y) rows)
  = (length (Spec.rows_of_group quarterly_key (s, y, 1%Z) rows)
     + length (Spec.rows_of_group quarterly_key (s, y, 2%Z) rows)
     + length (Spec.rows_of_group quarterly_key (s, y, 3%Z) rows)
     + length (Spec.rows_of_group quarterly_key (s, y, 4%Z) rows))%nat.
Proof.
  intros Hmonths. unfold Spec.rows_of_group.
  rewrite (length_filter_split (fun f => annual_key f = (s, y))
             (fun f => (quarterly_key f = (s, y, 1) \/ quarterly_key f = (s, y, 2))
                       \/ quarterly_key f = (s, y, 3))
             (fun f => quarterly_key f = (s, y, 4))).
  - rewrite (length_filter_split
               (fun f => (quarterly_key f = (s, y, 1) \/ quarterly_key f = (s, y, 2))
                         \/ quarterly_key f = (s, y, 3))
               (fun f => quarterly_key f = (s, y, 1) \/ quarterly_key f = (s, y, 2))
               (fun f => quarterly_key f = (s, y, 3)))
      by (apply Forall_forall; intros f _; unfold quarterly_key; split;
          [done|intros [[?|?] ?]; simplify_eq; lia]).
    by rewrite (length_filter_split
                  (fun f => quarterly_key f = (s, y, 1) \/ quarterly_key f = (s, y, 2))
                  (fun f => quarterly_key f = (s, y, 1))
                  (fun f => quarterly_key f = (s, y, 2)))
      by (apply Forall_forall; intros f _; unfold quarterly_key; split;
          [done|intros [? ?]; simplify_eq; lia]).
  - eapply Forall_impl; [apply Hmonths|]. intros f Hm. simpl in Hm.
    unfold quarterly_key, annual_key.
    assert (1 <= quarter (Models.observation_date f) <= 4) as Hq.
    { unfold quarter. Z.div_mod_to_equations. lia. }
    split; [split|].
    + intros [= <- <-].
      assert (quarter (Models.observation_date f) = 1
              \/ quarter (Models.observation_date f) = 2
              \/ quarter (Models.observation_date f) = 3
              \/ quarter (Models.observation_date f) = 4) as [-> | [-> | [-> | ->]]] by lia;
        auto.
    + intros [[[[= <- <- _]|[= <- <- _]]|[= <- <- _]]|[= <- <- _]]; done.
    + intros [[[?|?]|?] ?]; simplify_eq; lia.
Qed.

(** X10: src/analyze.py: the record count of a quarter is the sum of the record
    counts of its three months, a group that is absent counting 0; when
    every row of the table has a month from 1 to 12, the record count of a
    station-year is the sum of the record counts of its four quarters. *)
Theorem counts_roll_up :
  (forall facts s y q,
      SummarySpec.count_of (quarterly_weather_aggregation facts !! (s, y, q))
      = SummarySpec.count_of (monthly_weather_aggregation facts !! (s, y, 3 * q - 2))
        + SummarySpec.count_of (monthly_weather_aggregation facts !! (s, y, 3 * q - 1))
        + SummarySpec.count_of (monthly_weather_aggregation facts !! (s, y, 3 * q)))
  /\ (forall facts s y,
        SummarySpec.months_in_range facts ->
        SummarySpec.count_of (annual_weather_aggregation facts !! (s, y))
        = SummarySpec.count_of (quarterly_weather_aggregation facts !! (s, y, 1))
          + SummarySpec.count_of (quarterly_weather_aggregation facts !! (s, y, 2))
          + SummarySpec.count_of (quarterly_weather_aggregation facts !! (s, y, 3))
          + SummarySpec.count_of (quarterly_weather_aggregation facts !! (s, y, 4))).
Proof.
  split.
  - intros facts s y q.
    unfold quarterly_weather_aggregation, monthly_weather_aggregation.
    rewrite !count_of_group, quarter_rows. lia.
  - intros facts s y Hmonths.
    unfold quarterly_weather_aggregation, annual_weather_aggregation.
    rewrite !count_of_group, year_rows; [lia|].
    apply Forall_forall. intros f Hin. unfold table_scan in Hin.
    apply list_elem_of_fmap in Hin as [[k f'] [-> Hin]].
    apply elem_of_map_to_list in Hin. by apply (Hmonths k).
Qed.

(** [counts_roll_up] at the table of two days of January 2020. *)
Lemma counts_roll_up_example :
  SummarySpec.count_of (annual_weather_aggregation Spec.two_days !! ("S1"%string, 2020))
  = SummarySpec.count_of
      (quarterly_weather_aggregation Spec.two_days !! ("S1"%string, 2020, 1))
    + SummarySpec.count_of
        (quarterly_weather_aggregation Spec.two_days !! ("S1"%string, 2020, 2))
    + SummarySpec.count_of
        (quarterly_weather_aggregation Spec.two_days !! ("S1"%string, 2020, 3))
    + SummarySpec.count_of
        (quarterly_weather_aggregation Spec.two_days !! ("S1"%string, 2020, 4)).
Proof.
  apply (proj2 counts_roll_up Spec.two_days "S1"%string 2020).
  apply (bool_decide_unpack
           (map_Forall (fun _ f => 1 <= month (Models.observation_date f) <= 12)
                       Spec.two_days)).
  by vm_compute.
Defined.

End RollupProofs.

(** ** Dates and file names *)

Module NameProofs.

Import NameSpec.

Lemma digit_char_reads k :
  0 <= k <= 9 -> isdigit (digit_char k) = true /\ digit_value (digit_char k) = k.
Proof.
  intros Hk.
  assert (k = 0 \/ k = 1 \/ k = 2 \/ k = 3 \/ k = 4 \/ k = 5 \/ k = 6 \/ k = 7 \/ k = 8
          \/ k = 9) as Hcases by lia.
  repeat (destruct Hcases as [->|Hcases]; [by vm_compute|]). subst. by vm_compute.
Qed.

Lemma match_Y_four_digits y rest :
  0 <= y <= 9999 -> match_Y (four_digits y +:+ rest) = Some (y, rest).
Proof.
  intros Hy. unfold four_digits, two_digits. simpl.
  destruct (digit_char_reads (y / 1000)) as [-> ->]; [Z.div_mod_to_equations; lia|].
  destruct (digit_char_reads (y / 100 mod 10)) as [-> ->]; [Z.div_mod_to_equations; lia|].
  destruct (digit_char_reads (y mod 100 / 10)) as [-> ->]; [Z.div_mod_to_equations; lia|].
  destruct (digit_char_reads (y mod 100 mod 10)) as [-> ->]; [Z.div_mod_to_equations; lia|].
  simpl. do 2 f_equal. Z.div_mod_to_equations. lia.
Qed.

Lemma months_and_days_checked :
  StoreSpec.holds_from
    (fun m => StoreSpec.holds_from (reads_month_day m) 1 31) 1 12 = true.
Proof. by vm_compute. Qed.

Lemma month_day_read m d :
  1 <= m <= 12 -> 1 <= d <= 31 ->
  first_md (match_m (two_digits m +:+ two_digits d)) = Some (m, d, EmptyString).
Proof.
  intros Hm Hd.
  pose proof (ThresholdProofs.holds_from_at _ 1 12 m months_and_days_checked
                ltac:(lia)) as Hdays.
  pose proof (ThresholdProofs.holds_from_at _ 1 31 d Hdays ltac:(lia)) as Hread.
  unfold reads_month_day in Hread.
  destruct (first_md _) as [[[m' d'] [|? ?]]|]; try done.
  apply andb_true_iff in Hread as [Hm' Hd'].
  apply Z.eqb_eq in Hm', Hd'. by subst.
Qed.

Lemma days_in_month_at_most y m : days_in_month y m <= 31.
Proof.
  unfold days_in_month.
  destruct (m =? 2); [by destruct (is_leap y)|]. by destruct (_ || _).
Qed.

Lemma strptime_Ymd_reads_back d :
  calendar_day d -> strptime_Ymd (Ymd d) = Return d.
Proof.
  intros (Hy & Hm & Hd). destruct d as [y m dd]. simpl in *.
  unfold strptime_Ymd, Ymd. simpl year. simpl month. simpl day.
  rewrite match_Y_four_digits by lia.
  pose proof (days_in_month_at_most y m).
  rewrite month_day_read by lia.
  unfold make_date.
  replace (1 <=? y) with true by (symmetry; apply Z.leb_le; lia).
  replace (y <=? 9999) with true by (symmetry; apply Z.leb_le; lia).
  replace (1 <=? m) with true by (symmetry; apply Z.leb_le; lia).
  replace (m <=? 12) with true by (symmetry; apply Z.leb_le; lia).
  replace (1 <=? dd) with true by (symmetry; apply Z.leb_le; lia).
  replace (dd <=? days_in_month y m) with true by (symmetry; apply Z.leb_le; lia).
  done.
Qed.

(** X11: The date of a line: [strptime] reads back every day of the calendar
    written as YYYYMMDD, leap days included, and whatever it returns is a
    day of the calendar. *)
Theorem strptime_reads_calendar_days :
  (forall d, calendar_day d -> strptime_Ymd (Ymd d) = Return d)
  /\ (forall s d, strptime_Ymd s = Return d -> calendar_day d).
Proof.
  split; [apply strptime_Ymd_reads_back|].
  intros s d. apply DecoderAgreement.strptime_Ymd_calendar.
Qed.

(** [strptime_reads_calendar_days] at the leap day of 2020. *)
Lemma strptime_reads_leap_day :
  strptime_Ymd (Ymd (mkdate 2020 2 29)) = Return (mkdate 2020 2 29).
Proof.
  apply (proj1 strptime_reads_calendar_days (mkdate 2020 2 29)).
  unfold calendar_day. simpl. by vm_compute.
Defined.

(** *** The station of a file *)

Lemma append_length s t : String.length (s +:+ t) = (String.length s + String.length t)%nat.
Proof. induction s as [|c s IH]; [done|]. simpl. by rewrite IH. Qed.

Lemma substring_all t : substring 0 (String.length t) t = t.
Proof. induction t as [|c t IH]; [done|]. simpl. by rewrite IH. Qed.

Lemma substring_suffix s t :
  substring (String.length s) (String.length t) (s +:+ t) = t.
Proof. induction s as [|c s IH]; [apply substring_all|done]. Qed.

Lemma substring_prefix s t : substring 0 (String.length s) (s +:+ t) = s.
Proof.
  induction s as [|c s IH]; [by destruct t|]. simpl. by rewrite IH.
Qed.

Lemma endswith_append s t : endswith (s +:+ t) t = true.
Proof.
  unfold endswith. rewrite append_length.
  replace (String.length s + String.length t - String.length t)%nat
    with (String.length s) by lia.
  rewrite substring_suffix, String.eqb_refl.
  apply andb_true_iff. split; [|done]. apply Nat.leb_le. lia.
Qed.

Lemma remove_all_from_other old c r :
  c <> "."%char ->
  remove_all_from (String "." old) 0 (String c r)
  = String c (remove_all_from (String "." old) 0 r).
Proof.
  intros Hc. cbn [remove_all_from String.prefix].
  destruct (Ascii.ascii_dec "." c) as [<-|_]; [done|]. by rewrite andb_false_r.
Qed.

(** [replace] passes over a text without a dot. *)
Lemma remove_all_from_dotless s suffix :
  dotless s = true ->
  remove_all_from ".txt" 0 (s +:+ suffix) = s +:+ remove_all_from ".txt" 0 suffix.
Proof.
  induction s as [|c s IH]; [done|].
  simpl dotless. intros Hs. apply andb_true_iff in Hs as [Hc Hs].
  change (String c s +:+ suffix) with (String c (s +:+ suffix)).
  rewrite remove_all_from_other by (intros ->; done).
  by rewrite (IH Hs).
Qed.

Lemma append_empty s : s +:+ EmptyString = s.
Proof.
  induction s as [|c s IH]; [done|].
  change (String c s +:+ "") with (String c (s +:+ "")). by rewrite IH.
Qed.

Lemma append_twice s t u : (s +:+ t) +:+ u = s +:+ (t +:+ u).
Proof.
  induction s as [|c s IH]; [done|].
  change (String c ((s +:+ t) +:+ u) = String c (s +:+ (t +:+ u))). by rewrite IH.
Qed.

Lemma last_dot_dotless s : dotless s = true -> last_dot s = None.
Proof.
  induction s as [|c s IH]; [done|]. simpl. intros Hs.
  apply andb_true_iff in Hs as [Hc Hs]. rewrite (IH Hs).
  by destruct (Ascii.eqb c ".").
Qed.

Lemma last_dot_append s t k :
  last_dot t = Some k -> last_dot (s +:+ t) = Some (String.length s + k)%nat.
Proof.
  intros Ht. induction s as [|c s IH]; [done|]. simpl. by rewrite IH.
Qed.

Lemma all_dots_dotless c s : dotless (String c s) = true -> all_dots (String c s) = false.
Proof. simpl. intros Hs. apply andb_true_iff in Hs as [Hc _]. by destruct (Ascii.eqb c "."). Qed.

Lemma splitext_root_dotless s :
  s <> EmptyString -> dotless s = true -> splitext_root (s +:+ ".txt") = s.
Proof.
  intros Hne Hs. unfold splitext_root.
  rewrite (last_dot_append s ".txt" 0) by done.
  rewrite Nat.add_0_r, substring_prefix.
  destruct s as [|c s]; [done|]. by rewrite (all_dots_dotless c s Hs).
Qed.

(** X12: The station of a file: for a station id that is not empty and holds no
    dot, the file name id.txt is taken for a data file and gives the id
    back, by [replace] in src/ingest.py and by [splitext] in the answers/
    scripts alike; on id.txt.txt the two part, [replace] giving id and
    [splitext] id.txt. *)
Theorem file_name_gives_station :
  forall station,
    station <> EmptyString -> dotless station = true ->
    (endswith (station +:+ ".txt") ".txt" = true
     /\ remove_all ".txt" (station +:+ ".txt") = station
     /\ splitext_root (station +:+ ".txt") = station)
    /\ (endswith (station +:+ ".txt.txt") ".txt" = true
        /\ remove_all ".txt" (station +:+ ".txt.txt") = station
        /\ splitext_root (station +:+ ".txt.txt") = station +:+ ".txt").
Proof.
  intros station Hne Hs. split.
  - split; [apply endswith_append|]. split; [|by apply splitext_root_dotless].
    unfold remove_all. rewrite remove_all_from_dotless by done. apply append_empty.
  - split; [|split].
    + change (station +:+ ".txt.txt") with (station +:+ (".txt" +:+ ".txt")).
      rewrite <- append_twice. apply endswith_append.
    + unfold remove_all. rewrite remove_all_from_dotless by done. apply append_empty.
    + unfold splitext_root.
      change (station +:+ ".txt.txt") with (station +:+ (".txt" +:+ ".txt")).
      rewrite <- append_twice.
      rewrite (last_dot_append (station +:+ ".txt") ".txt" 0) by done.
      rewrite Nat.add_0_r, substring_prefix.
      destruct station as [|c s]; [done|]. simpl in Hs.
      apply andb_true_iff in Hs as [Hc _]. simpl.
      by destruct (Ascii.eqb c ".").
Qed.

(** [file_name_gives_station] at the first station of the metadata table. *)
Lemma file_name_gives_station_example :
  (endswith "USC00110072.txt" ".txt" = true
   /\ remove_all ".txt" "USC00110072.txt" = "USC00110072"%string
   /\ splitext_root "USC00110072.txt" = "USC00110072"%string)
  /\ (endswith "USC00110072.txt.txt" ".txt" = true
      /\ remove_all ".txt" "USC00110072.txt.txt" = "USC00110072"%string
      /\ splitext_root "USC00110072.txt.txt" = "USC00110072.txt"%string).
Proof.
  apply (file_name_gives_station "USC00110072"); [discriminate|reflexivity].
Defined.

End NameProofs.

(** ** Lines as they are written *)

Module LineProofs.

Import Ingest LineSpec.

(** *** Texts made of digits and signs *)

Lemma numeric_plain c :
  numeric c = true -> isspace c = false /\ Ascii.eqb c TAB = false.
Proof.
  unfold numeric, isdigit, isspace. intros H.
  destruct c as [[] [] [] [] [] [] [] []]; by vm_compute in H |- *.
Qed.

Lemma all_chars_app test s t :
  all_chars test (s +:+ t) = all_chars test s && all_chars test t.
Proof.
  induction s as [|c s IH]; [done|].
  change (String c s +:+ t) with (String c (s +:+ t)). simpl. by rewrite IH, andb_assoc.
Qed.

Lemma pretty_N_char_digit x :
  (x < 10)%N ->
  isdigit (pretty_N_char x) = true /\ digit_value (pretty_N_char x) = Z.of_N x.
Proof.
  intros Hx.
  assert (x = 0 \/ x = 1 \/ x = 2 \/ x = 3 \/ x = 4 \/ x = 5 \/ x = 6 \/ x = 7 \/ x = 8
          \/ x = 9)%N as Hcases by lia.
  repeat (destruct Hcases as [->|Hcases]; [by vm_compute|]). subst. by vm_compute.
Qed.

Lemma pretty_N_go_numeric x s :
  all_chars numeric s = true -> all_chars numeric (pretty_N_go x s) = true.
Proof.
  revert s. induction (N.lt_wf_0 x) as [x _ IH]; intros s Hs.
  destruct (decide (0 < x)%N) as [Hx|Hx].
  - rewrite pretty_N_go_step by done. apply IH; [by apply N.div_lt|].
    simpl. rewrite Hs, andb_true_r. unfold numeric.
    by destruct (pretty_N_char_digit (x `mod` 10)) as [-> _];
      [apply N.mod_lt|].
  - replace x with 0%N by lia. by rewrite pretty_N_go_0.
Qed.

Lemma pretty_N_go_not_empty x s : (0 < x)%N -> pretty_N_go x s <> EmptyString.
Proof.
  revert s. induction (N.lt_wf_0 x) as [x _ IH]; intros s Hx.
  rewrite pretty_N_go_step by done.
  destruct (decide (0 < x `div` 10)%N) as [Hq|Hq].
  - apply IH; [by apply N.div_lt|done].
  - assert ((x `div` 10)%N = 0%N) as -> by (destruct (x `div` 10)%N; [done|lia]).
    by rewrite pretty_N_go_0.
Qed.

Lemma pretty_Z_numeric (z : Z) :
  all_chars numeric (pretty z) = true /\ pretty z <> EmptyString.
Proof.
  destruct z as [|p|p]; [done| |].
  - change (pretty (Z.pos p)) with (pretty_N_go (N.pos p) "").
    split; [by apply pretty_N_go_numeric|by apply pretty_N_go_not_empty].
  - change (pretty (Z.neg p)) with (String "-" (pretty_N_go (N.pos p) "")).
    split; [|done]. simpl. by apply pretty_N_go_numeric.
Qed.

(** *** [int] reads a decimal literal back *)

Lemma int_digits_pretty x :
  (0 < x)%N ->
  forall s acc n f,
  exists k, 0 < k /\ 10 ^ (k - 1) <= Z.of_N x < 10 ^ k
    /\ int_digits (pretty_N_go x s) acc n f
       = int_digits s (acc * 10 ^ k + Z.of_N x) (n + k) true.
Proof.
  induction (N.lt_wf_0 x) as [x _ IH]; intros Hx s acc n f.
  rewrite pretty_N_go_step by done.
  destruct (pretty_N_char_digit (x `mod` 10)) as [Hd Hv]; [by apply N.mod_lt|].
  assert (Z.of_N x = 10 * Z.of_N (x `div` 10) + Z.of_N (x `mod` 10)
          /\ 0 <= Z.of_N (x `mod` 10) < 10) as [Hdm Hmod].
  { pose proof (N.div_mod x 10 ltac:(done)) as Hdm.
    pose proof (N.mod_lt x 10 ltac:(done)) as Hmod.
    apply (f_equal Z.of_N) in Hdm. rewrite N2Z.inj_add, N2Z.inj_mul in Hdm.
    split; [exact Hdm|]. split; [apply N2Z.is_nonneg|].
    change 10 with (Z.of_N 10). by apply N2Z.inj_lt. }
  set (r := Z.of_N (x `mod` 10)) in *. clearbody r.
  destruct (decide (0 < x `div` 10)%N) as [Hq|Hq].
  - destruct (IH (x `div` 10)%N ltac:(by apply N.div_lt) Hq
                (String (pretty_N_char (x `mod` 10)) s) acc n f)
      as (k & Hk & Hbound & ->).
    exists (k + 1). split; [lia|].
    replace (k + 1 - 1) with (k - 1 + 1) by lia.
    rewrite !Z.pow_add_r by lia. rewrite !Z.pow_1_r.
    set (q := Z.of_N (x `div` 10)) in *. clearbody q.
    set (P := 10 ^ (k - 1)) in *. set (Q := 10 ^ k) in *. clearbody P Q.
    split; [lia|]. simpl. rewrite Hd, Hv. f_equal; lia.
  - assert ((x `div` 10)%N = 0%N) as Hz by (destruct (x `div` 10)%N; [done|lia]).
    rewrite Hz in *. rewrite pretty_N_go_0.
    exists 1. split; [lia|]. split; [simpl; lia|].
    simpl. rewrite Hd, Hv. f_equal; lia.
Qed.

Lemma int_strip_numeric s :
  all_chars numeric s = true -> int_rstrip (int_lstrip s) = s.
Proof.
  intros Hs.
  assert (forall c, numeric c = true -> int_space c = false) as Hsp.
  { intros c Hc. unfold numeric, isdigit, int_space in *.
    destruct c as [[] [] [] [] [] [] [] []]; by vm_compute in Hc |- *. }
  assert (int_lstrip s = s) as ->.
  { destruct s as [|c s]; [done|]. simpl in *.
    apply andb_true_iff in Hs as [Hc _]. by rewrite (Hsp _ Hc). }
  induction s as [|c s IH]; [done|]. simpl in *.
  apply andb_true_iff in Hs as [Hc Hs]. rewrite (IH Hs), (Hsp _ Hc). by destruct s.
Qed.

Lemma pretty_N_go_head x s :
  (0 < x)%N -> exists c r, pretty_N_go x s = String c r /\ isdigit c = true.
Proof.
  revert s. induction (N.lt_wf_0 x) as [x _ IH]; intros s Hx.
  rewrite pretty_N_go_step by done.
  destruct (decide (0 < x `div` 10)%N) as [Hq|Hq].
  - apply IH; [by apply N.div_lt|done].
  - assert ((x `div` 10)%N = 0%N) as -> by (destruct (x `div` 10)%N; [done|lia]).
    rewrite pretty_N_go_0. eexists _, _. split; [done|].
    by destruct (pretty_N_char_digit (x `mod` 10)) as [-> _]; [apply N.mod_lt|].
Qed.

(** A text that begins with a digit has no sign. *)
Lemma unsigned_digit c r :
  isdigit c = true ->
  match String c r with
  | String "-" r' => (true, r')
  | String "+" r' => (false, r')
  | _ => (false, String c r)
  end = (false, String c r).
Proof.
  intros Hc. destruct c as [[] [] [] [] [] [] [] []]; try done; by vm_compute in Hc.
Qed.

(** The digits of a literal and the integer [int] returns for it. *)
Lemma int_pretty (z : Z) :
  exists k, (z <> 0 -> 10 ^ (k - 1) <= Z.abs z < 10 ^ k)
    /\ (z = 0 -> k = 1)
    /\ Py.int (pretty z)
       = if max_str_digits <? k then Raise ValueError else Return z.
Proof.
  unfold Py.int. rewrite int_strip_numeric by apply pretty_Z_numeric.
  destruct z as [|p|p].
  - exists 1. by vm_compute.
  - change (pretty (Z.pos p)) with (pretty_N_go (N.pos p) "").
    destruct (int_digits_pretty (N.pos p) ltac:(done) "" 0 0 false)
      as (k & Hk & Hbound & Hread).
    rewrite Z.mul_0_l, !Z.add_0_l in Hread.
    destruct (pretty_N_go_head (N.pos p) "" ltac:(done)) as (c & r & Hs & Hc).
    exists k. split; [done|]. split; [done|].
    rewrite Hs, (unsigned_digit c r Hc), <- Hs, Hread. simpl.
    by destruct (max_str_digits <? k).
  - change (pretty (Z.neg p)) with (String "-" (pretty_N_go (N.pos p) "")).
    destruct (int_digits_pretty (N.pos p) ltac:(done) "" 0 0 false)
      as (k & Hk & Hbound & Hread).
    rewrite Z.mul_0_l, !Z.add_0_l in Hread.
    exists k. split; [done|]. split; [done|].
    cbv iota beta. rewrite Hread. simpl.
    by destruct (max_str_digits <? k).
Qed.

Lemma pow10_digits_short k z :
  z <> 0 -> 10 ^ (k - 1) <= Z.abs z < 10 ^ k ->
  (max_str_digits <? k) = negb (Z.abs z <? 10 ^ 4300).
Proof.
  intros Hz [Hlo Hhi]. unfold max_str_digits.
  destruct (Z.ltb_spec 4300 k) as [Hk|Hk]; symmetry.
  - apply negb_true_iff, Z.ltb_ge.
    etrans; [|exact Hlo]. apply Z.pow_le_mono_r; lia.
  - apply negb_false_iff, Z.ltb_lt.
    eapply Z.lt_le_trans; [exact Hhi|]. apply Z.pow_le_mono_r; lia.
Qed.

(** [int] reads back the literal of an integer of 4300 digits at most and
    refuses a longer one. *)
Lemma int_pretty_short z : short z -> Py.int (pretty z) = Return z.
Proof.
  intros Hz. destruct (int_pretty z) as (k & Hk & H0 & ->).
  destruct (decide (z = 0)) as [->|Hne]; [by rewrite (H0 eq_refl)|].
  rewrite (pow10_digits_short k z Hne (Hk Hne)).
  unfold short in Hz. apply Z.ltb_lt in Hz. by rewrite Hz.
Qed.

Lemma int_pretty_long z : ~ short z -> Py.int (pretty z) = Raise ValueError.
Proof.
  intros Hz. destruct (int_pretty z) as (k & Hk & H0 & ->).
  assert (z <> 0) as Hne.
  { intros ->. apply Hz. unfold short. simpl. by apply Z.pow_pos_nonneg. }
  rewrite (pow10_digits_short k z Hne (Hk Hne)).
  unfold short in Hz. apply Z.ltb_nlt in Hz. by rewrite Hz.
Qed.
(** *** The fields of a written line *)

Lemma line_of_four a b c e :
  Spec.line_of [a; b; c; e]
  = a +:+ String TAB (b +:+ String TAB (c +:+ String TAB (e +:+ String LF ""))).
Proof.
  unfold Spec.line_of, String.concat.
  rewrite !NameProofs.append_twice. reflexivity.
Qed.

Lemma lstrip_numeric s t :
  all_chars numeric s = true -> s <> EmptyString -> lstrip (s +:+ t) = s +:+ t.
Proof.
  destruct s as [|c s]; [done|]. simpl. intros Hs _.
  apply andb_true_iff in Hs as [Hc _].
  change (String c s +:+ t) with (String c (s +:+ t)). simpl.
  by destruct (numeric_plain c Hc) as [-> _].
Qed.

Lemma rstrip_cons c t :
  rstrip t <> EmptyString -> rstrip (String c t) = String c (rstrip t).
Proof. simpl. by destruct (rstrip t). Qed.

Lemma rstrip_app s t :
  rstrip t <> EmptyString -> rstrip (s +:+ t) = s +:+ rstrip t.
Proof.
  intros Ht. induction s as [|c s IH]; [done|].
  change (String c s +:+ t) with (String c (s +:+ t)).
  change (String c s +:+ rstrip t) with (String c (s +:+ rstrip t)).
  rewrite rstrip_cons; [by rewrite IH|].
  rewrite IH. destruct s; [done|discriminate].
Qed.

Lemma rstrip_numeric_LF s :
  all_chars numeric s = true -> s <> EmptyString ->
  rstrip (s +:+ String LF "") = s.
Proof.
  induction s as [|c s IH]; [done|]. simpl all_chars. intros Hs _.
  apply andb_true_iff in Hs as [Hc Hs].
  change (String c s +:+ String LF "") with (String c (s +:+ String LF "")).
  destruct s as [|c' s].
  - simpl. change (isspace LF) with true. cbv iota.
    by destruct (numeric_plain c Hc) as [-> _].
  - rewrite rstrip_cons; rewrite IH; done.
Qed.

Lemma split_numeric s :
  all_chars numeric s = true -> split TAB s = [s].
Proof.
  induction s as [|c s IH]; [done|]. simpl. intros Hs.
  apply andb_true_iff in Hs as [Hc Hs].
  destruct (numeric_plain c Hc) as [_ ->]. by rewrite (IH Hs).
Qed.

Lemma split_numeric_tab s rest :
  all_chars numeric s = true ->
  split TAB (s +:+ String TAB rest) = s :: split TAB rest.
Proof.
  induction s as [|c s IH]; intros Hs.
  - reflexivity.
  - simpl in Hs. apply andb_true_iff in Hs as [Hc Hs].
    change (String c s +:+ String TAB rest) with (String c (s +:+ String TAB rest)).
    simpl. destruct (numeric_plain c Hc) as [_ ->]. by rewrite (IH Hs).
Qed.

Lemma digit_char_numeric k : 0 <= k <= 9 -> numeric (NameSpec.digit_char k) = true.
Proof.
  intros Hk. unfold numeric.
  by destruct (NameProofs.digit_char_reads k Hk) as [-> _].
Qed.

Lemma Ymd_numeric d :
  NameSpec.calendar_day d ->
  all_chars numeric (NameSpec.Ymd d) = true /\ NameSpec.Ymd d <> EmptyString.
Proof.
  intros (Hy & Hm & Hd). pose proof (NameProofs.days_in_month_at_most (year d) (month d)).
  split; [|done].
  unfold NameSpec.Ymd, NameSpec.four_digits, NameSpec.two_digits.
  rewrite !all_chars_app. simpl.
  rewrite !digit_char_numeric; [done|Z.div_mod_to_equations; lia..].
Qed.

(** The stripped text of a written line and its four fields. *)
Lemma written_fields d z1 z2 z3 :
  NameSpec.calendar_day d ->
  split TAB (strip (written d z1 z2 z3))
  = [NameSpec.Ymd d; pretty z1; pretty z2; pretty z3].
Proof.
  intros Hd. destruct (Ymd_numeric d Hd) as [Hnum Hne].
  destruct (pretty_Z_numeric z1) as [H1 N1], (pretty_Z_numeric z2) as [H2 N2],
    (pretty_Z_numeric z3) as [H3 N3].
  unfold written, strip. rewrite line_of_four.
  rewrite lstrip_numeric by done.
  assert (rstrip (pretty z3 +:+ String LF "") = pretty z3) as E3
    by by apply rstrip_numeric_LF.
  assert (rstrip (String TAB (pretty z3 +:+ String LF "")) = String TAB (pretty z3)) as E3'.
  { rewrite rstrip_cons; rewrite E3; done. }
  assert (rstrip (String TAB (pretty z2 +:+ String TAB (pretty z3 +:+ String LF "")))
          = String TAB (pretty z2 +:+ String TAB (pretty z3))) as E2.
  { rewrite rstrip_cons; rewrite rstrip_app; rewrite E3'; try done.
    by destruct (pretty z2). }
  assert (rstrip (String TAB (pretty z1 +:+ String TAB
                    (pretty z2 +:+ String TAB (pretty z3 +:+ String LF ""))))
          = String TAB (pretty z1 +:+ String TAB (pretty z2 +:+ String TAB (pretty z3))))
    as E1.
  { rewrite rstrip_cons; rewrite rstrip_app; rewrite E2; try done.
    by destruct (pretty z1). }
  rewrite rstrip_app; rewrite E1; [|done].
  rewrite !split_numeric_tab by done. by rewrite split_numeric.
Qed.

(** *** The readings of a written line *)

(** An integer of four digits is short. *)
Lemma four_digits_short z : Z.abs z < 10 ^ 4 -> short z.
Proof.
  intros Hz. unfold short.
  eapply Z.lt_le_trans; [exact Hz|]. apply Z.pow_le_mono_r; lia.
Qed.

Lemma sentinel_short : short (-9999).
Proof. by apply four_digits_short. Qed.

Lemma raw_field_pretty z :
  raw_field (pretty z)
  = if Z.abs z <? 10 ^ 4300 then Return (reading z) else Raise ValueError.
Proof.
  unfold raw_field, reading.
  destruct (Z.eqb_spec z (-9999)) as [->|Hz].
  - change (pretty (-9999)) with "-9999"%string. simpl String.eqb. cbv iota.
    pose proof sentinel_short as Hs. apply Z.ltb_lt in Hs. by rewrite Hs.
  - destruct (String.eqb_spec (pretty z) "-9999") as [Heq|_].
    { exfalso. apply Hz. by apply (inj (pretty : Z -> string)). }
    destruct (Z.ltb_spec (Z.abs z) (10 ^ 4300)) as [Hs|Hs].
    + by rewrite int_pretty_short.
    + rewrite int_pretty_long; [done|]. unfold short. by apply Z.le_ngt.
Qed.

Lemma field_value_pretty z : short z -> Spec.field_value (pretty z) (reading z).
Proof.
  intros Hs. unfold reading.
  destruct (Z.eqb_spec z (-9999)) as [->|Hz]; [constructor|].
  constructor; [|by apply int_pretty_short].
  intros Heq. apply Hz. by apply (inj (pretty : Z -> string)).
Qed.

(** A written line with integers of 4300 digits at most is well formed. *)
Lemma written_well_formed d z1 z2 z3 :
  NameSpec.calendar_day d -> short z1 -> short z2 -> short z3 ->
  Spec.well_formed (written d z1 z2 z3) d (reading z1) (reading z2) (reading z3).
Proof.
  intros Hd H1 H2 H3.
  exists (NameSpec.Ymd d), (pretty z1), (pretty z2), (pretty z3).
  split; [by apply written_fields|].
  split; [by apply NameProofs.strptime_Ymd_reads_back|].
  by repeat split; apply field_value_pretty.
Qed.

(** A written line with a longer integer is skipped. *)
Lemma written_long_skipped d z1 z2 z3 :
  NameSpec.calendar_day d -> ~ (short z1 /\ short z2 /\ short z3) ->
  parse_weather_line (written d z1 z2 z3) = Return None.
Proof.
  intros Hd Hlong.
  assert (exists e, raw_record_of (NameSpec.Ymd d) (pretty z1) (pretty z2) (pretty z3)
                    = Raise e) as [e He].
  { unfold raw_record_of.
    rewrite NameProofs.strptime_Ymd_reads_back by done. simpl.
    rewrite !raw_field_pretty.
    destruct (Z.ltb_spec (Z.abs z1) (10 ^ 4300)); [|by eexists].
    destruct (Z.ltb_spec (Z.abs z2) (10 ^ 4300)); [|by eexists].
    destruct (Z.ltb_spec (Z.abs z3) (10 ^ 4300)); [|by eexists].
    by destruct Hlong. }
  by destruct (DecoderProofs.conversion_failure_skips _ _ _ _ _ _
                 (written_fields d z1 z2 z3 Hd) He).
Qed.

(** A well-formed line with a reading that has no double is skipped. *)
Lemma well_formed_without_double_skipped line d r1 r2 r3 :
  Spec.well_formed line d r1 r2 r3 ->
  Spec.has_double r1 && Spec.has_double r2 && Spec.has_double r3 = false ->
  parse_weather_line line = Return None.
Proof.
  intros (ds & s1 & s2 & s3 & Hsplit & Hdate & H1 & H2 & H3) Hinf.
  unfold parse_weather_line, parse_weather_line_body.
  rewrite Hsplit, Hdate. simpl.
  rewrite (DecoderProofs.raw_value_reads _ _ H1), (DecoderProofs.raw_value_reads _ _ H2),
    (DecoderProofs.raw_value_reads _ _ H3). simpl.
  assert (forall r, Spec.has_double r = false ->
            clean_value r = Raise OverflowError) as Hover.
  { intros [z|] Hr; [|done]. apply DecoderProofs.clean_value_overflow.
    by apply negb_false_iff in Hr. }
  destruct (Spec.has_double r1) eqn:F1;
    [rewrite (DecoderProofs.clean_value_tenth _ F1)|by rewrite (Hover _ F1)].
  simpl.
  destruct (Spec.has_double r2) eqn:F2;
    [rewrite (DecoderProofs.clean_value_tenth _ F2)|by rewrite (Hover _ F2)].
  simpl. by rewrite (Hover _ Hinf).
Qed.

(** The three integers are short, or one is not. *)
Lemma classic_short z1 z2 z3 :
  (short z1 /\ short z2 /\ short z3) \/ ~ (short z1 /\ short z2 /\ short z3).
Proof.
  unfold short. generalize (10 ^ 4300). intros bound.
  destruct (Z.lt_ge_cases (Z.abs z1) bound); [|right; lia].
  destruct (Z.lt_ge_cases (Z.abs z2) bound); [|right; lia].
  destruct (Z.lt_ge_cases (Z.abs z3) bound); [|right; lia].
  by left.
Qed.

(** C5, as amended: on a well-formed line whose integers have a double,
    [parse_weather_line] returns the observation with the sentinel fields
    null, every other raw integer r turned into r / 10.0, and precip_cm the
    tenth of precip_mm; a well-formed line with an integer that has no
    double is skipped. A line written as DATE, MAX, MIN, PRECIP, a day of
    the calendar as YYYYMMDD and three integers in decimal of 4300 digits
    at most, joined by tabs, is well formed, so it is decoded in this way
    when its integers have a double and skipped when one has none; with an
    integer of more digits it is skipped too. The line
    20200101 / -9999 / 10 / 5 decodes to max_temp_c null, min_temp_c 1.0
    and precip_mm 0.5. *)
Theorem parse_weather_line_decodes :
  (forall line d r1 r2 r3,
      Spec.well_formed line d r1 r2 r3 ->
      Spec.has_double r1 = true -> Spec.has_double r2 = true ->
      Spec.has_double r3 = true ->
      parse_weather_line line = Return (Some (Spec.decoded d r1 r2 r3)))
  /\ (forall line d r1 r2 r3,
        Spec.well_formed line d r1 r2 r3 ->
        Spec.has_double r1 && Spec.has_double r2 && Spec.has_double r3 = false ->
        parse_weather_line line = Return None)
  /\ (forall d z1 z2 z3,
        NameSpec.calendar_day d -> short z1 -> short z2 -> short z3 ->
        Spec.well_formed (written d z1 z2 z3) d (reading z1) (reading z2) (reading z3))
  /\ (forall d z1 z2 z3,
        NameSpec.calendar_day d -> short z1 -> short z2 -> short z3 ->
        Spec.has_double (reading z1) = true -> Spec.has_double (reading z2) = true ->
        Spec.has_double (reading z3) = true ->
        parse_weather_line (written d z1 z2 z3)
        = Return (Some (Spec.decoded d (reading z1) (reading z2) (reading z3))))
  /\ (forall d z1 z2 z3,
        NameSpec.calendar_day d ->
        ~ (short z1 /\ short z2 /\ short z3)
        \/ Spec.has_double (reading z1) && Spec.has_double (reading z2)
           && Spec.has_double (reading z3) = false ->
        parse_weather_line (written d z1 z2 z3) = Return None)
  /\ (exists p, parse_weather_line Spec.example_line = Return (Some p)
                /\ max_temp_c p = None
                /\ min_temp_c p = Some 1%float
                /\ precip_mm p = Some 0.5%float).
Proof.
  assert (forall line d r1 r2 r3,
      Spec.well_formed line d r1 r2 r3 ->
      Spec.has_double r1 = true -> Spec.has_double r2 = true ->
      Spec.has_double r3 = true ->
      parse_weather_line line = Return (Some (Spec.decoded d r1 r2 r3))) as Hdecode.
  { intros line d r1 r2 r3 (ds & s1 & s2 & s3 & Hsplit & Hdate & H1 & H2 & H3) F1 F2 F3.
    unfold parse_weather_line, parse_weather_line_body.
    rewrite Hsplit, Hdate. simpl.
    rewrite (DecoderProofs.raw_value_reads _ _ H1), (DecoderProofs.raw_value_reads _ _ H2),
      (DecoderProofs.raw_value_reads _ _ H3). simpl.
    rewrite (DecoderProofs.clean_value_tenth _ F1), (DecoderProofs.clean_value_tenth _ F2),
      (DecoderProofs.clean_value_tenth _ F3). simpl.
    by destruct r3. }
  split; [exact Hdecode|].
  split; [apply well_formed_without_double_skipped|].
  split; [apply written_well_formed|].
  split; [|split].
  - intros d z1 z2 z3 Hd S1 S2 S3 F1 F2 F3.
    by apply Hdecode; [apply written_well_formed|..].
  - intros d z1 z2 z3 Hd [Hlong|Hinf]; [by apply written_long_skipped|].
    destruct (classic_short z1 z2 z3) as [(S1 & S2 & S3)|Hlong];
      [|by apply written_long_skipped].
    eapply well_formed_without_double_skipped; [by apply written_well_formed|done].
  - eexists. split; [vm_compute; reflexivity|]. by vm_compute.
Qed.

(** The general statements of [parse_weather_line_decodes], used at the
    example line, as a well-formed line and as a written one. *)
Lemma parse_weather_line_decodes_example :
  parse_weather_line Spec.example_line
  = Return (Some (Spec.decoded (mkdate 2020 1 1) None (Some 10) (Some 5)))
  /\ parse_weather_line (written (mkdate 2020 1 1) (-9999) 10 5)
     = Return (Some (Spec.decoded (mkdate 2020 1 1) (reading (-9999)) (reading 10)
                                  (reading 5))).
Proof.
  split.
  - apply (proj1 parse_weather_line_decodes); [|reflexivity..].
    exists "20200101"%string, "-9999"%string, "10"%string, "5"%string.
    split; [by vm_compute|]. split; [by vm_compute|].
    split; [constructor|].
    split; constructor; by vm_compute.
  - apply (proj1 (proj2 (proj2 (proj2 parse_weather_line_decodes))));
      try (by apply four_digits_short); by vm_compute.
Defined.

(** C5, as stated, fails: a well-formed line whose max temperature reads
    10 ^ 309 is skipped (the division raises OverflowError, which the
    handler turns into None). *)
Lemma parse_weather_line_skips_huge_integer :
  Spec.well_formed Spec.huge_line (mkdate 2020 1 1) (Some (10 ^ 309)) (Some 10) (Some 5)
  /\ parse_weather_line Spec.huge_line = Return None.
Proof.
  split; [|by vm_compute].
  exists "20200101"%string, (Spec.one_and_zeros 309), "10"%string, "5"%string.
  split; [by vm_compute|]. split; [by vm_compute|].
  split; [|split]; constructor; by vm_compute.
Qed.

End LineProofs.

(** ** Rows that come from a line *)

Module RowInvariants.

Import Ingest.

Section Rows.

Variable utcnow : nat -> Z.
Variable d : Models.dialect.
Variables source run_id : string.

(** A property of the rows of decoded lines. *)
Variable P : Models.WeatherFact -> Prop.
Hypothesis decoded_rows :
  forall station now line p,
    parse_weather_line line = Return (Some p) ->
    P (fact_data station source run_id now p).

Lemma upsert_every_row fact facts :
  P fact -> RowSpec.every_row P facts ->
  RowSpec.every_row P (upsert_weather_fact d fact facts).1.
Proof.
  intros Hfact Hall. destruct (StoreInvariants.upsert_cases d fact facts) as [->|[_ ->]];
    [done|].
  intros k f Hf. apply lookup_insert_Some in Hf as [[_ <-]|[_ Hf]]; [done|by eapply Hall].
Qed.

Lemma ingest_lines_every_row station lines db n :
  RowSpec.every_row P (weather_facts db) ->
  RowSpec.every_row P (weather_facts (ingest_lines utcnow d source run_id station lines db n).1).
Proof using decoded_rows.
  revert db n. induction lines as [|line rest IH]; intros db n Hall; [done|].
  simpl. destruct (strip line); [by apply IH|].
  destruct (parse_weather_line line) as [[p|]|e] eqn:Hp; [|by apply IH|done].
  pose proof (upsert_every_row
                (fact_data station source run_id (utcnow (clock_reads db)) p)
                (weather_facts db) (decoded_rows _ _ _ _ Hp) Hall) as Hstep.
  destruct (upsert_weather_fact d _ (weather_facts db)) as [facts [[]|e]]; simpl in *;
    [by apply IH|done].
Qed.

Lemma ingest_files_every_row files db n :
  RowSpec.every_row P (weather_facts db) ->
  RowSpec.every_row P (weather_facts (ingest_files utcnow d source run_id files db n).1).
Proof using decoded_rows.
  revert db n. induction files as [|[filename lines] rest IH]; intros db n Hall; [done|].
  simpl. destruct (endswith filename ".txt"); [|by apply IH].
  pose proof (ingest_lines_every_row (remove_all ".txt" filename) lines
                (ensure_station (remove_all ".txt" filename) db) n) as Hfile.
  destruct (ingest_lines _ _ _ _ _ lines _ n) as [db1 [n1|e]]; simpl in *.
  - apply IH, Hfile. unfold ensure_station. by destruct (stations db !! _).
  - apply Hfile. unfold ensure_station. by destruct (stations db !! _).
Qed.

End Rows.

Lemma fact_data_from_raw station source run_id now line p :
  parse_weather_line line = Return (Some p) ->
  RowSpec.from_raw (fact_data station source run_id now p).
Proof.
  intros Hp. pose proof (ScorerProofs.observation_reachable p) as (Hm & Ho & Hsum & _).
  apply DecoderAgreement.accepted_line_well_formed in Hp
    as (day & r1 & r2 & r3 & _ & _ & _ & _ & Hday & ->).
  unfold RowSpec.from_raw. simpl.
  repeat split; try done; try apply Hday; try lia.
  by destruct r1, r2, r3.
Qed.

(** X13: Rows agree with their raw values: when, before a run of
    [ingest_weather_data], every row of the fact table has a day of the
    calendar for its date, clean values that are its raw values over 10.0,
    the number of its raw nulls for its missing count, and the score, the
    tier and the note of its two counts, then so has every row after the
    run, whatever the branch and however the run ends; and every fact the
    run writes for a decoded line is such a row. *)
Theorem ingest_rows_agree_with_raw :
  (forall utcnow d source run_id files db,
      RowSpec.every_row RowSpec.from_raw (weather_facts db) ->
      RowSpec.every_row RowSpec.from_raw
        (weather_facts (ingest_weather_data utcnow d source run_id files db).1))
  /\ (forall station source run_id now line p,
        parse_weather_line line = Return (Some p) ->
        RowSpec.from_raw (fact_data station source run_id now p)).
Proof.
  split.
  - intros utcnow d source run_id files db. apply ingest_files_every_row.
    intros station now line p. apply fact_data_from_raw.
  - apply fact_data_from_raw.
Qed.

(** [ingest_rows_agree_with_raw] at the run of a file of two days into an
    empty store. *)
Lemma ingest_rows_agree_example :
  RowSpec.every_row RowSpec.from_raw Spec.two_days.
Proof.
  apply (proj1 ingest_rows_agree_with_raw Spec.tick_clock Models.sqlite
           "manual"%string "run-1"%string
           [("S1.txt"%string, [Spec.good_line; Spec.next_day_line])] Spec.empty_store).
  intros k f Hf. unfold Spec.empty_store in Hf. simpl in Hf.
  by rewrite lookup_empty in Hf.
Defined.

End RowInvariants.

(** ** Station records *)

Module StationProofs.

Import Stations.

Lemma metadata_table_ok :
  map_Forall (fun _ md => StationSpec.metadata_ok md = true) STATION_METADATA.
Proof.
  apply (bool_decide_unpack
           (map_Forall (fun _ md => StationSpec.metadata_ok md = true) STATION_METADATA)).
  by vm_compute.
Qed.

Lemma get_metadata_ok station_id : StationSpec.metadata_ok (get_metadata station_id) = true.
Proof.
  unfold get_metadata.
  destruct (STATION_METADATA !! station_id) as [md|] eqn:Hmd; simpl.
  - by apply (metadata_table_ok station_id).
  - by vm_compute.
Qed.

(** The checks on the coordinates and on the state code never fail. *)
Lemma simple_validation_id station_id :
  simple_validation station_id (get_metadata station_id)
  = if StationSpec.valid_id station_id then Return tt else Raise ValueError.
Proof.
  pose proof (get_metadata_ok station_id) as Hok.
  generalize dependent (get_metadata station_id). intros md Hok.
  unfold StationSpec.metadata_ok in Hok.
  repeat (apply andb_true_iff in Hok as [Hok ?]).
  unfold simple_validation, StationSpec.valid_id.
  destruct (ModelsHelpers.empty station_id); [done|]. simpl.
  destruct (Nat.ltb_spec 20 (String.length station_id)) as [Hlong|Hshort].
  - by destruct (Nat.leb_spec (String.length station_id) 20); [lia|].
  - destruct (Nat.leb_spec (String.length station_id) 20); [|lia].
    rewrite Hok. simpl.
    repeat match goal with H : _ = true |- _ => rewrite H; clear H end.
    simpl. by destruct (ModelsHelpers.empty _).
Qed.

(** The checks of the loop are the checks of [validate_station_data]. *)
Lemma simple_validation_helper station_id md :
  ModelsHelpers.validate_station_data station_id (md_latitude md) (md_longitude md)
                                      (md_state md)
  = (fun _ => true) <$> simple_validation station_id md.
Proof.
  unfold simple_validation, ModelsHelpers.validate_station_data.
  repeat match goal with |- context [if ?b then _ else _] => destruct b end; done.
Qed.

Section Session.

Variable autoflush : bool.

Lemma add_stations_spec files table pending n :
  exists new,
    add_stations autoflush files table pending n
    = (pending ++ new, n + Z.of_nat (length new))
    /\ Forall (fun kr => table !! kr.1 = None /\ StationSpec.valid_id kr.1 = true
                         /\ kr.2 = new_station (get_metadata kr.1)
                         /\ exists file, file ∈ files /\ remove_all ".txt" file = kr.1)
              new
    /\ (autoflush = true -> NoDup pending.*1 -> NoDup (pending ++ new).*1)
    /\ (forall file, file ∈ files -> StationSpec.valid_id (remove_all ".txt" file) = true ->
          is_Some (table !! remove_all ".txt" file)
          \/ remove_all ".txt" file ∈ (pending ++ new).*1).
Proof.
  revert pending n. induction files as [|file rest IH]; intros pending n.
  - exists []. rewrite app_nil_r. simpl. repeat split; try done.
    + f_equal. lia.
    + intros f Hf. by apply elem_of_nil in Hf.
  - simpl. set (station_id := remove_all ".txt" file).
    destruct (existing_station autoflush station_id table pending) eqn:Hex.
    { destruct (IH pending n) as (new & Hrun & Hnew & Hnd & Hall).
      exists new. split; [done|]. split.
      { eapply Forall_impl; [apply Hnew|]. intros kr (? & ? & ? & f & ? & ?).
        repeat split; try done. exists f. split; [by right|done]. }
      split; [done|].
      intros f Hf Hvalid. apply elem_of_cons in Hf as [->|Hf]; [|by apply Hall].
      fold station_id. unfold existing_station in Hex.
      apply orb_true_iff in Hex as [Hex|Hex].
      - left. by apply bool_decide_eq_true in Hex.
      - right. apply andb_true_iff in Hex as [_ Hex].
        apply bool_decide_eq_true in Hex. rewrite fmap_app. apply elem_of_app. by left. }
    rewrite simple_validation_id.
    destruct (StationSpec.valid_id station_id) eqn:Hvalid.
    + destruct (IH (pending ++ [(station_id, new_station (get_metadata station_id))])
                  (n + 1)) as (new & Hrun & Hnew & Hnd & Hall).
      exists ((station_id, new_station (get_metadata station_id)) :: new).
      rewrite <- app_assoc in Hrun, Hnd, Hall. simpl in Hrun, Hnd, Hall.
      unfold existing_station in Hex. apply orb_false_iff in Hex as [Htable Hpending].
      apply bool_decide_eq_false in Htable.
      split; [rewrite Hrun; f_equal; simpl length; lia|]. split.
      { constructor.
        - simpl. split; [by apply eq_None_not_Some|]. split; [done|]. split; [done|].
          exists file. split; [by left|done].
        - eapply Forall_impl; [apply Hnew|]. intros kr (? & ? & ? & f & ? & ?).
          repeat split; try done. exists f. split; [by right|done]. }
      split.
      { intros Hflush Hpend. apply Hnd; [done|].
        rewrite fmap_app. simpl. apply NoDup_app. split; [done|].
        split; [|apply NoDup_singleton].
        intros k Hk Hk'. apply list_elem_of_singleton in Hk' as ->.
        rewrite Hflush in Hpending. simpl in Hpending.
        by apply bool_decide_eq_false in Hpending. }
      intros f Hf Hfvalid. apply elem_of_cons in Hf as [->|Hf]; [|by apply Hall].
      right. fold station_id. rewrite fmap_app. apply elem_of_app. right. by left.
    + destruct (IH pending n) as (new & Hrun & Hnew & Hnd & Hall).
      exists new. split; [done|]. split.
      { eapply Forall_impl; [apply Hnew|]. intros kr (? & ? & ? & f & ? & ?).
        repeat split; try done. exists f. split; [by right|done]. }
      split; [done|].
      intros f Hf Hfvalid. apply elem_of_cons in Hf as [->|Hf]; [|by apply Hall].
      fold station_id in Hfvalid. congruence.
Qed.

(** A loop over files whose valid stations are all in the table adds none. *)
Lemma add_stations_none files table pending n :
  (forall file, file ∈ files -> StationSpec.valid_id (remove_all ".txt" file) = true ->
     is_Some (table !! remove_all ".txt" file)) ->
  add_stations autoflush files table pending n = (pending, n).
Proof.
  induction files as [|file rest IH]; intros Hall; [done|].
  simpl. rewrite simple_validation_id.
  destruct (existing_station _ _ _ _) eqn:Hex;
    [apply IH; intros f Hf; apply Hall; by right|].
  destruct (StationSpec.valid_id (remove_all ".txt" file)) eqn:Hvalid;
    [|apply IH; intros f Hf; apply Hall; by right].
  unfold existing_station in Hex. apply orb_false_iff in Hex as [Htable _].
  apply bool_decide_eq_false in Htable. destruct Htable. apply Hall; [by left|done].
Qed.

End Session.

Lemma insert_stations_returns pending table table' :
  insert_stations pending table = Return table' ->
  NoDup pending.*1
  /\ size table' = (size table + length pending)%nat
  /\ (forall k row, table !! k = Some row -> table' !! k = Some row)
  /\ (forall k row, table' !! k = Some row -> table !! k = Some row \/ (k, row) ∈ pending)
  /\ (forall k, k ∈ pending.*1 -> is_Some (table' !! k) /\ table !! k = None).
Proof.
  revert table. induction pending as [|[k row] rest IH]; intros table; simpl.
  - intros [= <-]. split; [constructor|]. split; [lia|]. split; [done|].
    split; [auto|]. intros k Hk. by apply elem_of_nil in Hk.
  - destruct (table !! k) eqn:Hk; [done|]. intros Hrest.
    destruct (IH _ Hrest) as (Hnd & Hsize & Hkept & Hfrom & Hin).
    rewrite map_size_insert_None in Hsize by done.
    split.
    { constructor; [|done]. intros Hdup. destruct (Hin k Hdup) as [_ Hnone].
      by rewrite lookup_insert_eq in Hnone. }
    split; [lia|]. split.
    { intros k' row' Hrow. apply Hkept. rewrite lookup_insert_ne; [done|]. congruence. }
    split.
    { intros k' row' Hrow. destruct (Hfrom k' row' Hrow) as [Hins|Hthere].
      - apply lookup_insert_Some in Hins as [[<- <-]|[_ Hins]]; [right; by left|by left].
      - right. by right. }
    intros k' Hk'. apply elem_of_cons in Hk' as [->|Hk'].
    + split; [|done]. exists row. apply Hkept. by rewrite lookup_insert_eq.
    + destruct (Hin k' Hk') as [Hsome Hnone]. split; [done|].
      apply lookup_insert_None in Hnone. tauto.
Qed.

Lemma insert_stations_fresh pending table :
  NoDup pending.*1 -> (forall k, k ∈ pending.*1 -> table !! k = None) ->
  exists table', insert_stations pending table = Return table'.
Proof.
  revert table. induction pending as [|[k row] rest IH]; intros table Hnd Hfresh; simpl.
  - eauto.
  - rewrite (Hfresh k) by by left. apply NoDup_cons in Hnd as [Hk Hnd].
    apply IH; [done|]. intros k' Hk'. rewrite lookup_insert_ne by (by intros ->).
    apply Hfresh. by right.
Qed.

Lemma insert_stations_raises pending table e :
  insert_stations pending table = Raise e -> e = IntegrityError.
Proof.
  revert table. induction pending as [|[k row] rest IH]; intros table; simpl; [done|].
  destruct (table !! k); [by intros [= <-]|apply IH].
Qed.

(** X14: [create_stations_from_files], for a session of either kind: no row of
    the table is changed or removed; the only exception is IntegrityError
    at the commit, in a session that does not flush before its queries,
    and it leaves the table as it was; a run that returns has returned the
    number of rows it added, the stations of the table are then the ones
    it held and the ones of the data files whose id has 1 to 20
    characters (no station is refused for its coordinates or its state
    code), each new row carries the metadata of its id and passes
    [validate_station_data], and a second run over the same directory adds
    nothing and returns 0. *)
Theorem stations_created_once :
  forall autoflush wx_data_dir table,
    let r := create_stations_from_files autoflush wx_data_dir table in
    (forall s row, table !! s = Some row -> r.1 !! s = Some row)
    /\ (forall e, r.2 = Raise e -> e = IntegrityError /\ autoflush = false /\ r.1 = table)
    /\ (forall n,
          r.2 = Return n ->
          n = Z.of_nat (size r.1) - Z.of_nat (size table)
          /\ (forall s, is_Some (r.1 !! s)
                        <-> is_Some (table !! s)
                            \/ (StationSpec.valid_id s = true
                                /\ StationSpec.station_of_file wx_data_dir s))
          /\ (forall s row,
                table !! s = None -> r.1 !! s = Some row ->
                row = new_station (get_metadata s)
                /\ ModelsHelpers.validate_station_data s (latitude row) (longitude row)
                                                       (state row)
                   = Return true)
          /\ create_stations_from_files autoflush wx_data_dir r.1 = (r.1, Return 0)).
Proof.
  intros autoflush wx_data_dir table. simpl. unfold create_stations_from_files.
  set (files := filter (fun f => endswith f ".txt" = true) wx_data_dir).
  destruct (add_stations_spec autoflush files table [] 0)
    as (new & Hrun & Hnew & Hnd & Hall).
  simpl in Hrun, Hnd, Hall. rewrite Hrun.
  assert (forall k, k ∈ new.*1 -> table !! k = None) as Hfresh.
  { intros k Hk. apply list_elem_of_fmap in Hk as [kr [-> Hkr]].
    rewrite Forall_forall in Hnew. by apply Hnew. }
  destruct (insert_stations new table) as [table'|e] eqn:Hins; simpl.
  - destruct (insert_stations_returns _ _ _ Hins) as (_ & Hsize & Hkept & Hfrom & Hin).
    split; [done|]. split; [done|]. intros n [= <-].
    split; [lia|]. split.
    { intros s. split.
      - intros [row Hrow]. destruct (Hfrom s row Hrow) as [Hold|Hadded]; [left; eauto|].
        right. rewrite Forall_forall in Hnew.
        destruct (Hnew _ Hadded) as (_ & Hvalid & _ & f & Hf & Hid). simpl in *.
        split; [done|]. apply list_elem_of_filter in Hf as [Htxt Hf]. by exists f.
      - intros [[row Hrow]|[Hvalid (f & Hf & Htxt & <-)]]; [eauto|].
        destruct (Hall f) as [[row Hrow]|Hadded]; [by apply list_elem_of_filter|done|eauto|].
        by apply Hin. }
    split.
    { intros s row Hnone Hrow. destruct (Hfrom s row Hrow) as [Hold|Hadded]; [congruence|].
      rewrite Forall_forall in Hnew.
      destruct (Hnew _ Hadded) as (_ & Hvalid & Heq & _). simpl in *. subst row.
      split; [done|].
      change (ModelsHelpers.validate_station_data s (md_latitude (get_metadata s))
                (md_longitude (get_metadata s)) (md_state (get_metadata s))
              = Return true).
      by rewrite simple_validation_helper, simple_validation_id, Hvalid. }
    rewrite (add_stations_none autoflush files table' [] 0).
    + done.
    + intros f Hf Hvalid. destruct (Hall f Hf Hvalid) as [[row Hrow]|Hadded]; [eauto|].
      by apply Hin.
  - split; [done|]. split; [|done]. intros e' [= <-].
    split; [by apply (insert_stations_raises new table)|]. split; [|done].
    destruct autoflush; [|done].
    destruct (insert_stations_fresh new table) as [t Ht]; [|done|congruence].
    apply Hnd; [done|constructor].
Qed.

(** [stations_created_once] at a directory with the file of a station of
    the metadata table and a file that is no data file. *)
Lemma stations_created_example :
  create_stations_from_files false ["USC00110072.txt"; "notes.md"]%string
    (create_stations_from_files false ["USC00110072.txt"; "notes.md"]%string ∅).1
  = ((create_stations_from_files false ["USC00110072.txt"; "notes.md"]%string ∅).1,
     Return 0).
Proof.
  apply (proj2 (proj2 (stations_created_once false
                         ["USC00110072.txt"; "notes.md"]%string ∅)) 1).
  by vm_compute.
Defined.

End StationProofs.

(** ** The scorer of src/models.py and the ingestion summary *)

Module HelperProofs.

Import ModelsHelpers.

(** Splits on every comparison of a reading, then computes. *)
Ltac score_cases :=
  repeat match goal with
         | |- context [(?x <? ?y)%float] =>
             first [ is_var x | is_var y ];
             let c := fresh "c" in
             generalize ((x <? y)%float); intros c; destruct c
         end.

(** X15: [calculate_data_quality_score] of src/models.py: the score lies
    between 0.0 and 1.0 whatever the readings are; it is 1.0 exactly for a
    record with all three readings on which none of its tests fires; and
    on a record in which neither it nor src/ingest.py finds an outlier it
    is the score src/ingest.py gives the same readings. *)
Theorem models_score_bounded_and_agrees :
  (forall record,
      Spec.fle 0 (calculate_data_quality_score record)
      /\ Spec.fle (calculate_data_quality_score record) 1)
  /\ (forall record,
        Spec.fle 1 (calculate_data_quality_score record)
        <-> StationSpec.complete record = true /\ StationSpec.flagged record = false)
  /\ (forall record,
        StationSpec.any_outlier record = false ->
        calculate_data_quality_score record
        = Ingest.quality_score_of
            (Spec.observed (max_temp record) (min_temp record) (precipitation record))).
Proof.
  split; [|split].
  - intros [[a|] [b|] [p|]];
      unfold Spec.fle, calculate_data_quality_score; simpl; score_cases; by vm_compute.
  - intros [[a|] [b|] [p|]];
      unfold Spec.fle, calculate_data_quality_score, StationSpec.complete,
        StationSpec.flagged, Ingest.inconsistent;
      simpl; score_cases; vm_compute; split; (done || (intros [? ?]; done)).
  - intros [[a|] [b|] [p|]];
      unfold calculate_data_quality_score, StationSpec.any_outlier,
        Ingest.quality_score_of, Ingest.missing_of, Ingest.outliers_of,
        Ingest.count_outliers, Ingest.max_temp_outlier, Ingest.min_temp_outlier,
        Ingest.precip_outlier, Ingest.inconsistent, Spec.observed;
      simpl; score_cases; vm_compute; done.
Qed.

(** [models_score_bounded_and_agrees] at a record of 10.0, 5.0 and no rain. *)
Lemma models_score_example :
  calculate_data_quality_score (mkrecord (Some 10%float) (Some 5%float) (Some 0%float))
  = Ingest.quality_score_of (Spec.observed (Some 10%float) (Some 5%float) (Some 0%float)).
Proof.
  apply (proj2 (proj2 models_score_bounded_and_agrees)
           (mkrecord (Some 10%float) (Some 5%float) (Some 0%float))).
  reflexivity.
Defined.

End HelperProofs.

Module SummaryCounts.

Import Stations.

(** The count of a tier after a scan: its rows counted on top of what the
    group held. *)
Lemma count_rows rows groups q :
  default 0 (foldl count_row groups rows !! q)
  = default 0 (groups !! q)
    + Z.of_nat (length (filter (fun f => Models.data_quality f = q) rows)).
Proof.
  revert groups. induction rows as [|f rows IH]; intros groups; [simpl; lia|].
  simpl. rewrite IH, filter_cons. unfold count_row.
  destruct (decide (Models.data_quality f = q)) as [<-|Hne].
  - rewrite lookup_insert_eq. rewrite length_cons, Nat2Z.inj_succ.
    change (default 0 (Some ?x)) with x. lia.
  - by rewrite lookup_insert_ne.
Qed.

(** A tier the distribution lists has a row. *)
Lemma count_rows_listed rows groups q n :
  (forall q' n', groups !! q' = Some n' -> 1 <= n') ->
  foldl count_row groups rows !! q = Some n -> 1 <= n.
Proof.
  revert groups. induction rows as [|f rows IH]; intros groups Hpos; [apply Hpos|].
  simpl. apply IH. intros q' n' Hq'. unfold count_row in Hq'.
  apply lookup_insert_Some in Hq' as [[_ <-]|[_ Hq']]; [|by eapply Hpos].
  destruct (groups !! Models.data_quality f) as [m|] eqn:Hm; simpl; [|lia].
  apply Hpos in Hm. lia.
Qed.

Lemma tiers_partition (rows : list Models.WeatherFact) :
  (length (filter (fun f => Models.data_quality f = Models.excellent) rows)
   + length (filter (fun f => Models.data_quality f = Models.good) rows)
   + length (filter (fun f => Models.data_quality f = Models.fair) rows)
   + length (filter (fun f => Models.data_quality f = Models.poor) rows))%nat
  = length rows.
Proof.
  induction rows as [|f rows IH]; [done|].
  rewrite !filter_cons. destruct (Models.data_quality f); simpl; lia.
Qed.

Lemma upsert_size d fact facts :
  (size facts <= size (Ingest.upsert_weather_fact d fact facts).1 <= S (size facts))%nat.
Proof.
  destruct (StoreInvariants.upsert_cases d fact facts) as [->|[_ ->]]; [lia|].
  rewrite map_size_insert. destruct (facts !! Models.primary_key fact); unfold id; lia.
Qed.

Lemma apply_writes_size d ws facts n0 :
  let r := Spec.apply_writes d ws facts n0 in
  (size facts <= size r.1)%nat
  /\ forall n, r.2 = Return n -> Z.of_nat (size r.1) <= Z.of_nat (size facts) + (n - n0).
Proof.
  revert facts n0. induction ws as [|f ws IH]; intros facts n0; simpl.
  - split; [lia|]. intros n [= <-]. lia.
  - pose proof (upsert_size d f facts) as Hsize.
    destruct (Ingest.upsert_weather_fact d f facts) as [m [[]|e]]; simpl in *.
    + destruct (IH m (n0 + 1)) as [Hle Hcount]. split; [lia|].
      intros n Hn. specialize (Hcount n Hn). lia.
    + split; [lia|done].
Qed.

(** X16: [get_ingestion_summary]: the counts of the four tiers add up to the
    number of weather facts, and a tier the distribution lists has a row.
    Around a run of [ingest_weather_data], however the run ends: neither
    the number of stations nor the number of weather facts goes down, and
    when the run returns its record count, the number of weather facts has
    grown by that count at most. *)
Theorem summary_counts_every_fact :
  (forall db,
      tier_count (get_ingestion_summary db) Models.excellent
      + tier_count (get_ingestion_summary db) Models.good
      + tier_count (get_ingestion_summary db) Models.fair
      + tier_count (get_ingestion_summary db) Models.poor
      = weather_facts (get_ingestion_summary db))
  /\ (forall db q n,
        quality_distribution (get_ingestion_summary db) !! q = Some n ->
        1 <= n /\ exists k f, Ingest.weather_facts db !! k = Some f
                              /\ Models.data_quality f = q)
  /\ (forall utcnow d source run_id files db,
        let r := Ingest.ingest_weather_data utcnow d source run_id files db in
        stations (get_ingestion_summary db) <= stations (get_ingestion_summary r.1)
        /\ weather_facts (get_ingestion_summary db)
           <= weather_facts (get_ingestion_summary r.1)
        /\ forall n, r.2 = Return n ->
             weather_facts (get_ingestion_summary r.1)
             <= weather_facts (get_ingestion_summary db) + n).
Proof.
  split; [|split].
  - intros db. unfold tier_count, get_ingestion_summary. simpl.
    rewrite !count_rows, !lookup_empty. simpl.
    pose proof (tiers_partition (Analyze.table_scan (Ingest.weather_facts db))) as Hsum.
    unfold Analyze.table_scan in *. rewrite length_fmap, length_map_to_list in Hsum.
    lia.
  - intros db q n Hq. unfold get_ingestion_summary in Hq. simpl in Hq. split.
    + apply (count_rows_listed (Analyze.table_scan (Ingest.weather_facts db)) ∅ q n);
        [|done].
      intros q' n'. by rewrite lookup_empty.
    + pose proof (count_rows (Analyze.table_scan (Ingest.weather_facts db)) ∅ q) as Hc.
      rewrite Hq, lookup_empty in Hc. simpl in Hc.
      pose proof (count_rows_listed (Analyze.table_scan (Ingest.weather_facts db)) ∅ q n
                    ltac:(intros q' n'; by rewrite lookup_empty) Hq) as Hpos.
      destruct (filter _ _) as [|f rest] eqn:Hf; [simpl in Hc; lia|].
      assert (f ∈ filter (fun f => Models.data_quality f = q)
                         (Analyze.table_scan (Ingest.weather_facts db))) as Hin
          by (rewrite Hf; left).
      apply list_elem_of_filter in Hin as [Hquality Hin]. unfold Analyze.table_scan in Hin.
      apply list_elem_of_fmap in Hin as [[k f'] [-> Hin]].
      apply elem_of_map_to_list in Hin. eauto.
  - intros utcnow d source run_id files db. simpl.
    unfold get_ingestion_summary. simpl.
    destruct (StoreInvariants.ingest_files_keeps utcnow d source run_id files db 0)
      as (Hstations & _).
    pose proof (StoreProofs.ingest_files_writes utcnow d source run_id files db 0) as Hw.
    fold (Ingest.ingest_weather_data utcnow d source run_id files db) in Hstations, Hw.
    destruct (apply_writes_size d (Spec.directory_facts source run_id files)
                (Spec.rows_without_time db) 0) as [Hle Hcount]. simpl in Hle, Hcount.
    set (r := Ingest.ingest_weather_data utcnow d source run_id files db) in *.
    destruct (Spec.apply_writes d _ _ 0) as [facts res] eqn:Happly.
    injection Hw as Hrows Hres. simpl in *.
    assert (size (Spec.rows_without_time r.1) = size (Ingest.weather_facts r.1)) as Hr
        by apply map_size_fmap.
    assert (size (Spec.rows_without_time db) = size (Ingest.weather_facts db)) as Hdb
        by apply map_size_fmap.
    rewrite Hrows in Hr. split.
    { apply inj_le, map_subseteq_size, map_subseteq_spec. intros s row. apply Hstations. }
    split; [lia|]. intros n Hn. rewrite Hn in Hres. symmetry in Hres.
    specialize (Hcount n Hres). lia.
Qed.

(** [summary_counts_every_fact] at the store of two days without a missing
    reading: the two rows the distribution lists as excellent are there. *)
Lemma summary_counts_example :
  1 <= 2
  /\ exists k f, Spec.two_days !! k = Some f /\ Models.data_quality f = Models.excellent.
Proof.
  apply (proj1 (proj2 summary_counts_every_fact)
           (Ingest.ingest_weather_data Spec.tick_clock Models.sqlite "manual" "run-1"
              [("S1.txt"%string, [Spec.good_line; Spec.next_day_line])] Spec.empty_store).1
           Models.excellent 2).
  by vm_compute.
Defined.

End SummaryCounts.

(** ** The stations a run adds *)

Module PlaceholderProofs.

Import Ingest.

Section Runs.

Variable utcnow : nat -> Z.
Variable d : Models.dialect.
Variables source run_id : string.

Lemma ingest_lines_stations station lines db n :
  stations (ingest_lines utcnow d source run_id station lines db n).1 = stations db.
Proof. by destruct (StoreInvariants.ingest_lines_keeps utcnow d source run_id station lines db n). Qed.

(** The stations after the loop over the files: the ones the table held,
    and a placeholder for each file met. *)
Lemma ingest_files_stations files db n :
  let r := ingest_files utcnow d source run_id files db n in
  (forall s row, stations r.1 !! s = Some row ->
     stations db !! s = Some row
     \/ (stations db !! s = None /\ row = placeholder s
         /\ exists file lines, (file, lines) ∈ files /\ endswith file ".txt" = true
                               /\ remove_all ".txt" file = s))
  /\ (returns r.2 = true ->
      forall file lines, (file, lines) ∈ files -> endswith file ".txt" = true ->
        is_Some (stations r.1 !! remove_all ".txt" file)).
Proof.
  revert db n. induction files as [|[filename lines] rest IH]; intros db n.
  - simpl. split; [auto|]. intros _ file lines Hin. by apply elem_of_nil in Hin.
  - simpl. destruct (endswith filename ".txt") eqn:Htxt.
    + set (station := remove_all ".txt" filename).
      pose proof (ingest_lines_stations station lines (ensure_station station db) n) as Hsame.
      destruct (StoreInvariants.ensure_station_keeps station db) as (_ & Hthere & Hkept).
      assert (forall s row, stations (ensure_station station db) !! s = Some row ->
                stations db !! s = Some row
                \/ (stations db !! s = None /\ row = placeholder s /\ s = station))
        as Hfrom.
      { intros s row. unfold ensure_station.
        destruct (stations db !! station) eqn:Hs; simpl; [auto|].
        intros Hrow. apply lookup_insert_Some in Hrow as [[<- <-]|[_ Hrow]]; auto. }
      destruct (ingest_lines utcnow d source run_id station lines _ n) as [db1 [n1|e]];
        simpl in *.
      * destruct (IH db1 n1) as [Hrows Hall]. split.
        { intros s row Hrow. destruct (Hrows s row Hrow) as [Hold|(Hnone & -> & f & ls & Hin & ? & ?)].
          - rewrite Hsame in Hold. destruct (Hfrom s row Hold) as [?|(? & -> & ->)]; [by left|].
            right. split; [done|]. split; [done|]. exists filename, lines.
            split; [by left|done].
          - rewrite Hsame in Hnone. right. split.
            { destruct (stations db !! s) as [r|] eqn:Hs; [|done].
              by rewrite (Hkept s r Hs) in Hnone. }
            split; [done|]. exists f, ls. split; [by right|done]. }
        intros Hret file ls Hin Hfile. apply elem_of_cons in Hin as [[= -> ->]|Hin].
        { destruct Hthere as [row Hrow]. rewrite <- Hsame in Hrow.
          destruct (StoreInvariants.ingest_files_keeps utcnow d source run_id rest db1 n1)
            as (Hstay & _).
          exists row. by apply Hstay. }
        by apply (Hall Hret file ls).
      * split; [|done]. intros s row Hrow. rewrite Hsame in Hrow.
        destruct (Hfrom s row Hrow) as [?|(? & -> & ->)]; [by left|].
        right. split; [done|]. split; [done|]. exists filename, lines. split; [by left|done].
    + destruct (IH db n) as [Hrows Hall]. split.
      * intros s row Hrow. destruct (Hrows s row Hrow) as [?|(? & -> & f & ls & Hin & ? & ?)];
          [by left|].
        right. split; [done|]. split; [done|]. exists f, ls. split; [by right|done].
      * intros Hret file ls Hin Hfile. apply elem_of_cons in Hin as [[= -> ->]|Hin];
          [congruence|]. by apply (Hall Hret file ls).
Qed.

End Runs.

(** X17: The stations of a run of [ingest_weather_data]: a station row that
    was not in the table before is the placeholder of a data file of the
    directory (name "Station " and the id, 0.0, 0.0, XX, active); after a
    run that returns every data file has its station; and the placeholder
    passes [validate_station_data] of src/models.py exactly when its id has
    1 to 20 characters, which the run does not check. *)
Theorem run_adds_placeholder_stations :
  forall utcnow d source run_id files db,
    let r := ingest_weather_data utcnow d source run_id files db in
    (forall s row,
        stations db !! s = None -> stations r.1 !! s = Some row ->
        row = placeholder s
        /\ exists file lines, (file, lines) ∈ files /\ endswith file ".txt" = true
                              /\ remove_all ".txt" file = s)
    /\ (returns r.2 = true ->
        forall file lines, (file, lines) ∈ files -> endswith file ".txt" = true ->
          is_Some (stations r.1 !! remove_all ".txt" file))
    /\ (forall s,
          ModelsHelpers.validate_station_data s (Models.latitude (placeholder s))
            (Models.longitude (placeholder s)) (Models.state (placeholder s))
          = if StationSpec.valid_id s then Return true else Raise ValueError).
Proof.
  intros utcnow d source run_id files db. simpl.
  destruct (ingest_files_stations utcnow d source run_id files db 0) as [Hrows Hall].
  split; [|split; [done|]].
  - intros s row Hnone Hrow. destruct (Hrows s row Hrow) as [?|(_ & ? & ?)]; [congruence|done].
  - intros s. unfold ModelsHelpers.validate_station_data, StationSpec.valid_id. simpl.
    destruct (ModelsHelpers.empty s); [done|]. simpl.
    destruct (Nat.ltb_spec 20 (String.length s)), (Nat.leb_spec (String.length s) 20);
      try lia; done.
Qed.

(** [run_adds_placeholder_stations] at the run of one file into an empty
    store. *)
Lemma run_adds_placeholder_example :
  is_Some (stations
             (ingest_weather_data Spec.tick_clock Models.sqlite "manual" "run-1"
                [("S1.txt"%string, [Spec.good_line; Spec.next_day_line])]
                Spec.empty_store).1 !! remove_all ".txt" "S1.txt").
Proof.
  apply (proj1 (proj2 (run_adds_placeholder_stations Spec.tick_clock Models.sqlite
                         "manual"%string "run-1"%string
                         [("S1.txt"%string, [Spec.good_line; Spec.next_day_line])]
                         Spec.empty_store))
           ltac:(by vm_compute) "S1.txt"%string [Spec.good_line; Spec.next_day_line]);
    [by left|reflexivity].
Defined.

End PlaceholderProofs.

(** ** Every row in one group *)

Module GroupProofs.

Import Analyze.

Section GroupBy.

Context {K : Type} `{Countable K}.
Variable group_key : Models.WeatherFact -> K.

Lemma scan_row_total groups f :
  GroupSpec.states_total (scan_row group_key groups f) = GroupSpec.states_total groups + 1.
Proof.
  unfold scan_row, GroupSpec.states_total.
  destruct (groups !! group_key f) as [old|] eqn:Hold; simpl.
  - rewrite <- insert_delete_eq.
    rewrite map_fold_insert_L; [|intros; lia|apply lookup_delete_eq].
    rewrite (map_fold_delete_L _ _ (group_key f) old groups); [|intros; lia|done].
    simpl. lia.
  - rewrite map_fold_insert_L; [|intros; lia|done]. simpl. lia.
Qed.

Lemma scan_rows_total rows groups :
  GroupSpec.states_total (foldl (scan_row group_key) groups rows)
  = GroupSpec.states_total groups + Z.of_nat (length rows).
Proof.
  revert groups. induction rows as [|f rows IH]; intros groups; [simpl; lia|].
  simpl foldl. rewrite IH, scan_row_total. simpl length. lia.
Qed.

Lemma group_by_counts_rows rows :
  GroupSpec.rows_counted (group_by group_key rows) = Z.of_nat (length rows).
Proof.
  unfold GroupSpec.rows_counted, group_by. rewrite map_fold_fmap.
  pose proof (scan_rows_total rows ∅) as Htotal. unfold GroupSpec.states_total in Htotal.
  rewrite map_fold_empty, Z.add_0_l in Htotal. exact Htotal.
Qed.

(** A group holds the rows of its key: at least one. *)
Lemma group_by_group rows g row :
  group_by group_key rows !! g = Some row ->
  1 <= record_count row /\ is_Some (avg_quality_score row)
  /\ exists f, f ∈ rows /\ group_key f = g.
Proof.
  rewrite AggregationProofs.group_by_lookup.
  destruct (Spec.rows_of_group group_key g rows) as [|f group] eqn:Hg; [done|].
  intros [= <-]. simpl. split; [lia|]. split; [by eexists|].
  exists f.
  assert (f ∈ filter (fun f => group_key f = g) rows) as Hin.
  { unfold Spec.rows_of_group in Hg. rewrite Hg. by left. }
  apply list_elem_of_filter in Hin as [? ?]. done.
Qed.

Lemma group_by_covers rows f :
  f ∈ rows -> is_Some (group_by group_key rows !! group_key f).
Proof.
  intros Hin. rewrite AggregationProofs.group_by_lookup.
  destruct (Spec.rows_of_group group_key (group_key f) rows) as [|f' group] eqn:Hg;
    [|by eexists].
  assert (f ∈ Spec.rows_of_group group_key (group_key f) rows) as Hf
      by by apply list_elem_of_filter.
  rewrite Hg in Hf. by apply elem_of_nil in Hf.
Qed.

End GroupBy.

Lemma table_scan_length facts : length (table_scan facts) = size facts.
Proof. unfold table_scan. by rewrite length_fmap, length_map_to_list. Qed.

Lemma elem_of_table_scan facts f :
  f ∈ table_scan facts <-> exists k, facts !! k = Some f.
Proof.
  unfold table_scan. rewrite list_elem_of_fmap. split.
  - intros [[k f'] [-> Hin]]. apply elem_of_map_to_list in Hin. eauto.
  - intros [k Hk]. exists (k, f). split; [done|]. by apply elem_of_map_to_list.
Qed.

(** X18: src/analyze.py: in each of the three aggregations the record counts of
    all groups add up to the number of rows of the fact table; every row
    has its group; and every group has a row of its key, a record count of
    at least 1 and an average quality score that is not null. *)
Theorem every_row_in_one_group :
  (forall facts,
      GroupSpec.rows_counted (annual_weather_aggregation facts) = Z.of_nat (size facts)
      /\ GroupSpec.rows_counted (monthly_weather_aggregation facts) = Z.of_nat (size facts)
      /\ GroupSpec.rows_counted (quarterly_weather_aggregation facts)
         = Z.of_nat (size facts))
  /\ (forall facts k f,
        facts !! k = Some f ->
        is_Some (annual_weather_aggregation facts !! annual_key f)
        /\ is_Some (monthly_weather_aggregation facts !! monthly_key f)
        /\ is_Some (quarterly_weather_aggregation facts !! quarterly_key f))
  /\ (forall facts g row,
        annual_weather_aggregation facts !! g = Some row ->
        1 <= record_count row /\ is_Some (avg_quality_score row)
        /\ exists k f, facts !! k = Some f /\ annual_key f = g)
  /\ (forall facts g row,
        monthly_weather_aggregation facts !! g = Some row ->
        1 <= record_count row /\ is_Some (avg_quality_score row)
        /\ exists k f, facts !! k = Some f /\ monthly_key f = g)
  /\ (forall facts g row,
        quarterly_weather_aggregation facts !! g = Some row ->
        1 <= record_count row /\ is_Some (avg_quality_score row)
        /\ exists k f, facts !! k = Some f /\ quarterly_key f = g).
Proof.
  split; [|split; [|split; [|split]]].
  - intros facts.
    unfold annual_weather_aggregation, monthly_weather_aggregation,
      quarterly_weather_aggregation.
    by rewrite !group_by_counts_rows, table_scan_length.
  - intros facts k f Hf.
    assert (f ∈ table_scan facts) as Hin by (apply elem_of_table_scan; eauto).
    split; [|split]; by apply group_by_covers.
  - intros facts g row Hrow. apply group_by_group in Hrow as (? & ? & f & Hin & ?).
    apply elem_of_table_scan in Hin as [k Hk]. eauto 6.
  - intros facts g row Hrow. apply group_by_group in Hrow as (? & ? & f & Hin & ?).
    apply elem_of_table_scan in Hin as [k Hk]. eauto 6.
  - intros facts g row Hrow. apply group_by_group in Hrow as (? & ? & f & Hin & ?).
    apply elem_of_table_scan in Hin as [k Hk]. eauto 6.
Qed.


(** [every_row_in_one_group] at the first row of the table of two days. *)
Lemma every_row_in_one_group_example :
  is_Some (annual_weather_aggregation Spec.two_days !! annual_key Spec.first_fact)
  /\ is_Some (monthly_weather_aggregation Spec.two_days !! monthly_key Spec.first_fact)
  /\ is_Some (quarterly_weather_aggregation Spec.two_days
               !! quarterly_key Spec.first_fact).
Proof.
  apply (proj1 (proj2 every_row_in_one_group) Spec.two_days
           ("S1"%string, Spec.new_year_2020, "manual"%string) Spec.first_fact).
  by vm_compute.
Defined.

End GroupProofs.

(** ** The two answers/ scripts on the same files *)

Module AnswersAgreement.

Lemma guarded_reads_the_same line r :
  IngestWeather.parse_line line = Return r -> EtlRunner.parse_line line = Return r.
Proof.
  unfold IngestWeather.parse_line, EtlRunner.parse_line.
  destruct (split TAB (strip line)) as [|ds [|s1 [|s2 [|s3 [|? ?]]]]]; try done.
  by intros ->.
Qed.

(** A pass of the plain decoder that returns is the pass of the guarded one. *)
Lemma insert_lines_guarded station lines fault weather count weather' n :
  insert_lines IngestWeather.parse_line station lines fault weather count
  = (weather', Return n) ->
  insert_lines EtlRunner.parse_line station lines fault weather count
  = (weather', Return n).
Proof.
  revert fault weather count.
  induction lines as [|line rest IH]; intros fault weather count.
  - by destruct fault as [[|?]|].
  - simpl. destruct fault as [[|j]|]; [done|..];
      (destruct (IngestWeather.parse_line line) as [r|e] eqn:Hline; [|done];
       rewrite (guarded_reads_the_same line r Hline);
       destruct r as [data|]; [|apply IH];
       destruct (INSERT_SQL station data weather) as [w [[]|e]]; [apply IH|done]).
Qed.

Lemma sweep_matches files :
  forall st totals total weather' n,
    NoDup files.*1 ->
    (forall f ls, (f, ls) ∈ files -> EtlRunner.watch_dir st !! f = Some ls) ->
    IngestWeather.ingest_dir Spec.no_faults files (EtlRunner.weather st) total
    = (weather', Return n) ->
    let r := EtlRunner.sweep Spec.no_faults files.*1 st totals in
    EtlRunner.weather r.1 = weather'
    /\ r.2.1 = totals.1 + Z.of_nat (length (AnswersSpec.data_files files))
    /\ r.2.2 = totals.2 + (n - total)
    /\ (forall f ls, (f, ls) ∈ AnswersSpec.data_files files ->
          EtlRunner.watch_dir r.1 !! f = None /\ EtlRunner.archive_dir r.1 !! f = Some ls).
Proof.
  induction files as [|[file lines] rest IH]; intros st totals total weather' n Hnd Hwatch.
  - simpl. intros [= <- <-]. split; [done|]. split; [lia|]. split; [lia|].
    intros f ls Hin. by apply elem_of_nil in Hin.
  - simpl in Hnd. apply NoDup_cons in Hnd as [Hfresh Hnd].
    unfold AnswersSpec.data_files. rewrite filter_cons. simpl.
    unfold EtlRunner.sweep_file.
    destruct (decide (endswith file ".txt" = true)) as [Htxt|Htxt].
    + rewrite Htxt, (Hwatch file lines) by by left.
      unfold IngestWeather.ingest_file, EtlRunner.process_file, Spec.no_faults.
      destruct (insert_lines IngestWeather.parse_line _ lines None _ 0)
        as [w1 [c|e]] eqn:Hpass; [|done].
      rewrite (insert_lines_guarded _ _ _ _ _ _ _ Hpass). intros Hrest.
      set (st1 := EtlRunner.archive_file file lines
                    (EtlRunner.mkstate w1 (EtlRunner.watch_dir st) (EtlRunner.archive_dir st))).
      destruct (IH st1 (totals.1 + 1, totals.2 + c) (total + c) weather' n Hnd)
        as (Hweather & Hfiles & Hrecords & Hmoved); [|done|].
      { intros f ls Hin. simpl. rewrite lookup_delete_ne.
        - apply Hwatch. by right.
        - intros <-. apply Hfresh. apply list_elem_of_fmap. by exists (file, ls). }
      split; [exact Hweather|]. split.
      { etrans; [exact Hfiles|]. rewrite length_cons, Nat2Z.inj_succ.
        match goal with
        | |- _ = _ + Z.succ (Z.of_nat (length ?F)) =>
            change (AnswersSpec.data_files rest) with F
        end.
        simpl. lia. }
      split; [etrans; [exact Hrecords|simpl; lia]|].
      intros f ls Hin. apply elem_of_cons in Hin as [[= -> ->]|Hin]; [|by apply Hmoved].
      destruct (SweepProofs.sweep_other Spec.no_faults rest.*1 st1
                  (totals.1 + 1, totals.2 + c) file Hfresh) as [Hw Ha].
      split; [etrans; [exact Hw|]|etrans; [exact Ha|]]; simpl.
      * apply lookup_delete_eq.
      * apply lookup_insert_eq.
    + apply not_true_is_false in Htxt. rewrite Htxt. intros Hrest.
      apply (IH st totals total weather' n Hnd); [|done].
      intros f ls Hin. apply Hwatch. by right.
Qed.

(** X19: The two answers/ scripts on the same data: when a run of
    answers/ingest_weather.py over a listing returns (so that none of its
    reads failed), the loop of
    answers/etl_runner.py over the same listing, with no read failing and
    the files in its watch directory, leaves the same table, reports the
    same number of records and the number of data files as its file count,
    and has moved every data file to the archive. *)
Theorem answers_scripts_agree :
  forall faults files weather weather' n watch archive,
    NoDup files.*1 ->
    (forall f ls, (f, ls) ∈ files -> watch !! f = Some ls) ->
    IngestWeather.main faults files weather = (weather', Return n) ->
    let r := EtlRunner.sweep Spec.no_faults files.*1
               (EtlRunner.mkstate weather watch archive) (0, 0) in
    EtlRunner.weather r.1 = weather'
    /\ r.2 = (Z.of_nat (length (AnswersSpec.data_files files)), n)
    /\ (forall f ls, (f, ls) ∈ AnswersSpec.data_files files ->
          EtlRunner.watch_dir r.1 !! f = None /\ EtlRunner.archive_dir r.1 !! f = Some ls).
Proof.
  intros faults files weather weather' n watch archive Hnd Hwatch Hrun. simpl.
  unfold IngestWeather.main in Hrun.
  destruct (IngestWeather.ingest_dir faults files weather 0) as [w [c|e]] eqn:Hdir;
    [|done].
  injection Hrun as -> ->. apply RerunProofs.ingest_dir_no_fault in Hdir.
  destruct (sweep_matches files (EtlRunner.mkstate weather watch archive) (0, 0) 0
              weather' n Hnd Hwatch Hdir) as (Hweather & Hfiles & Hrecords & Hmoved).
  simpl in *. split; [done|]. split; [|done].
  destruct (EtlRunner.sweep _ _ _ _) as [st [a b]]. simpl in *. f_equal; lia.
Qed.

(** [answers_scripts_agree] at a directory with one data file of two days. *)
Lemma answers_scripts_agree_example :
  (EtlRunner.sweep Spec.no_faults ["S1.txt"%string]
     (EtlRunner.mkstate ∅ {["S1.txt"%string := [Spec.good_line; Spec.next_day_line]]} ∅)
     (0, 0)).2
  = (Z.of_nat (length (AnswersSpec.data_files
                         [("S1.txt"%string, [Spec.good_line; Spec.next_day_line])])), 2).
Proof.
  apply (answers_scripts_agree Spec.no_faults
           [("S1.txt"%string, [Spec.good_line; Spec.next_day_line])] ∅
           (IngestWeather.main Spec.no_faults
              [("S1.txt"%string, [Spec.good_line; Spec.next_day_line])] ∅).1
           2 {["S1.txt"%string := [Spec.good_line; Spec.next_day_line]]} ∅).
  - apply NoDup_singleton.
  - intros f ls Hin. apply list_elem_of_singleton in Hin as [= -> ->].
    apply lookup_singleton_eq.
  - rewrite (surjective_pairing
               (IngestWeather.main Spec.no_faults
                  [("S1.txt"%string, [Spec.good_line; Spec.next_day_line])] ∅)) at 1.
    f_equal.
Defined.

End AnswersAgreement.

(** ** Pages *)

Module PageProofs.

Import App.

Section Query.

Context {A : Type}.
Variable rows : list A.
Variable fetch : Z -> Z -> list A.
Hypothesis window : PageSpec.windows rows fetch.

Lemma page_records page per_page :
  1 <= page -> 1 <= per_page ->
  PageSpec.records_of (get_paginated_response rows fetch page per_page)
  = take (Z.to_nat per_page) (drop (Z.to_nat ((page - 1) * per_page)) rows).
Proof using window.
  intros Hpage Hper. unfold get_paginated_response.
  destruct (Z.eqb_spec per_page 0); [lia|]. simpl. apply window; nia.
Qed.

(** The pages from [first] on, laid end to end. *)
Lemma pages_from_window per_page first n :
  1 <= first -> 1 <= per_page ->
  PageSpec.pages_from rows fetch per_page first n
  = take (n * Z.to_nat per_page) (drop (Z.to_nat ((first - 1) * per_page)) rows).
Proof using window.
  intros Hfirst Hper. revert first Hfirst. induction n as [|n IH]; intros first Hfirst.
  - by rewrite take_0.
  - simpl PageSpec.pages_from. rewrite page_records, IH by lia.
    replace (Z.to_nat ((first + 1 - 1) * per_page))
      with (Z.to_nat ((first - 1) * per_page) + Z.to_nat per_page)%nat by nia.
    rewrite <- drop_drop, take_take_drop. f_equal; lia.
Qed.

End Query.

(** X20: [get_paginated_response] of src/app.py, for a page of 1 or more and a
    page size of 1 or more, over a query whose OFFSET and LIMIT give a
    window of its rows: the page holds the rows of its window, per_page at
    most; has_next is true exactly when rows are left after the page, and
    has_prev exactly from page 2 on; the pages number 0 for no row and are
    otherwise the least number whose windows cover the rows; the pages 1 to
    [pages], end to end, are the rows of the query, each once and in
    order, and every later page is empty. A page size of 0 raises
    ZeroDivisionError. The page the handlers pass is 1 at least, the page
    size 1000 at most. *)
Theorem pages_cover_the_rows :
  (forall (A : Type) (rows : list A) fetch page per_page,
      PageSpec.windows rows fetch -> 1 <= page -> 1 <= per_page ->
      exists records p,
        get_paginated_response rows fetch page per_page = Response (records, p)
        /\ records = take (Z.to_nat per_page) (drop (Z.to_nat ((page - 1) * per_page)) rows)
        /\ Z.of_nat (length records) <= per_page
        /\ total p = Z.of_nat (length rows)
        /\ (has_next p = true <-> page * per_page < total p)
        /\ (has_prev p = true <-> 1 < page)
        /\ (pages p - 1) * per_page < total p <= pages p * per_page
        /\ (pages p < page -> records = [])
        /\ PageSpec.pages_from rows fetch per_page 1 (Z.to_nat (pages p)) = rows)
  /\ (forall (A : Type) (rows : list A) fetch page,
        get_paginated_response rows fetch page 0 = ZeroDivisionError)
  /\ (forall page per_page, 1 <= page_of page /\ per_page_of per_page <= 1000).
Proof.
  split; [|split].
  - intros A rows fetch page per_page Hwindow Hpage Hper.
    pose proof (page_records rows fetch Hwindow page per_page Hpage Hper) as Hrecords.
    pose proof (pages_from_window rows fetch Hwindow per_page 1
                  (Z.to_nat ((Z.of_nat (length rows) + per_page - 1) / per_page))
                  ltac:(lia) Hper) as Hall.
    unfold get_paginated_response in *.
    destruct (Z.eqb_spec per_page 0); [lia|]. simpl in Hrecords.
    set (total := Z.of_nat (length rows)) in *.
    set (pages := (total + per_page - 1) / per_page) in *.
    assert ((pages - 1) * per_page < total <= pages * per_page) as Hpages.
    { unfold pages. pose proof (Z.div_mod (total + per_page - 1) per_page ltac:(lia)).
      pose proof (Z.mod_pos_bound (total + per_page - 1) per_page ltac:(lia)). nia. }
    eexists _, _. split; [reflexivity|]. simpl.
    split; [done|]. split.
    { rewrite Hrecords, length_take. lia. }
    split; [done|]. split.
    { rewrite Z.ltb_lt. split; intros; nia. }
    split; [apply Z.ltb_lt|]. split; [done|]. split.
    { intros Hlate. rewrite Hrecords, drop_ge; [apply take_nil|]. unfold total in *. nia. }
    rewrite Hall. simpl. rewrite drop_0. apply take_ge. unfold total in *. nia.
  - intros A rows fetch page. done.
  - intros page per_page. unfold page_of, per_page_of. split; [|lia].
    destruct (Z.ltb_spec page 1); lia.
Qed.

(** [pages_cover_the_rows] at five rows in pages of two, over the window
    of SQLite: page 3 holds the last row. *)
Lemma pages_cover_example :
  exists records p,
    get_paginated_response [1; 2; 3; 4; 5] (PageSpec.sqlite_fetch [1; 2; 3; 4; 5]) 3 2
    = Response (records, p)
    /\ records = take (Z.to_nat 2) (drop (Z.to_nat ((3 - 1) * 2)) [1; 2; 3; 4; 5])
    /\ Z.of_nat (length records) <= 2
    /\ total p = Z.of_nat (length [1; 2; 3; 4; 5])
    /\ (has_next p = true <-> 3 * 2 < total p)
    /\ (has_prev p = true <-> 1 < 3)
    /\ (pages p - 1) * 2 < total p <= pages p * 2
    /\ (pages p < 3 -> records = [])
    /\ PageSpec.pages_from [1; 2; 3; 4; 5] (PageSpec.sqlite_fetch [1; 2; 3; 4; 5]) 2 1
         (Z.to_nat (pages p))
       = [1; 2; 3; 4; 5].
Proof.
  apply (proj1 pages_cover_the_rows Z [1; 2; 3; 4; 5]
           (PageSpec.sqlite_fetch [1; 2; 3; 4; 5]) 3 2); [|lia..].
  intros o l Ho Hl. unfold PageSpec.sqlite_fetch.
  destruct (Z.ltb_spec l 0); [lia|done].
Defined.

End PageProofs.

(** ** The fallback branch and the lines a script cannot store *)

Module FallbackProofs.

Import Ingest.

Lemma fallback_writes ws facts n :
  FallbackSpec.bound ws ->
  FallbackSpec.free_keys ws facts ->
  Spec.apply_writes Models.other_dialect ws facts n
  = (foldl Spec.put facts (FallbackSpec.in_range ws), Return (n + Z.of_nat (length ws))).
Proof.
  intros Hbound. revert facts n.
  induction Hbound as [|f ws Hf64 Hbound IH]; intros facts n Hfree.
  - simpl. do 2 f_equal. lia.
  - unfold FallbackSpec.in_range in *. rewrite filter_cons.
    cbn [Spec.apply_writes upsert_weather_fact].
    unfold add_or_update, Models.storage_error. rewrite Hf64.
    destruct (Models.check_constraints f) eqn:Hf.
    + rewrite decide_True by done.
      assert (FallbackSpec.free_keys ws (Spec.put facts f)) as Hrest.
      { intros g Hg Hgout. destruct (Hfree g ltac:(by right) Hgout) as [Hnone Hother].
        split.
        { unfold Spec.put. rewrite lookup_insert_ne; [done|].
          apply Hother; [by left|done]. }
        intros h Hh. apply Hother. by right. }
      destruct (facts !! Models.primary_key f); rewrite (IH _ _ Hrest); simpl;
        do 2 f_equal; lia.
    + rewrite decide_False by congruence.
      destruct (Hfree f ltac:(by left) Hf) as [-> _].
      rewrite IH.
      * simpl. do 2 f_equal. lia.
      * intros g Hg Hgout. destruct (Hfree g ltac:(by right) Hgout) as [Hnone Hother].
        split; [done|]. intros h Hh. apply Hother. by right.
Qed.

(** X21: On the fallback branch of [upsert_weather_fact] (a dialect that is
    neither sqlite nor postgresql, served by a driver that binds integers
    of 64 bits) a line whose raw values break a CHECK constraint is lost
    without a word when its key is free: if every reading of the run fits
    64 bits and no line out of range has a key that is in the table or
    that a line within the ranges writes, the run returns, its count is
    the number of all decoded lines, those lines included, and the table
    holds, time stamp apart, the writes of the lines within the ranges
    only. A reading beyond 64 bits is not lost in silence: its write raises
    OverflowError, which the handler of the branch does not catch, and a
    run with a reading of 10 ^ 20 tenths ends on it. *)
Theorem fallback_loses_lines_silently :
  (forall utcnow source run_id files db,
      FallbackSpec.bound (Spec.directory_facts source run_id files) ->
      FallbackSpec.free_keys (Spec.directory_facts source run_id files)
                             (Spec.rows_without_time db) ->
      let r := ingest_weather_data utcnow Models.other_dialect source run_id files db in
      r.2 = Return (Z.of_nat (length (Spec.directory_facts source run_id files)))
      /\ Spec.rows_without_time r.1
         = foldl Spec.put (Spec.rows_without_time db)
                 (FallbackSpec.in_range (Spec.directory_facts source run_id files)))
  /\ (forall fact facts,
        Models.raw_within (- 2 ^ 63) (2 ^ 63 - 1) fact = false ->
        upsert_weather_fact Models.other_dialect fact facts
        = (facts, Raise OverflowError))
  /\ ingest_weather_data Spec.tick_clock Models.other_dialect "manual" "run-1"
       [("S1.txt"%string, [Spec.wide_reading_line; Spec.next_day_line])]
       Spec.empty_store
     = (ensure_station "S1" (read_clock Spec.empty_store), Raise OverflowError).
Proof.
  split; [|split].
  - intros utcnow source run_id files db Hbound Hfree. simpl.
    pose proof (StoreProofs.ingest_files_writes utcnow Models.other_dialect source run_id
                  files db 0) as Hw.
    fold (ingest_weather_data utcnow Models.other_dialect source run_id files db) in Hw.
    rewrite fallback_writes in Hw by done.
    injection Hw as Hrows Hres. by rewrite Hrows, Hres.
  - intros fact facts Hwide. unfold upsert_weather_fact, add_or_update,
      Models.storage_error. by rewrite Hwide.
  - by vm_compute.
Qed.

(** [fallback_loses_lines_silently] at a file whose first line reads 99999
    tenths: two lines counted, one row stored. *)
Lemma fallback_loses_lines_example :
  (ingest_weather_data Spec.tick_clock Models.other_dialect "manual" "run-1"
     [("S1.txt"%string, [Spec.bad_line; Spec.next_day_line])] Spec.empty_store).2
  = Return (Z.of_nat (length (Spec.directory_facts "manual" "run-1"
                                [("S1.txt"%string, [Spec.bad_line; Spec.next_day_line])])))
  /\ Spec.rows_without_time
       (ingest_weather_data Spec.tick_clock Models.other_dialect "manual" "run-1"
          [("S1.txt"%string, [Spec.bad_line; Spec.next_day_line])] Spec.empty_store).1
     = foldl Spec.put (Spec.rows_without_time Spec.empty_store)
         (FallbackSpec.in_range
            (Spec.directory_facts "manual" "run-1"
               [("S1.txt"%string, [Spec.bad_line; Spec.next_day_line])])).
Proof.
  apply (proj1 fallback_loses_lines_silently Spec.tick_clock "manual"%string
           "run-1"%string
           [("S1.txt"%string, [Spec.bad_line; Spec.next_day_line])] Spec.empty_store).
  { apply Forall_forall. intros f Hf. vm_compute in Hf.
    apply elem_of_cons in Hf as [->|Hf]; [done|].
    apply elem_of_cons in Hf as [->|Hf]; [done|by apply elem_of_nil in Hf]. }
  intros f Hf Hout. split; [done|]. intros g Hg Hin.
  vm_compute in Hf. vm_compute in Hg.
  apply elem_of_cons in Hf as [->|Hf]; [|apply elem_of_cons in Hf as [->|Hf]];
    [|by vm_compute in Hout|by apply elem_of_nil in Hf].
  apply elem_of_cons in Hg as [->|Hg]; [by vm_compute in Hin|].
  apply elem_of_cons in Hg as [->|Hg]; [|by apply elem_of_nil in Hg].
  by vm_compute.
Defined.

End FallbackProofs.

Module StorableProofs.

Section Passes.

Variable decoder : string -> result (option raw_record).
Variable station_id : string.

Lemma INSERT_SQL_returns data weather :
  returns (INSERT_SQL station_id data weather).2
  = binds_integer (rec_max_temp data) && binds_integer (rec_min_temp data)
    && binds_integer (rec_precip data).
Proof.
  unfold INSERT_SQL. destruct (_ && _); [|done].
  by destruct (weather !! (station_id, rec_date data)).
Qed.

(** A pass without a read fault runs to its end exactly when every line
    can be stored. *)
Lemma insert_lines_returns lines weather count :
  returns (insert_lines decoder station_id lines None weather count).2
  = forallb (FallbackSpec.storable decoder) lines.
Proof.
  revert weather count. induction lines as [|line rest IH]; intros weather count; [done|].
  simpl. unfold FallbackSpec.storable at 1.
  destruct (decoder line) as [[data|]|e]; [|apply IH|done].
  rewrite <- (INSERT_SQL_returns data weather).
  destruct (INSERT_SQL station_id data weather) as [w [[]|e]]; simpl; [apply IH|done].
Qed.

End Passes.

Lemma ingest_dir_returns files weather total :
  returns (IngestWeather.ingest_dir Spec.no_faults files weather total).2
  = forallb (fun fl => forallb (FallbackSpec.storable IngestWeather.parse_line) fl.2)
            (AnswersSpec.data_files files).
Proof.
  revert weather total. induction files as [|[file lines] rest IH]; intros weather total;
    [done|].
  unfold AnswersSpec.data_files in *. rewrite filter_cons. simpl.
  destruct (endswith file ".txt") eqn:Htxt.
  - rewrite decide_True by done. simpl.
    unfold IngestWeather.ingest_file, Spec.no_faults at 1.
    rewrite <- (insert_lines_returns IngestWeather.parse_line (splitext_root file) lines
                  weather 0).
    destruct (insert_lines _ _ lines None weather 0) as [w [c|e]]; simpl; [apply IH|done].
  - rewrite decide_False by congruence. apply IH.
Qed.

Lemma guarded_storable line :
  FallbackSpec.storable EtlRunner.parse_line line = false ->
  exists data, EtlRunner.parse_line line = Return (Some data)
               /\ binds_integer (rec_max_temp data) && binds_integer (rec_min_temp data)
                  && binds_integer (rec_precip data) = false.
Proof.
  unfold FallbackSpec.storable.
  destruct (DecoderProofs.etl_parse_line_never_raises line) as [[data|] ->]; [|done].
  intros Hwide. by exists data.
Qed.

(** X22: The lines a script cannot store. A run of answers/ingest_weather.py
    in which no read fails returns exactly when every line of every data
    file is skipped by [parse_line] or decodes to integers of 64 bits; a
    run in which reads fail returns only if all lines are such, and a run
    over a file whose second read fails ends with OSError and an empty
    table; a file of answers/etl_runner.py whose reads do not fail is
    processed to its end exactly when each of its lines is skipped or
    decodes to integers of 64 bits, and a line that stops it is a line its
    decoder accepted with an integer beyond 64 bits. *)
Theorem runs_end_on_unstorable_lines :
  (forall files weather,
      returns (IngestWeather.main Spec.no_faults files weather).2
      = forallb (fun fl => forallb (FallbackSpec.storable IngestWeather.parse_line) fl.2)
                (AnswersSpec.data_files files))
  /\ (forall faults files weather,
        returns (IngestWeather.main faults files weather).2 = true ->
        forallb (fun fl => forallb (FallbackSpec.storable IngestWeather.parse_line) fl.2)
                (AnswersSpec.data_files files) = true)
  /\ IngestWeather.main Spec.fault_in_S1
       [("S1.txt"%string, [Spec.good_line; Spec.next_day_line])] ∅
     = (∅, Raise OSError)
  /\ (forall file lines,
        Spec.completes file lines None
        = forallb (FallbackSpec.storable EtlRunner.parse_line) lines)
  /\ (forall line,
        FallbackSpec.storable EtlRunner.parse_line line = false ->
        exists data,
          EtlRunner.parse_line line = Return (Some data)
          /\ binds_integer (rec_max_temp data) && binds_integer (rec_min_temp data)
             && binds_integer (rec_precip data) = false).
Proof.
  split; [|split; [|split; [|split]]].
  - intros files weather. rewrite <- (ingest_dir_returns files weather 0).
    unfold IngestWeather.main.
    by destruct (IngestWeather.ingest_dir Spec.no_faults files weather 0) as [w [n|e]].
  - intros faults files weather. rewrite <- (ingest_dir_returns files weather 0).
    unfold IngestWeather.main.
    destruct (IngestWeather.ingest_dir faults files weather 0) as [w [n|e]] eqn:Hrun;
      [|done].
    by rewrite (RerunProofs.ingest_dir_no_fault _ _ _ _ _ _ Hrun).
  - by vm_compute.
  - intros file lines. unfold Spec.completes, EtlRunner.process_file.
    rewrite <- (insert_lines_returns EtlRunner.parse_line (splitext_root file) lines ∅ 0).
    by destruct (insert_lines _ _ lines None ∅ 0) as [w [n|e]].
  - apply guarded_storable.
Qed.

(** [runs_end_on_unstorable_lines] at a line that reads 2 ^ 63 tenths. *)
Lemma runs_end_on_wide_line :
  (exists data,
     EtlRunner.parse_line FallbackSpec.wide_line = Return (Some data)
     /\ binds_integer (rec_max_temp data) && binds_integer (rec_min_temp data)
        && binds_integer (rec_precip data) = false)
  /\ forallb (fun fl => forallb (FallbackSpec.storable IngestWeather.parse_line) fl.2)
       (AnswersSpec.data_files
          [("S1.txt"%string, [Spec.good_line; Spec.next_day_line])]) = true.
Proof.
  split.
  - apply (proj2 (proj2 (proj2 (proj2 runs_end_on_unstorable_lines)))
             FallbackSpec.wide_line).
    by vm_compute.
  - apply (proj1 (proj2 runs_end_on_unstorable_lines) Spec.no_faults
             [("S1.txt"%string, [Spec.good_line; Spec.next_day_line])] ∅).
    by vm_compute.
Defined.

End StorableProofs.
